(** * LemmesExtraction: ontology-guided classification and Data Vault assembly

    A shallow embedding of the classification core of the repository
    (similarity calculator, ontology validator, ontology matcher, Data Vault
    generator and the Hub / Link / Satellite records) together with the
    properties its specification states about them.

    Conventions of the embedding.
    - A Python [str] is a [string] whose characters are code points below 256
      (one [ascii] per code point); literals with accents go through [u8].
    - A Python [float] score is a rational number ([Q]); the constants [1.0],
      [0.95], [0.5] are the rationals of the same name.
    - Code that is not part of the repository (hashlib, difflib, unidecode,
      the wall clock, the embedding endpoint, numpy's square root, the
      iteration order of a [set]) enters through small interfaces (type
      classes); every statement holds for all their implementations unless
      it names an assumption about one. *)

From stdpp Require Import base strings list gmap pretty.
From Stdlib Require Import QArith Qround Lqa.
From Stdlib Require Import Ascii String.

Local Open Scope string_scope.
Local Open Scope list_scope.

(** ** Python strings *)

Module PyStr.

(** [str.lower()] on the code points below 256: the ASCII capitals and the
    accented capitals U+00C0..U+00DE (the multiplication sign U+00D7 is not
    a letter) move up by 32. *)
Definition lower_char (c : ascii) : ascii :=
  let n := nat_of_ascii c in
  if ((65 <=? n) && (n <=? 90))%nat then ascii_of_nat (n + 32)
  else if ((192 <=? n) && (n <=? 222) && negb (n =? 215))%nat
       then ascii_of_nat (n + 32)
       else c.

Fixpoint lower (s : string) : string :=
  match s with
  | EmptyString => EmptyString
  | String c r => String (lower_char c) (lower r)
  end.

(** [str.isspace()] for one code point below 256. *)
Definition isspace (c : ascii) : bool :=
  let n := nat_of_ascii c in
  (((9 <=? n) && (n <=? 13)) || ((28 <=? n) && (n <=? 32))
   || (n =? 133) || (n =? 160))%nat.

Fixpoint lstrip (s : string) : string :=
  match s with
  | EmptyString => EmptyString
  | String c r => if isspace c then lstrip r else s
  end.

(** [rstrip] keeps a character when something that is not white space
    follows it or when it is not white space itself. *)
Fixpoint rstrip (s : string) : string :=
  match s with
  | EmptyString => EmptyString
  | String c r =>
      match rstrip r with
      | EmptyString => if isspace c then EmptyString else String c EmptyString
      | r' => String c r'
      end
  end.

Definition strip (s : string) : string := rstrip (lstrip s).

(** [s.replace(old, new)] for one-character [old] and [new]. *)
Fixpoint replace (old new : ascii) (s : string) : string :=
  match s with
  | EmptyString => EmptyString
  | String c r =>
      String (if Ascii.eqb c old then new else c) (replace old new r)
  end.

(** [needle in hay] *)
Fixpoint contains (needle hay : string) : bool :=
  String.prefix needle hay
  || match hay with
     | EmptyString => false
     | String _ r => contains needle r
     end.

(** [s[:n]] *)
Definition take (n : nat) (s : string) : string := String.substring 0 n s.

(** Truth value of a string: [not s] holds for the empty string only. *)
Definition is_empty (s : string) : bool :=
  match s with EmptyString => true | _ => false end.

(** [x in xs] for a list or a set of strings. *)
Definition mem (x : string) (xs : list string) : bool :=
  existsb (String.eqb x) xs.

(** The string whose characters are the images of the characters of [s]. *)
Fixpoint map_chars (g : ascii -> ascii) (s : string) : string :=
  match s with
  | EmptyString => EmptyString
  | String c r => String (g c) (map_chars g r)
  end.

(** [s.replace(old, new)] for a one-character [old] and any [new]. *)
Fixpoint replace_by (old : ascii) (new : string) (s : string) : string :=
  match s with
  | EmptyString => EmptyString
  | String c r =>
      if Ascii.eqb c old then new +:+ replace_by old new r
      else String c (replace_by old new r)
  end.

(** Source literals are written in UTF-8; a two-byte sequence [C2 xx] or
    [C3 xx] stands for one code point below 256. *)
Fixpoint u8 (s : string) : string :=
  match s with
  | String c1 ((String c2 r) as t) =>
      let n1 := nat_of_ascii c1 in
      if (n1 =? 194)%nat then String c2 (u8 r)
      else if (n1 =? 195)%nat
           then String (ascii_of_nat (nat_of_ascii c2 + 64)) (u8 r)
           else String c1 (u8 t)
  | _ => s
  end.

End PyStr.

(** ** Interfaces of the code outside the repository *)

(** [unidecode]: the transliteration of a code point that is not ASCII. *)
Class Unidecode := { translit : ascii -> string }.

(** What [difflib.get_close_matches(word, possibilities, n, cutoff)]
    returns once it has accepted its arguments: the best [n] possibilities
    whose ratio reaches the cutoff, best first. *)
Class Difflib := {
  best_matches : string -> list string -> nat -> Q -> list string
}.

(** The outcome of a call that can raise [ValueError]. *)
Inductive outcome (A : Type) : Type :=
| Returns (value : A)
| ValueError.

Arguments Returns {A} value.
Arguments ValueError {A}.

(** [difflib.get_close_matches]: it raises [ValueError] unless [n > 0]
    and [0.0 <= cutoff <= 1.0], and ranks the possibilities otherwise. *)
Definition get_close_matches `{Difflib} (word : string)
    (possibilities : list string) (n : nat) (cutoff : Q)
  : outcome (list string) :=
  if negb (0 <? n)%nat then ValueError
  else if negb (Qle_bool 0 cutoff && Qle_bool cutoff 1) then ValueError
  else Returns (best_matches word possibilities n cutoff).

(** [hashlib.md5(s.encode()).hexdigest()] *)
Class Hashlib := { md5_hexdigest : string -> string }.

(** Text of a float inside an f-string, and [datetime.isoformat()]. *)
Class Formatting := {
  float_str : Q -> string;
  isoformat : Z -> string
}.

(** The wall clock: [datetime_now k] is what the [k]-th call of
    [datetime.now()] returns, in microseconds. *)
Class Clock := { datetime_now : nat -> Z }.

(** [SimilarityCalculator.calculate_similarity], seen from its callers: for
    a given strategy, endpoint and cache, a score for two strings. *)
Class Scorer := { calculate_similarity : string -> string -> Q }.

(** Order in which [list(s)] enumerates a set of strings. *)
Class SetOrder := { list_of_set : gset string -> list string }.

(** Comparison of two scores: [x > y] and [x >= y]. *)
Definition Qgt_bool (x y : Q) : bool := negb (Qle_bool x y).
Definition Qge_bool (x y : Q) : bool := Qle_bool y x.

(** [round(x, 4)]: the nearest multiple of 1/10000, a tie going to the even
    one. *)
Definition round4 (x : Q) : Q :=
  let scaled := (x * 10000)%Q in
  let below := Qfloor scaled in
  let rest := (scaled - inject_Z below)%Q in
  let units :=
    if Qgt_bool rest (1 # 2) then (below + 1)%Z
    else if Qeq_bool rest (1 # 2)
         then (if Z.even below then below else (below + 1)%Z)
         else below in
  Qmake units 10000.

(** Values that end up in a metadata map or in an exported dictionary; a
    [dict] is the list of its items in insertion order. *)
#[warnings="-register-all"]
Inductive py_value :=
| PyStr (s : string)
| PyInt (n : Z)
| PyFloat (x : Q)
| PyList (l : list py_value)
| PyDict (items : list (string * py_value)).

(** [d.get(key)] *)
Fixpoint dict_lookup {V} (d : list (string * V)) (key : string) : option V :=
  match d with
  | [] => None
  | (k, v) :: r => if String.eqb key k then Some v else dict_lookup r key
  end.

(** [d[key] = value] on a dict kept as the list of its items: the value of
    a key already present is replaced in place, a new key goes last. *)
Fixpoint dict_set {V} (d : list (string * V)) (key : string) (value : V)
  : list (string * V) :=
  match d with
  | [] => [(key, value)]
  | (k, v) :: r =>
      if String.eqb key k then (k, value) :: r
      else (k, v) :: dict_set r key value
  end.

(** [datetime.timestamp()]: seconds, from microseconds. *)
Definition timestamp (d : Z) : Q := Qmake d 1000000.

Module Unidec.
Import PyStr.

(** ASCII text is returned as it is, every other character is replaced by
    its transliteration. *)
Fixpoint unidecode `{Unidecode} (s : string) : string :=
  match s with
  | EmptyString => EmptyString
  | String c r =>
      if (nat_of_ascii c <? 128)%nat then String c (unidecode r)
      else translit c +:+ unidecode r
  end.
End Unidec.

(** ** enhanced_llm_extractor.py: OntologyValidator *)

Module OntologyValidator.
Import PyStr Unidec.

Definition HUBS_plantes : list string :=
  ["corn"; "onion"; "tomato"; "mais"; "oignon"; "tomate"].

Definition SATELLITES_symptomes : list string :=
  ["chlorose"; "necrose"; "fletrissement"; "lesion"; "tache"; "striure";
   "mosaique"; "pourriture"; "galle"; "deformation"; "nanisme"; "toile";
   "galerie"; "miellat"; "morsure"; "jaunissement"; "perforation"].

Definition PLANT_ALIASES : list (string * string) :=
  [("mais", "corn"); (u8 "maïs", "corn");
   ("oignon", "onion"); ("tomate", "tomato")].

(** The normalisation step of [validate_term]. *)
Definition normalize `{Unidecode} (value : string) : string :=
  unidecode (replace "-" "_" (replace " " "_" (lower value))).

(** One string is a substring of the other. *)
Definition partial_match (value term : string) : bool :=
  contains term value || contains value term.

(** An exception of [get_close_matches] escapes the call. *)
Definition validate_term `{Unidecode} `{Difflib}
    (value : string) (valid_terms : list string) (cutoff : Q)
  : outcome (option string) :=
  if is_empty value then Returns None
  else
    let value := normalize value in
    if mem value valid_terms then Returns (Some value)
    else
      match find (partial_match value) valid_terms with
      | Some term => Returns (Some term)
      | None =>
          match get_close_matches value valid_terms 1 cutoff with
          | Returns (m :: _) => Returns (Some m)
          | Returns [] => Returns None
          | ValueError => ValueError
          end
      end.

(** The default value of [cutoff]. *)
Definition default_cutoff : Q := 6 # 10.

Definition identify_plant `{Unidecode} `{Difflib} (lemme : string)
  : outcome (option string) :=
  let lemme_norm := unidecode (lower lemme) in
  match dict_lookup PLANT_ALIASES lemme_norm with
  | Some plant => Returns (Some plant)
  | None => validate_term lemme HUBS_plantes default_cutoff
  end.

(** The ladder as the specification words it, with no guard on the empty
    input and no word of an exception: normalise, exact match, substring
    match, fuzzy match, [None]. Used only to compare with
    [validate_term]. *)
Definition validate_term_as_worded `{Unidecode} `{Difflib}
    (value : string) (valid_terms : list string) (cutoff : Q)
  : option string :=
  let value := normalize value in
  if mem value valid_terms then Some value
  else
    match find (partial_match value) valid_terms with
    | Some term => Some term
    | None => hd_error (best_matches value valid_terms 1 cutoff)
    end.

Definition LINKS_relations : list string :=
  ["has_disease"; "has_infestation"; "has_health_status";
   "a_maladie"; "a_infestation"; "a_etat_sante"].

(** [SATELLITES]: the categories with their terms, in the order of the
    dict literal. *)
Definition SATELLITES : list (string * list string) :=
  [("etats_sante",
    ["sain"; "saine"; "malade"; "stresse"; "infeste"; "vigoureux"]);
   ("maladies_corn",
    ["fusariose"; "helminthosporiose"; "rouille"; "curvulariose";
     "striure"; "virose"; "stress_abiotique"]);
   ("maladies_onion",
    ["alternariose"; "mildiou"; "pourriture_blanche"; "fusariose";
     "bacteriose"; "stress_abiotique"]);
   ("maladies_tomato",
    ["alternariose"; "mildiou"; "fusariose"; "bacterial_wilt";
     "virus_tylcv"; "fletrissement_bacterien"; "stress_abiotique"]);
   ("ravageurs_corn",
    ["foreur_tige"; "chenille_legionnaire"; "puceron"; "cicadelle"]);
   ("ravageurs_onion", ["thrips"; "mouche"; "chenille"; "nematode"]);
   ("ravageurs_tomato",
    ["aleurode"; "acarien"; "mineuse"; "noctuelle"; "thrips";
     "puceron"; "nematode"]);
   ("symptomes", SATELLITES_symptomes);
   ("etats_feuille_sain",
    ["saine"; "turgescente"; "dressee"; "jeune"; "mature"]);
   ("etats_feuille_malade",
    ["malade"; "fletrie"; "seche"; "cassante"; "mourante"; "morte";
     "chlorotique"; "necrotique"; "brulee"; "decoloree"; "rougie";
     "enroulee"; "tordue"; "froissee"; "tombante"; "aplatie";
     "ratatinee"; "perforee"; "dechiree"; "tachetee"; "striee";
     "marbree"; "poudreuse"; "collante"; "fumagine"; "entoilee";
     "minee"; "senescente"]);
   ("etats_feuille",
    ["turgescente"; "fletrie"; "seche"; "cassante"; "saine"; "malade";
     "mourante"; "morte"; "chlorotique"; "necrotique"; "brulee"; "decoloree";
     "rougie"; "enroulee"; "tordue"; "froissee"; "tombante"; "dressee";
     "aplatie"; "ratatinee"; "perforee"; "dechiree"; "tachetee"; "striee";
     "marbree"; "poudreuse"; "collante"; "fumagine"; "entoilee"; "minee";
     "jeune"; "mature"; "senescente"]);
   ("couleurs_feuille_sain",
    ["vert_fonce"; "vert_clair"; "vert_bleuatre"; "vert_moyen"]);
   ("couleurs_feuille_malade",
    ["vert_jaunatre"; "jaune"; "brun"; "vert_grisatre"]);
   ("couleurs_feuille",
    ["vert_fonce"; "vert_clair"; "jaune"; "brun"; "vert_bleuatre";
     "vert_grisatre"; "vert_jaunatre"; "vert_moyen"]);
   ("formes_feuille",
    ["lineaire_lanceolee"; "composee_imparipennee"; "tubulaire_cylindrique";
     "simple"; "composee"; "simple_tubulaire"]);
   ("textures",
    ["lisse"; "pubescente"; "glanduleuse"; "lisse_cireuse"; "creuse";
     "legerement_rugueuse"]);
   ("nervation",
    ["nervation_parallele"; "nervation_reticulee"; "parallele";
     "reticulee"])].

Definition get_all_valid_terms : list string :=
  HUBS_plantes ++ LINKS_relations ++ List.concat (map snd SATELLITES).

Definition identify_link `{Unidecode} `{Difflib} (lemme : string)
  : outcome (option string) :=
  validate_term lemme LINKS_relations default_cutoff.

(** The loop of [classify_satellite] over the categories that are left;
    [if validated] skips [None] and the empty string. *)
Fixpoint classify_among `{Unidecode} `{Difflib}
    (categories : list (string * list string)) (lemme : string)
  : outcome (option string * option string) :=
  match categories with
  | [] => Returns (None, None)
  | (category, terms) :: rest =>
      match validate_term lemme terms default_cutoff with
      | Returns (Some validated) =>
          if is_empty validated then classify_among rest lemme
          else Returns (Some validated, Some category)
      | Returns None => classify_among rest lemme
      | ValueError => ValueError
      end
  end.

(** [plant_type] is not read. *)
Definition classify_satellite `{Unidecode} `{Difflib} (lemme : string)
    (plant_type : option string)
  : outcome (option string * option string) :=
  classify_among SATELLITES lemme.

(** A term answers a value when one is a substring of the other or when
    the fuzzy matcher finds them close; [close] is the test that
    difflib applies to one possibility. *)
Definition answers `{Unidecode} (close : string -> string -> Q -> bool)
    (value term : string) : bool :=
  partial_match (normalize value) term
  || close (normalize value) term default_cutoff.

End OntologyValidator.

(** ** models/hub.py *)

Module Hub.

Record t := {
  business_key : string;
  entity_type : string;
  record_source : string;
  ontology_uri : string;
  confidence_score : Q;
  load_date : Z;
  hub_key : string
}.

Definition _generate_hub_key `{Hashlib} (business_key entity_type : string)
  : string :=
  md5_hexdigest (business_key +:+ "_" +:+ entity_type).

(** [Hub(business_key=.., entity_type=.., record_source=.., ontology_uri=..,
    confidence_score=..)]: [load_date] is read from the clock and
    [__post_init__] fills [hub_key]. *)
Definition new `{Hashlib} (now : Z)
    (business_key entity_type record_source ontology_uri : string)
    (confidence_score : Q) : t :=
  {| business_key := business_key;
     entity_type := entity_type;
     record_source := record_source;
     ontology_uri := ontology_uri;
     confidence_score := confidence_score;
     load_date := now;
     hub_key := _generate_hub_key business_key entity_type |}.

Definition to_dict `{Formatting} (self : t) : py_value :=
  PyDict
    [("hub_key", PyStr (hub_key self));
     ("business_key", PyStr (business_key self));
     ("entity_type", PyStr (entity_type self));
     ("ontology_uri", PyStr (ontology_uri self));
     ("confidence_score", PyFloat (round4 (confidence_score self)));
     ("load_date", PyStr (isoformat (load_date self)));
     ("record_source", PyStr (record_source self))].

End Hub.

(** ** models/link.py *)

Module Link.

Record t := {
  hub_source_key : string;
  hub_target_key : string;
  relation_type : string;
  record_source : string;
  confidence_score : Q;
  load_date : Z;
  link_key : string
}.

Definition _generate_link_key `{Hashlib}
    (hub_source_key relation_type hub_target_key : string) : string :=
  md5_hexdigest
    (hub_source_key +:+ "_" +:+ relation_type +:+ "_" +:+ hub_target_key).

Definition new `{Hashlib} (now : Z)
    (hub_source_key hub_target_key relation_type record_source : string)
    (confidence_score : Q) : t :=
  {| hub_source_key := hub_source_key;
     hub_target_key := hub_target_key;
     relation_type := relation_type;
     record_source := record_source;
     confidence_score := confidence_score;
     load_date := now;
     link_key :=
       _generate_link_key hub_source_key relation_type hub_target_key |}.

Definition to_dict `{Formatting} (self : t) : py_value :=
  PyDict
    [("link_key", PyStr (link_key self));
     ("hub_source_key", PyStr (hub_source_key self));
     ("hub_target_key", PyStr (hub_target_key self));
     ("relation_type", PyStr (relation_type self));
     ("confidence_score", PyFloat (round4 (confidence_score self)));
     ("load_date", PyStr (isoformat (load_date self)));
     ("record_source", PyStr (record_source self))].

End Link.

(** ** models/satellite.py *)

Module Satellite.

Record t := {
  hub_key : string;
  attribute_name : string;
  attribute_value : string;
  record_source : string;
  confidence_score : Q;
  load_date : Z;
  satellite_key : string;
  hash_diff : string
}.

Definition _generate_satellite_key `{Hashlib} `{Formatting}
    (hub_key attribute_name : string) (load_date : Z) : string :=
  md5_hexdigest
    (hub_key +:+ "_" +:+ attribute_name +:+ "_"
     +:+ float_str (timestamp load_date)).

Definition _generate_hash_diff `{Hashlib} `{Formatting}
    (attribute_name attribute_value : string) (confidence_score : Q)
  : string :=
  md5_hexdigest
    (attribute_name +:+ "_" +:+ attribute_value +:+ "_"
     +:+ float_str confidence_score).

Definition new `{Hashlib} `{Formatting} (now : Z)
    (hub_key attribute_name attribute_value record_source : string)
    (confidence_score : Q) : t :=
  {| hub_key := hub_key;
     attribute_name := attribute_name;
     attribute_value := attribute_value;
     record_source := record_source;
     confidence_score := confidence_score;
     load_date := now;
     satellite_key := _generate_satellite_key hub_key attribute_name now;
     hash_diff :=
       _generate_hash_diff attribute_name attribute_value confidence_score
  |}.

Definition to_dict `{Formatting} (self : t) : py_value :=
  PyDict
    [("satellite_key", PyStr (satellite_key self));
     ("hub_key", PyStr (hub_key self));
     ("attribute_name", PyStr (attribute_name self));
     ("attribute_value", PyStr (attribute_value self));
     ("confidence_score", PyFloat (round4 (confidence_score self)));
     ("load_date", PyStr (isoformat (load_date self)));
     ("record_source", PyStr (record_source self));
     ("hash_diff", PyStr (hash_diff self))].

End Satellite.

(** ** similarity_calculator.py *)

Module SimilarityCalculator.
Import PyStr.

(** The loop of [find_best_match]: the pair [(best_term, best_score)] is
    updated by a candidate whose score is strictly greater than the best
    score so far and at least the threshold. *)
Fixpoint scan `{Scorer} (lemma : string) (threshold : Q)
    (ontology_terms : list string) (best_term : option string)
    (best_score : Q) : option string * Q :=
  match ontology_terms with
  | [] => (best_term, best_score)
  | term :: rest =>
      let score := calculate_similarity lemma term in
      if Qgt_bool score best_score && Qge_bool score threshold
      then scan lemma threshold rest (Some term) score
      else scan lemma threshold rest best_term best_score
  end.

Definition find_best_match `{Scorer} (lemma : string)
    (ontology_terms : list string) (threshold : Q) : option string * Q :=
  match ontology_terms with
  | [] => (None, 0)
  | _ => scan lemma threshold ontology_terms None 0
  end.

(** [batch_similarity] on the CPU (the calculator has no GPU, or its
    strategy is not semantic): a dict from term to score. *)
Definition batch_similarity `{Scorer} (lemma : string)
    (ontology_terms : list string) : list (string * Q) :=
  match ontology_terms with
  | [] => []
  | _ =>
      foldl (fun similarities term =>
               dict_set similarities term (calculate_similarity lemma term))
        [] ontology_terms
  end.

(** A candidate replaces the best score [b] when its score is strictly
    greater than [b] and reaches the threshold. *)
Definition beats `{Scorer} (lemma : string) (threshold b : Q)
    (term : string) : Prop :=
  (b < calculate_similarity lemma term)%Q
  /\ (threshold <= calculate_similarity lemma term)%Q.

(** *** Embeddings and the semantic strategy *)

Definition vector := list Q.

(** [np.zeros(n)] *)
Definition zeros (n : nat) : vector := repeat 0%Q n.

(** What the calculator keeps between calls: the embedding cache, and how
    many requests it has sent to the endpoint so far. *)
Record state := {
  _embedding_cache : gmap string vector;
  requests : nat
}.

(** Outcome of the [try] block of [_get_embedding]: a response with its
    status code and the ["embedding"] entry of its body when there is one,
    or an exception. *)
Inductive post_result :=
| Response (status_code : nat) (embedding : option vector)
| Raised.

(** The embedding endpoint: the answer to the [k]-th request, for a text. *)
Class Ollama := { post_embeddings : nat -> string -> post_result }.

(** The square root behind [np.linalg.norm]. *)
Class NumPy := { np_sqrt : Q -> Q }.

(** The calculator after a request whose answer is not cached. *)
Definition count_request (self : state) : state :=
  {| _embedding_cache := _embedding_cache self;
     requests := S (requests self) |}.

(** A fetch fails when the request raises or answers with a status other
    than 200. *)
Definition fetch_failed (r : post_result) : bool :=
  match r with
  | Response status_code _ => negb (status_code =? 200)%nat
  | Raised => true
  end.

Definition _get_embedding `{Ollama} (text : string) (self : state)
  : vector * state :=
  match _embedding_cache self !! text with
  | Some cached => (cached, self)
  | None =>
      let sent := count_request self in
      match post_embeddings (requests self) text with
      | Response status_code body =>
          if (status_code =? 200)%nat then
            let embedding := default [] body in
            (embedding,
             {| _embedding_cache := <[text := embedding]> (_embedding_cache self);
                requests := S (requests self) |})
          else (zeros 384, sent)
      | Raised => (zeros 384, sent)
      end
  end.

(** [np.dot] of two one-dimensional arrays: an error when their lengths
    differ. *)
Fixpoint np_dot (v1 v2 : vector) : option Q :=
  match v1, v2 with
  | [], [] => Some 0%Q
  | x :: r1, y :: r2 =>
      match np_dot r1 r2 with
      | Some d => Some (x * y + d)%Q
      | None => None
      end
  | _, _ => None
  end.

Definition sum_squares (v : vector) : Q :=
  fold_right (fun x acc => (x * x + acc)%Q) 0%Q v.

(** [np.linalg.norm] *)
Definition np_norm `{NumPy} (v : vector) : Q := np_sqrt (sum_squares v).

(** The branch taken without a GPU; the other branch is the same
    computation on device arrays. [None] is the exception of [np.dot]. *)
Definition _cosine_similarity `{NumPy} (v1 v2 : vector) : option Q :=
  match np_dot v1 v2 with
  | None => None
  | Some dot_product =>
      let norm1 := np_norm v1 in
      let norm2 := np_norm v2 in
      if Qeq_bool norm1 0 || Qeq_bool norm2 0 then Some 0%Q
      else Some (dot_product / (norm1 * norm2))%Q
  end.

Definition _semantic_similarity `{NumPy} `{Ollama} (s1 s2 : string)
    (self : state) : option Q * state :=
  if is_empty s1 || is_empty s2 then (Some 0%Q, self)
  else
    let '(emb1, self1) := _get_embedding s1 self in
    let '(emb2, self2) := _get_embedding s2 self1 in
    match _cosine_similarity emb1 emb2 with
    | None => (None, self2)
    | Some cos_sim => (Some ((cos_sim + 1) / 2)%Q, self2)
    end.

End SimilarityCalculator.

(** ** similarity_calculator.py: normalisation and the strategies *)

Module SimilarityStrategies.
Import PyStr SimilarityCalculator.

(** [jellyfish.jaro_winkler_similarity] *)
Class Jellyfish := { jaro_winkler_similarity : string -> string -> Q }.

(** [s.split()]: the maximal runs of characters that are not white space;
    [current] is the run being read. *)
Fixpoint split_from (current s : string) : list string :=
  match s with
  | EmptyString => if is_empty current then [] else [current]
  | String c r =>
      if isspace c
      then (if is_empty current then split_from "" r
            else current :: split_from "" r)
      else split_from (current +:+ String c "") r
  end.

Definition split (s : string) : list string := split_from "" s.

(** What one character of the input becomes before the white space is
    collapsed: lower case, transliterated, separators turned into spaces. *)
Definition normal_piece `{Unidecode} (c : ascii) : string :=
  replace "-" " "
    (replace "_" " " (Unidec.unidecode (String (lower_char c) ""))).

(** The cache of [lru_cache] does not show in the result. *)
Definition _normalize_cached `{Unidecode} (s : string) : string :=
  let s := lower s in
  let s := Unidec.unidecode s in
  let s := replace "-" " " (replace "_" " " s) in
  strip (String.concat " " (split s)).

Definition _normalize_string `{Unidecode} (s : string) : string :=
  _normalize_cached s.

(** [range(len(padded) - n + 1)] is empty when the bound is not positive. *)
Definition _get_ngrams_cached (text : string) (n : nat) : list string :=
  let padded := "$" +:+ text +:+ "$" in
  map (fun i => String.substring i n padded)
    (seq 0 (String.length padded + 1 - n)).

(** [min(a, b)] and [max(a, b)] of two floats. *)
Definition py_min (a b : Q) : Q := if Qgt_bool a b then b else a.
Definition py_max (a b : Q) : Q := if Qgt_bool b a then b else a.

Definition _lexical_similarity `{Jellyfish} (s1 s2 : string) : Q :=
  if is_empty s1 || is_empty s2 then 0%Q
  else
    let jw_score := jaro_winkler_similarity s1 s2 in
    let jw_score :=
      if (3 <=? String.length s1)%nat && (3 <=? String.length s2)%nat
         && (String.prefix (take 3 s2) s1 || String.prefix (take 3 s1) s2)
      then py_min 1 (jw_score * (11 # 10))
      else jw_score in
    if contains s1 s2 || contains s2 s1
    then py_min 1 (jw_score * (115 # 100))
    else jw_score.

Definition _jaro_winkler_similarity `{Jellyfish} (s1 s2 : string) : Q :=
  if is_empty s1 || is_empty s2 then 0%Q
  else jaro_winkler_similarity s1 s2.

(** [Counter(ngrams).get(ng, 0)] *)
Definition counter_get (ngrams : list string) (ng : string) : nat :=
  List.length (List.filter (String.eqb ng) ngrams).

(** The two vectors are read off the same set, hence in the same order. *)
Definition _cosine_ngram_similarity `{NumPy} `{SetOrder} (s1 s2 : string)
    (n : nat) : option Q :=
  if is_empty s1 || is_empty s2 then Some 0%Q
  else
    let ngrams1 := _get_ngrams_cached s1 n in
    let ngrams2 := _get_ngrams_cached s2 n in
    let all_ngrams : gset string :=
      list_to_set ngrams1 ∪ list_to_set ngrams2 in
    let order := list_of_set all_ngrams in
    let vec1 :=
      map (fun ng => inject_Z (Z.of_nat (counter_get ngrams1 ng))) order in
    let vec2 :=
      map (fun ng => inject_Z (Z.of_nat (counter_get ngrams2 ng))) order in
    _cosine_similarity vec1 vec2.

(** [calculate_similarity] for a calculator whose strategy is [algorithm];
    [None] is an exception that escapes the call. *)
Definition calculate_similarity
    `{Unidecode} `{Jellyfish} `{NumPy} `{Ollama} `{SetOrder}
    (algorithm : string) (lemma ontology_term : string) (self : state)
  : option Q * state :=
  let lemma_norm := _normalize_string lemma in
  let term_norm := _normalize_string ontology_term in
  if String.eqb lemma_norm term_norm then (Some 1%Q, self)
  else if String.eqb algorithm "lexical"
  then (Some (_lexical_similarity lemma_norm term_norm), self)
  else if String.eqb algorithm "semantic"
  then _semantic_similarity lemma ontology_term self
  else if String.eqb algorithm "jaro_winkler"
  then (Some (_jaro_winkler_similarity lemma_norm term_norm), self)
  else if String.eqb algorithm "cosine"
  then (_cosine_ngram_similarity lemma_norm term_norm 2, self)
  else if String.eqb algorithm "jaro_cosine"
  then
    let sim_jw := _jaro_winkler_similarity lemma_norm term_norm in
    match _cosine_ngram_similarity lemma_norm term_norm 2 with
    | Some sim_cos => (Some (py_max sim_jw sim_cos), self)
    | None => (None, self)
    end
  else
    let sim_lex := _lexical_similarity lemma_norm term_norm in
    match _semantic_similarity lemma ontology_term self with
    | (Some sim_sem, self') => (Some (py_max sim_lex sim_sem), self')
    | (None, self') => (None, self')
    end.

(** The strategies that compare characters only. *)
Definition lexical_strategies : list string :=
  ["lexical"; "jaro_winkler"; "cosine"; "jaro_cosine"].

Definition clear_cache (self : state) : state :=
  {| _embedding_cache := ∅; requests := requests self |}.

Definition get_cache_size (self : state) : nat :=
  size (_embedding_cache self).

(** A score between 0 and 1. *)
Definition in_unit_interval (x : Q) : Prop := (0 <= x)%Q /\ (x <= 1)%Q.

End SimilarityStrategies.

(** ** ontology_loader.py: what the matcher reads of a relation *)

Module OntologyLoader.

Record OntologyRelation := {
  lemma : string;
  label_normalized : string
}.

End OntologyLoader.

(** ** ontology_matcher.py *)

Module OntologyMatcher.
Import PyStr.

Definition PLANTES : gset string :=
  list_to_set ["corn"; "onion"; "tomato"; "mais"; "oignon"; "tomate"].

Definition MALADIES : gset string :=
  list_to_set
    ["helminthosporiose"; "rouille"; "fusariose"; "curvulariose"; "striure";
     "virose"; "alternariose"; "mildiou"; "pourriture_blanche"; "bacteriose";
     "bacterial_wilt"; "virus_tylcv"; "stress_abiotique"].

Definition RAVAGEURS : gset string :=
  list_to_set
    ["foreur_tige"; "chenille_legionnaire"; "puceron"; "cicadelle";
     "thrips"; "mouche_oignon"; "chenille"; "nematode";
     "aleurode"; "acarien"; "mineuse"; "noctuelle"].

Definition RELATIONS : gset string :=
  list_to_set ["has_disease"; "has_infestation"; "has_health_status"].

Definition SYMPTOMES : gset string :=
  list_to_set
    ["chlorose"; "necrose"; "fletrissement"; "tache"; "lesion"; "pourriture";
     "deformation"; "mosaique"; "galerie"; "perforation"; "miellat";
     "striure"; "galle"; "nanisme"; "toile"; "morsure"].

Definition ETAT_FOLIAIRE : gset string :=
  list_to_set
    ["saine"; "malade"; "fletrie"; "seche"; "tachetee"; "chlorotique";
     "necrotique"; "perforee"; "enroulee"; "turgescente"; "cassante";
     "mourante"; "morte"; "brulee"; "decoloree"; "rougie"; "tordue";
     "froissee"; "tombante"; "dressee"; "aplatie"; "ratatinee"; "dechiree";
     "striee"; "marbree"; "poudreuse"; "collante"; "fumagine"; "entoilee";
     "minee"; "jeune"; "mature"; "senescente"].

Definition MORPHOLOGIE_COULEUR : gset string :=
  list_to_set
    ["vert_fonce"; "vert_clair"; "vert_jaunatre"; "jaune"; "brun";
     "vert_bleuatre"; "vert_grisatre"; "vert"; "rouge"; "orange"; "noir";
     "blanc"].

Definition MORPHOLOGIE_FORME : gset string :=
  list_to_set
    ["lineaire_lanceolee"; "tubulaire_cylindrique"; "composee_imparipennee";
     "simple"; "composee"; "simple_tubulaire"; "ovale"; "lanceolee"].

Definition MORPHOLOGIE_TEXTURE : gset string :=
  list_to_set
    ["lisse"; "rugueuse"; "cireuse"; "creuse"; "pubescente"; "glanduleuse";
     "lisse_cireuse"; "legerement_rugueuse"].

Definition MORPHOLOGIE_NERVATION : gset string :=
  list_to_set
    ["nervation_parallele"; "nervation_reticulee"; "parallele"; "reticulee"].

(** [x in s] for a set. *)
Definition in_set (x : string) (s : gset string) : bool :=
  bool_decide (x ∈ s).

(** The fields of a matcher that classification reads. The similarity
    calculator it holds is the [Scorer] in scope. *)
Record t := {
  thresholds : gmap string Q;
  hub_vocabulary : gset string;
  link_vocabulary : gset string;
  satellite_vocabulary : gset string;
  satellite_type_map : gmap string string
}.

(** [_enrich_from_ontology]: the relations of the ontology whose lemma
    contains ["has_"] join the link vocabulary. *)
Definition _enrich_from_ontology
    (R : list OntologyLoader.OntologyRelation)
    (link_vocabulary : gset string) : gset string :=
  foldl
    (fun vocabulary relation =>
       let lemma :=
         if is_empty (OntologyLoader.lemma relation)
         then OntologyLoader.label_normalized relation
         else lower (OntologyLoader.lemma relation) in
       if negb (is_empty lemma) && contains "has_" lemma
       then vocabulary ∪ {[ lemma ]}
       else vocabulary)
    link_vocabulary R.

(** [for lemma in terms: mapping[lemma] = label] *)
Definition assign_all (terms : gset string) (label : string)
    (mapping : gmap string string) : gmap string string :=
  set_fold (fun lemma acc => <[lemma := label]> acc) mapping terms.

(** [__init__] with [_build_vocabulary_sets]; [R] are the values of
    [ontology.get_all_relations()]. *)
Definition __init__ (R : list OntologyLoader.OntologyRelation)
    (thresholds : gmap string Q) : t :=
  {| thresholds := thresholds;
     hub_vocabulary := PLANTES ∪ MALADIES ∪ RAVAGEURS;
     link_vocabulary := _enrich_from_ontology R RELATIONS;
     satellite_vocabulary :=
       SYMPTOMES ∪ ETAT_FOLIAIRE ∪ MORPHOLOGIE_COULEUR ∪ MORPHOLOGIE_FORME
       ∪ MORPHOLOGIE_TEXTURE ∪ MORPHOLOGIE_NERVATION;
     satellite_type_map :=
       assign_all MORPHOLOGIE_NERVATION "nervation"
         (assign_all MORPHOLOGIE_TEXTURE "texture"
            (assign_all MORPHOLOGIE_FORME "forme"
               (assign_all MORPHOLOGIE_COULEUR "couleur"
                  (assign_all ETAT_FOLIAIRE "etat_foliaire"
                     (assign_all SYMPTOMES "symptome" ∅))))) |}.

(** The pair returned by [_classify_lemma]: a category with its sub-type,
    or [('unknown', None)]. *)
Inductive classification :=
| hub (sub_type : string)
| link (sub_type : string)
| satellite (sub_type : string)
| unknown.

Definition _classify_lemma (self : t) (lemma : string) : classification :=
  let lemma_lower := strip (lower lemma) in
  if in_set lemma_lower PLANTES then hub "plante"
  else if in_set lemma_lower MALADIES then hub "maladie"
  else if in_set lemma_lower RAVAGEURS then hub "ravageur"
  else if in_set lemma_lower RELATIONS
          || in_set lemma_lower (link_vocabulary self)
       then link "relation"
  else if in_set lemma_lower SYMPTOMES then satellite "symptome"
  else if in_set lemma_lower ETAT_FOLIAIRE then satellite "etat_foliaire"
  else if in_set lemma_lower MORPHOLOGIE_COULEUR then satellite "couleur"
  else if in_set lemma_lower MORPHOLOGIE_FORME then satellite "forme"
  else if in_set lemma_lower MORPHOLOGIE_TEXTURE then satellite "texture"
  else if in_set lemma_lower MORPHOLOGIE_NERVATION then satellite "nervation"
  else unknown.

(** Lemmas recognised by the direct lookups of [_classify_lemma]. *)
Definition is_plant (self : t) (lemma : string) : Prop :=
  _classify_lemma self lemma = hub "plante".

Definition is_problem_of (self : t) (sub_type lemma : string) : Prop :=
  _classify_lemma self lemma = hub sub_type
  /\ (sub_type = "maladie" \/ sub_type = "ravageur").

Definition is_problem (self : t) (lemma : string) : Prop :=
  exists sub_type, is_problem_of self sub_type lemma.

Definition is_relation (self : t) (lemma : string) : Prop :=
  _classify_lemma self lemma = link "relation".

(** [lemma] is the last element of [lemmas] with the property [P]. *)
Definition last_such (P : string -> Prop) (lemmas : list string)
    (lemma : string) : Prop :=
  exists pre post,
    lemmas = pre ++ lemma :: post /\ P lemma
    /\ forall x, In x post -> ~ P x.

Definition _find_best_match `{Scorer} `{SetOrder} (lemma : string)
    (vocabulary : gset string) (threshold : Q) : option string * Q :=
  if bool_decide (vocabulary = ∅) then (None, 0%Q)
  else
    SimilarityCalculator.find_best_match
      (lower lemma) (list_of_set vocabulary) threshold.

Definition ontology_uri_of (term : string) : string :=
  "http://example.org/ontology#" +:+ term.

(** A match that is [None] or the empty string counts as no match. *)
Definition truthy (best : option string) : option string :=
  match best with
  | Some b => if is_empty b then None else Some b
  | None => None
  end.

(** [_classify_unknown_lemma] appends to the two lists it is given;
    [reads] counts the clock reads so far. *)
Definition _classify_unknown_lemma `{Hashlib} `{Clock} `{Scorer} `{SetOrder}
    (self : t) (lemma : string) (hubs_list : list Hub.t)
    (satellites_list : list (string * string)) (image_source : string)
    (reads : nat) : list Hub.t * list (string * string) * nat :=
  let theta_c := default (75 # 100) (thresholds self !! "entities") in
  let theta_a := default (65 # 100) (thresholds self !! "attributes") in
  let '(best_hub, hub_score) :=
    _find_best_match lemma (hub_vocabulary self) theta_c in
  match truthy best_hub with
  | Some best_hub =>
      let entity_type :=
        if in_set best_hub PLANTES then "plante"
        else if in_set best_hub MALADIES then "maladie"
        else "ravageur" in
      let hub :=
        Hub.new (datetime_now reads) (lower lemma) entity_type image_source
          (ontology_uri_of best_hub) hub_score in
      (hubs_list ++ [hub], satellites_list, S reads)
  | None =>
      let '(best_sat, sat_score) :=
        _find_best_match lemma (satellite_vocabulary self) theta_a in
      match truthy best_sat with
      | Some best_sat =>
          let attr_type :=
            default "attribut" (satellite_type_map self !! best_sat) in
          (hubs_list, satellites_list ++ [(lemma, attr_type)], reads)
      | None =>
          if (2 <? String.length lemma)%nat
          then (hubs_list, satellites_list ++ [(lemma, "description")], reads)
          else (hubs_list, satellites_list, reads)
      end
  end.

(** The Hub that phase 1 builds for a lemma found by direct lookup, when
    the clock has been read [k] times. *)
Definition direct_hub `{Hashlib} `{Clock} (image_source : string) (k : nat)
    (lemma sub_type : string) : Hub.t :=
  Hub.new (datetime_now k) (lower lemma) sub_type image_source
    (ontology_uri_of lemma) 1.

(** The local variables of [classify_lemmas] during phase 1. *)
Record locals := {
  hubs_list : list Hub.t;
  satellites_list : list (string * string);
  plante_hub : option Hub.t;
  probleme_hub : option Hub.t;
  relation_lemma : option string;
  clock_reads : nat
}.

(** One iteration of the loop of phase 1. *)
Definition phase1_step `{Hashlib} `{Clock} `{Scorer} `{SetOrder}
    (self : t) (image_source : string) (l : locals) (lemma : string)
  : locals :=
  match _classify_lemma self lemma with
  | hub sub_type =>
      if String.eqb sub_type "plante" then
        let h :=
          Hub.new (datetime_now (clock_reads l)) (lower lemma) "plante"
            image_source (ontology_uri_of lemma) 1 in
        {| hubs_list := hubs_list l ++ [h];
           satellites_list := satellites_list l;
           plante_hub := Some h;
           probleme_hub := probleme_hub l;
           relation_lemma := relation_lemma l;
           clock_reads := S (clock_reads l) |}
      else if mem sub_type ["maladie"; "ravageur"] then
        let h :=
          Hub.new (datetime_now (clock_reads l)) (lower lemma) sub_type
            image_source (ontology_uri_of lemma) 1 in
        {| hubs_list := hubs_list l ++ [h];
           satellites_list := satellites_list l;
           plante_hub := plante_hub l;
           probleme_hub := Some h;
           relation_lemma := relation_lemma l;
           clock_reads := S (clock_reads l) |}
      else l
  | link _ =>
      {| hubs_list := hubs_list l;
         satellites_list := satellites_list l;
         plante_hub := plante_hub l;
         probleme_hub := probleme_hub l;
         relation_lemma := Some (lower lemma);
         clock_reads := clock_reads l |}
  | satellite sub_type =>
      {| hubs_list := hubs_list l;
         satellites_list := satellites_list l ++ [(lemma, sub_type)];
         plante_hub := plante_hub l;
         probleme_hub := probleme_hub l;
         relation_lemma := relation_lemma l;
         clock_reads := clock_reads l |}
  | unknown =>
      let '(hubs, sats, reads) :=
        _classify_unknown_lemma self lemma (hubs_list l) (satellites_list l)
          image_source (clock_reads l) in
      {| hubs_list := hubs;
         satellites_list := sats;
         plante_hub := plante_hub l;
         probleme_hub := probleme_hub l;
         relation_lemma := relation_lemma l;
         clock_reads := reads |}
  end.

Definition phase1 `{Hashlib} `{Clock} `{Scorer} `{SetOrder}
    (self : t) (image_source : string) (lemmas : list string)
    (reads : nat) : locals :=
  foldl (phase1_step self image_source)
    {| hubs_list := []; satellites_list := [];
       plante_hub := None; probleme_hub := None; relation_lemma := None;
       clock_reads := reads |}
    lemmas.

(** What a slot of phase 1 holds after the lemmas [lemmas]: nothing when
    no lemma has the property [P], and otherwise a value that is [good]
    for the last lemma with the property. *)
Definition slot_ok {A} (P : string -> Prop) (good : string -> A -> Prop)
    (lemmas : list string) (slot : option A) : Prop :=
  match slot with
  | None => forall x, In x lemmas -> ~ P x
  | Some a => exists lemma, last_such P lemmas lemma /\ good lemma a
  end.

(** The state of phase 1 after the lemmas [lemmas]. *)
Record phase1_invariant `{Hashlib} `{Clock} (self : t)
    (image_source : string) (lemmas : list string) (l : locals) : Prop := {
  inv_plant :
    slot_ok (is_plant self)
      (fun lemma h => exists k, h = direct_hub image_source k lemma "plante")
      lemmas (plante_hub l);
  inv_problem :
    slot_ok (is_problem self)
      (fun lemma h =>
         exists sub_type k,
           is_problem_of self sub_type lemma
           /\ h = direct_hub image_source k lemma sub_type)
      lemmas (probleme_hub l);
  inv_relation :
    slot_ok (is_relation self) (fun lemma r => r = lower lemma)
      lemmas (relation_lemma l);
  inv_slots :
    forall h, plante_hub l = Some h \/ probleme_hub l = Some h ->
              In h (hubs_list l);
  inv_hubs :
    forall x sub_type,
      In x lemmas -> _classify_lemma self x = hub sub_type ->
      exists k, In (direct_hub image_source k x sub_type) (hubs_list l)
}.

(** The relation type chosen in phase 2. *)
Definition relation_type_for (relation_lemma : option string)
    (probleme_hub : Hub.t) : string :=
  match truthy relation_lemma with
  | Some relation => relation
  | None =>
      if String.eqb (Hub.entity_type probleme_hub) "maladie"
      then "has_disease"
      else if String.eqb (Hub.entity_type probleme_hub) "ravageur"
           then "has_infestation"
           else "has_health_status"
  end.

(** Phase 2: the links, and the number of clock reads after it. *)
Definition phase2 `{Hashlib} `{Clock} (image_source : string) (l : locals)
  : list Link.t * nat :=
  match plante_hub l, probleme_hub l with
  | Some plante, Some probleme =>
      ([Link.new (datetime_now (clock_reads l))
          (Hub.hub_key plante) (Hub.hub_key probleme)
          (relation_type_for (relation_lemma l) probleme)
          image_source 1],
       S (clock_reads l))
  | _, _ => ([], clock_reads l)
  end.

Definition DISEASE_SAT_TYPES : gset string := list_to_set ["symptome"].

(** The parent hub of a satellite in phase 3, when there is one. *)
Definition parent_hub_for (l : locals) (attr_type : string)
  : option Hub.t :=
  if in_set attr_type DISEASE_SAT_TYPES && bool_decide (is_Some (probleme_hub l))
  then probleme_hub l
  else match plante_hub l with
       | Some plante => Some plante
       | None => head (hubs_list l)
       end.

Fixpoint phase3 `{Hashlib} `{Formatting} `{Clock}
    (image_source : string) (l : locals)
    (pending : list (string * string)) (reads : nat) : list Satellite.t :=
  match pending with
  | [] => []
  | (lemma, attr_type) :: rest =>
      match parent_hub_for l attr_type with
      | None => phase3 image_source l rest reads
      | Some parent_hub =>
          Satellite.new (datetime_now reads) (Hub.hub_key parent_hub)
            attr_type (lower lemma) image_source (95 # 100)
          :: phase3 image_source l rest (S reads)
      end
  end.

(** [classify_lemmas(lemmas, image_source)]; [reads] is the number of
    clock reads before the call. *)
Definition classify_lemmas
    `{Hashlib} `{Formatting} `{Clock} `{Scorer} `{SetOrder}
    (self : t) (lemmas : list string) (image_source : string) (reads : nat)
  : list Hub.t * list Link.t * list Satellite.t :=
  let l := phase1 self image_source lemmas reads in
  let '(links_list, reads2) := phase2 image_source l in
  let final_satellites :=
    phase3 image_source l (satellites_list l) reads2 in
  (hubs_list l, links_list, final_satellites).

(** Where a pending pair of phase 1 comes from: a lemma of the input that
    the direct lookup gives this attribute type, or one that it does not
    know. *)
Definition pending_origin (self : t) (lemmas : list string)
    (pair : string * string) : Prop :=
  In pair.1 lemmas
  /\ (_classify_lemma self pair.1 = satellite pair.2
      \/ _classify_lemma self pair.1 = unknown).

End OntologyMatcher.

(** ** datavault_generator.py *)

Module DataVaultGenerator.
Import PyStr.

Record DataVaultSchema := {
  hubs : list Hub.t;
  links : list Link.t;
  satellites : list Satellite.t;
  metadata : list (string * py_value)
}.

(** [DataVaultSchema.to_dict] *)
Definition to_dict `{Formatting} (self : DataVaultSchema) : py_value :=
  PyDict
    [("metadata", PyDict (metadata self));
     ("hubs", PyList (map Hub.to_dict (hubs self)));
     ("links", PyList (map Link.to_dict (links self)));
     ("satellites", PyList (map Satellite.to_dict (satellites self)))].

(** [generate_schema]; [now] is the clock value it reads. *)
Definition generate_schema `{Formatting} (hubs : list Hub.t)
    (links : list Link.t) (satellites : list Satellite.t)
    (source_image : string) (lemmas : list string) (now : Z)
  : DataVaultSchema :=
  {| hubs := hubs;
     links := links;
     satellites := satellites;
     metadata :=
       [("generated_at", PyStr (isoformat now));
        ("source_image", PyStr source_image);
        ("original_lemmas", PyList (map PyStr lemmas));
        ("lemmas_count", PyInt (Z.of_nat (List.length lemmas)));
        ("generator_version", PyStr "1.0.0")] |}.

(** *** Validation

    [validate_schema] receives a reference to a schema object and writes
    to standard output. Its model runs in a state monad over a world made
    of that object and of what has been printed. *)

Inductive printed :=
| Validation_problems (count : nat)
| Problem_line (error : string)
| Schema_valid.

Record world := {
  the_schema : DataVaultSchema;
  stdout : list printed
}.

Definition M (A : Type) : Type := world -> A * world.

Definition ret {A} (a : A) : M A := fun w => (a, w).

Definition bind {A B} (m : M A) (k : A -> M B) : M B :=
  fun w => let '(a, w') := m w in k a w'.

(** Reading an attribute of the schema object. *)
Definition attr {A} (field : DataVaultSchema -> A) : M A :=
  fun w => (field (the_schema w), w).

Definition print (line : printed) : M unit :=
  fun w => (tt, {| the_schema := the_schema w;
                   stdout := stdout w ++ [line] |}).

Notation "'let*' x := m 'in' k" := (bind m (fun x => k))
  (at level 10, x name, m at level 200, k at level 200).
Notation "'run' m 'in' k" := (bind m (fun _ => k))
  (at level 10, m at level 200, k at level 200).

Fixpoint for_each {A} (xs : list A) (body : A -> M unit) : M unit :=
  match xs with
  | [] => ret tt
  | x :: r => run body x in for_each r body
  end.

(** [len(keys) != len(set(keys))] *)
Definition has_duplicates (keys : list string) : bool :=
  negb (List.length keys =? size (list_to_set keys : gset string))%nat.

Definition _check_key_uniqueness : M (list string) :=
  let* hs := attr hubs in
  let hub_keys := map Hub.hub_key hs in
  let errors1 :=
    if has_duplicates hub_keys
    then [u8 "ERREUR: Clés Hub en double détectées"] else [] in
  let* ls := attr links in
  let link_keys := map Link.link_key ls in
  let errors2 :=
    if has_duplicates link_keys
    then errors1 ++ [u8 "ERREUR: Clés Link en double détectées"]
    else errors1 in
  let* ss := attr satellites in
  let satellite_keys := map Satellite.satellite_key ss in
  let errors3 :=
    if has_duplicates satellite_keys
    then errors2 ++ [u8 "ERREUR: Clés Satellite en double détectées"]
    else errors2 in
  ret errors3.

(** The diagnostics of one link, source first. *)
Definition link_integrity (valid_hub_keys : gset string) (link : Link.t)
  : list string :=
  (if bool_decide (Link.hub_source_key link ∈ valid_hub_keys) then []
   else ["WARNING: Link " +:+ take 8 (Link.link_key link) +:+ "... "
         +:+ u8 "référence un Hub source invalide"])
  ++
  (if bool_decide (Link.hub_target_key link ∈ valid_hub_keys) then []
   else ["WARNING: Link " +:+ take 8 (Link.link_key link) +:+ "... "
         +:+ u8 "référence un Hub target invalide"]).

Definition satellite_integrity (valid_hub_keys : gset string)
    (satellite : Satellite.t) : list string :=
  if bool_decide (Satellite.hub_key satellite ∈ valid_hub_keys) then []
  else ["WARNING: Satellite "
        +:+ take 8 (Satellite.satellite_key satellite) +:+ "... "
        +:+ u8 "référence un Hub invalide"].

Definition _check_referential_integrity : M (list string) :=
  let* hs := attr hubs in
  let valid_hub_keys : gset string := list_to_set (map Hub.hub_key hs) in
  let* ls := attr links in
  let errors1 := List.concat (map (link_integrity valid_hub_keys) ls) in
  let* ss := attr satellites in
  let errors2 :=
    errors1 ++ List.concat (map (satellite_integrity valid_hub_keys) ss) in
  ret errors2.

(** [not 0 <= score <= 1] *)
Definition out_of_bounds (score : Q) : bool :=
  negb (Qle_bool 0 score && Qle_bool score 1).

Definition _check_confidence_scores `{Formatting} : M (list string) :=
  let* hs := attr hubs in
  let errors1 :=
    List.concat (map (fun hub =>
      if out_of_bounds (Hub.confidence_score hub)
      then ["WARNING: Hub " +:+ Hub.business_key hub
            +:+ " a un score invalide: "
            +:+ float_str (Hub.confidence_score hub)]
      else []) hs) in
  let* ls := attr links in
  let errors2 :=
    errors1 ++ List.concat (map (fun link =>
      if out_of_bounds (Link.confidence_score link)
      then ["WARNING: Link " +:+ take 8 (Link.link_key link)
            +:+ "... a un score invalide: "
            +:+ float_str (Link.confidence_score link)]
      else []) ls) in
  let* ss := attr satellites in
  let errors3 :=
    errors2 ++ List.concat (map (fun satellite =>
      if out_of_bounds (Satellite.confidence_score satellite)
      then ["WARNING: Satellite " +:+ Satellite.attribute_name satellite
            +:+ " a un score invalide: "
            +:+ float_str (Satellite.confidence_score satellite)]
      else []) ss) in
  ret errors3.

(** The loop of the third constraint: it stops at the first pair already
    seen. *)
Fixpoint duplicate_pair (ls : list Link.t)
    (link_pairs : gset (string * string)) : bool :=
  match ls with
  | [] => false
  | link :: rest =>
      let pair := (Link.hub_source_key link, Link.hub_target_key link) in
      if bool_decide (pair ∈ link_pairs) then true
      else duplicate_pair rest (link_pairs ∪ {[ pair ]})
  end.

Definition _check_structural_constraints : M (list string) :=
  let* hs := attr hubs in
  let num_hubs := List.length hs in
  let* ls := attr links in
  let num_links := List.length ls in
  let errors1 :=
    if (num_hubs =? 0)%nat
    then [u8 "WARNING: Aucun Hub détecté. Au moins une plante devrait être identifiée."]
    else [] in
  let errors2 :=
    if (0 <? num_links)%nat && (num_hubs <? 2)%nat
    then errors1 ++
         ["WARNING: " +:+ pretty num_links
          +:+ u8 " Link(s) détecté(s) mais seulement " +:+ pretty num_hubs
          +:+ u8 " Hub(s). Un Link nécessite 2 Hubs."]
    else errors1 in
  if (1 <? num_links)%nat then
    let* ls' := attr links in
    if duplicate_pair ls' ∅
    then ret (errors2 ++
              [u8 "WARNING: Links en double détectés entre les mêmes Hubs."])
    else ret errors2
  else ret errors2.

Definition validate_schema `{Formatting} : M (list string) :=
  let* errors1 := _check_key_uniqueness in
  let* errors2 := _check_referential_integrity in
  let* errors3 := _check_confidence_scores in
  let* errors4 := _check_structural_constraints in
  let errors := errors1 ++ errors2 ++ errors3 ++ errors4 in
  run (match errors with
       | [] => print Schema_valid
       | _ => run print (Validation_problems (List.length errors)) in
              for_each errors (fun error => print (Problem_line error))
       end) in
  ret errors.

(** A diagnostic of the warning class. *)
Definition is_warning (diagnostic : string) : bool :=
  String.prefix "WARNING" diagnostic.

(** *** Merging *)

(** The lists and the sets of seen keys built by [merge_schemas]. *)
Record merged := {
  merged_hubs : list Hub.t;
  merged_links : list Link.t;
  merged_satellites : list Satellite.t;
  seen_hub_keys : gset string;
  seen_link_keys : gset string;
  seen_satellite_keys : gset string
}.

Definition merge_hub (acc : merged) (hub : Hub.t) : merged :=
  if bool_decide (Hub.hub_key hub ∈ seen_hub_keys acc) then acc
  else {| merged_hubs := merged_hubs acc ++ [hub];
          merged_links := merged_links acc;
          merged_satellites := merged_satellites acc;
          seen_hub_keys := seen_hub_keys acc ∪ {[ Hub.hub_key hub ]};
          seen_link_keys := seen_link_keys acc;
          seen_satellite_keys := seen_satellite_keys acc |}.

Definition merge_link (acc : merged) (link : Link.t) : merged :=
  if bool_decide (Link.link_key link ∈ seen_link_keys acc) then acc
  else {| merged_hubs := merged_hubs acc;
          merged_links := merged_links acc ++ [link];
          merged_satellites := merged_satellites acc;
          seen_hub_keys := seen_hub_keys acc;
          seen_link_keys := seen_link_keys acc ∪ {[ Link.link_key link ]};
          seen_satellite_keys := seen_satellite_keys acc |}.

Definition merge_satellite (acc : merged) (satellite : Satellite.t)
  : merged :=
  {| merged_hubs := merged_hubs acc;
     merged_links := merged_links acc;
     merged_satellites := merged_satellites acc ++ [satellite];
     seen_hub_keys := seen_hub_keys acc;
     seen_link_keys := seen_link_keys acc;
     seen_satellite_keys :=
       seen_satellite_keys acc ∪ {[ Satellite.satellite_key satellite ]} |}.

(** The body of the loop over the schemas. *)
Definition merge_one (acc : merged) (schema : DataVaultSchema) : merged :=
  foldl merge_satellite
    (foldl merge_link
       (foldl merge_hub acc (hubs schema))
       (links schema))
    (satellites schema).

Definition merge_all (schemas : list DataVaultSchema) : merged :=
  foldl merge_one
    {| merged_hubs := []; merged_links := []; merged_satellites := [];
       seen_hub_keys := ∅; seen_link_keys := ∅; seen_satellite_keys := ∅ |}
    schemas.

(** [merge_schemas]; [now] is the clock value it reads. *)
Definition merge_schemas `{Formatting} (schemas : list DataVaultSchema)
    (now : Z) : DataVaultSchema :=
  let acc := merge_all schemas in
  {| hubs := merged_hubs acc;
     links := merged_links acc;
     satellites := merged_satellites acc;
     metadata :=
       [("generated_at", PyStr (isoformat now));
        ("merged_from", PyInt (Z.of_nat (List.length schemas)));
        ("source_images",
         PyList
           (map (fun s =>
                   default (PyStr "unknown")
                     (dict_lookup (metadata s) "source_image"))
              schemas));
        ("generator_version", PyStr "1.0.0")] |}.

(** The first occurrence of every key, in order: what deduplication by key
    with the first occurrence winning means. *)
Fixpoint first_by_key {A} (key : A -> string) (xs : list A) : list A :=
  match xs with
  | [] => []
  | x :: r =>
      x :: List.filter (fun y => negb (String.eqb (key y) (key x)))
             (first_by_key key r)
  end.

(** One step of deduplication by key on a list with the set of its keys:
    the shape shared by the loops over hubs and over links. *)
Definition keep_first {A} (key : A -> string)
    (acc : list A * gset string) (x : A) : list A * gset string :=
  if bool_decide (key x ∈ acc.2) then acc
  else (acc.1 ++ [x], acc.2 ∪ {[ key x ]}).

(** [acc] is what deduplication has built once the elements [all] have been
    seen: the first occurrence of every key, and the set of the keys. *)
Definition tracks {A} (key : A -> string) (acc : list A * gset string)
    (all : list A) : Prop :=
  acc.1 = first_by_key key all /\ forall k, k ∈ acc.2 <-> In k (map key all).

(** The elements with a given key, and how many there are. *)
Definition with_key {A} (key : A -> string) (k : string) (x : A) : bool :=
  String.eqb (key x) k.

Definition count_key {A} (key : A -> string) (k : string) (xs : list A)
  : nat :=
  List.length (List.filter (with_key key k) xs).

Definition hub_view (acc : merged) : list Hub.t * gset string :=
  (merged_hubs acc, seen_hub_keys acc).

Definition link_view (acc : merged) : list Link.t * gset string :=
  (merged_links acc, seen_link_keys acc).

(** A computation that leaves the whole world as it found it. *)
Definition silent {A} (m : M A) : Prop := forall w, snd (m w) = w.

(** The diagnostics of the referential integrity check for a schema. *)
Definition referential_diagnostics (s : DataVaultSchema) : list string :=
  let valid_hub_keys : gset string := list_to_set (map Hub.hub_key (hubs s)) in
  List.concat (map (link_integrity valid_hub_keys) (links s))
  ++ List.concat (map (satellite_integrity valid_hub_keys) (satellites s)).

(** A computation that leaves the schema object as it found it. *)
Definition preserves {A} (m : M A) : Prop :=
  forall w, the_schema (snd (m w)) = the_schema w.

(** The hubs that are a given entity. *)
Definition same_entity (business_key entity_type : string) (h : Hub.t)
  : bool :=
  String.eqb (Hub.business_key h) business_key
  && String.eqb (Hub.entity_type h) entity_type.

(** The pair of Hubs a Link joins. *)
Definition link_pair (link : Link.t) : string * string :=
  (Link.hub_source_key link, Link.hub_target_key link).

(** A score that the confidence check accepts. *)
Definition valid_score (score : Q) : Prop := (0 <= score)%Q /\ (score <= 1)%Q.

(** A schema on which none of the four checks has anything to say: keys
    are distinct, every reference is the key of a Hub, scores lie between
    0 and 1, there is a Hub, there are two Hubs when there is a Link, and
    no two Links join the same ordered pair of Hubs. *)
Record well_formed (s : DataVaultSchema) : Prop := {
  hub_keys_distinct : NoDup (map Hub.hub_key (hubs s));
  link_keys_distinct : NoDup (map Link.link_key (links s));
  satellite_keys_distinct :
    NoDup (map Satellite.satellite_key (satellites s));
  link_sources_resolve :
    forall link, In link (links s) ->
      In (Link.hub_source_key link) (map Hub.hub_key (hubs s));
  link_targets_resolve :
    forall link, In link (links s) ->
      In (Link.hub_target_key link) (map Hub.hub_key (hubs s));
  satellite_parents_resolve :
    forall satellite, In satellite (satellites s) ->
      In (Satellite.hub_key satellite) (map Hub.hub_key (hubs s));
  hub_scores_valid :
    forall hub, In hub (hubs s) -> valid_score (Hub.confidence_score hub);
  link_scores_valid :
    forall link, In link (links s) ->
      valid_score (Link.confidence_score link);
  satellite_scores_valid :
    forall satellite, In satellite (satellites s) ->
      valid_score (Satellite.confidence_score satellite);
  some_hub : hubs s <> [];
  links_have_two_hubs :
    links s <> [] -> (2 <= List.length (hubs s))%nat;
  link_pairs_distinct : NoDup (map link_pair (links s))
}.

(** The lines that announce a list of diagnostics on standard output. *)
Definition report (errors : list string) : list printed :=
  match errors with
  | [] => [Schema_valid]
  | _ => Validation_problems (List.length errors) :: map Problem_line errors
  end.

(** A diagnostic of the error class. *)
Definition is_error (diagnostic : string) : bool :=
  String.prefix "ERREUR" diagnostic.

(** *** Statistics *)

(** [d[key] = d.get(key, 0) + 1] *)
Definition count_one (d : list (string * nat)) (key : string)
  : list (string * nat) :=
  dict_set d key (default 0%nat (dict_lookup d key) + 1)%nat.

(** The three counting loops of [get_statistics]. *)
Definition count_by {A} (name : A -> string) (xs : list A)
  : list (string * nat) :=
  foldl (fun d x => count_one d (name x)) [] xs.

(** [sum(scores)]: from 0, from left to right. *)
Definition py_sum (scores : list Q) : Q := foldl Qplus 0%Q scores.

(** [sum(scores) / len(scores) if scores else 0] *)
Definition average (scores : list Q) : Q :=
  match scores with
  | [] => 0%Q
  | _ => (py_sum scores / inject_Z (Z.of_nat (List.length scores)))%Q
  end.

(** [round(x, ndigits)]: the nearest multiple of [10 ** -ndigits], a tie
    going to the even one. *)
Definition py_round (x : Q) (ndigits : nat) : Q :=
  let scale := (10 ^ Z.of_nat ndigits)%Z in
  let scaled := (x * inject_Z scale)%Q in
  let below := Qfloor scaled in
  let rest := (scaled - inject_Z below)%Q in
  let units :=
    if Qgt_bool rest (1 # 2) then (below + 1)%Z
    else if Qeq_bool rest (1 # 2)
         then (if Z.even below then below else (below + 1)%Z)
         else below in
  Qmake units (Z.to_pos scale).

(** The dictionary returned by [get_statistics], one field per key; the
    three averages are the items of its [average_confidence] entry. *)
Record statistics := {
  total_hubs : nat;
  total_links : nat;
  total_satellites : nat;
  entity_types : list (string * nat);
  relation_types : list (string * nat);
  attribute_names : list (string * nat);
  average_confidence_hubs : Q;
  average_confidence_links : Q;
  average_confidence_satellites : Q
}.

(** [DataVaultSchema.get_statistics] *)
Definition get_statistics (self : DataVaultSchema) : statistics :=
  let entity_types := count_by Hub.entity_type (hubs self) in
  let relation_types := count_by Link.relation_type (links self) in
  let attribute_names :=
    count_by Satellite.attribute_name (satellites self) in
  let avg_hub_score := average (map Hub.confidence_score (hubs self)) in
  let avg_link_score := average (map Link.confidence_score (links self)) in
  let avg_sat_score :=
    average (map Satellite.confidence_score (satellites self)) in
  {| total_hubs := List.length (hubs self);
     total_links := List.length (links self);
     total_satellites := List.length (satellites self);
     entity_types := entity_types;
     relation_types := relation_types;
     attribute_names := attribute_names;
     average_confidence_hubs := py_round avg_hub_score 3;
     average_confidence_links := py_round avg_link_score 3;
     average_confidence_satellites := py_round avg_sat_score 3 |}.

(** The number of elements with a given name, and the sum of the counts
    of a dict. *)
Definition occurrences {A} (name : A -> string) (k : string) (xs : list A)
  : nat :=
  List.length (List.filter (fun x => String.eqb (name x) k) xs).

Definition total_count (d : list (string * nat)) : nat :=
  foldr (fun item n => (item.2 + n)%nat) 0%nat d.

End DataVaultGenerator.

(** ** exporters/sql_exporter.py *)

Module SQLExporter.
Import PyStr.

(** [_escape_sql] *)
Definition _escape_sql (value : string) : string :=
  replace_by "'" "''" value.

(** A value as the INSERT statements write it: escaped, between quotes. *)
Definition quoted (value : string) : string :=
  "'" +:+ _escape_sql value +:+ "'".

(** How a string constant of standard SQL is read once its opening quote
    is behind: two quotes in a row stand for one quote, a single quote
    closes the constant. The answer is the value and what follows the
    closing quote; [None] when the constant is not closed. *)
Fixpoint read_constant (s : string) : option (string * string) :=
  match s with
  | EmptyString => None
  | String c r =>
      if Ascii.eqb c "'"
      then match r with
           | String c' r' =>
               if Ascii.eqb c' "'"
               then match read_constant r' with
                    | Some (value, rest) => Some (String "'" value, rest)
                    | None => None
                    end
               else Some (EmptyString, r)
           | EmptyString => Some (EmptyString, EmptyString)
           end
      else match read_constant r with
           | Some (value, rest) => Some (String c value, rest)
           | None => None
           end
  end.

(** The number of quotes of a string. *)
Fixpoint quotes (s : string) : nat :=
  match s with
  | EmptyString => 0
  | String c r => (if Ascii.eqb c "'" then 1 else 0) + quotes r
  end.

End SQLExporter.

(** ** Sample implementations of the interfaces

    Closed examples need the interfaces filled in. These are small stand-ins
    with the right types, not the libraries themselves. *)

Module Sample.
Import PyStr.

(** The accented letters U+00C0..U+00FF lose their accent; nothing else
    is transliterated. *)
Definition latin1_letter (c : ascii) : string :=
  let n := nat_of_ascii c in
  let pick (s : string) (i : nat) : string := String.substring i 1 s in
  if ((192 <=? n) && (n <=? 222))%nat
  then pick "AAAAAAACEEEEIIIIDNOOOOOxOUUUUYT" (n - 192)%nat
  else if ((224 <=? n) && (n <=? 255))%nat
       then pick "aaaaaaaceeeeiiiidnooooo/ouuuuyty" (n - 224)%nat
       else "".

Definition unidecode_latin1 : Unidecode := {| translit := latin1_letter |}.

(** A fuzzy matcher that never proposes anything. *)
Definition no_close_matches : Difflib :=
  {| best_matches := fun _ _ _ _ => [] |}.

(** A hash that returns its input. *)
Definition plain_keys : Hashlib := {| md5_hexdigest := fun s => s |}.

Definition plain_formatting : Formatting :=
  {| float_str := fun x => pretty (Qnum x) +:+ "/" +:+ pretty (Zpos (Qden x));
     isoformat := fun d => pretty d |}.

(** A clock that advances by one microsecond per read. *)
Definition ticking_clock : Clock := {| datetime_now := fun k => Z.of_nat k |}.

Fixpoint common_prefix_length (a b : string) : nat :=
  match a, b with
  | String x a', String y b' =>
      if Ascii.eqb x y then S (common_prefix_length a' b') else 0%nat
  | _, _ => 0%nat
  end.

(** Twice the length of the common prefix over the total length. *)
Definition prefix_scorer : Scorer :=
  {| calculate_similarity := fun a b =>
       Qmake (Z.of_nat (2 * common_prefix_length a b))
             (Pos.of_nat (String.length a + String.length b)) |}.

Definition elements_order : SetOrder := {| list_of_set := elements |}.

(** A square root truncated to six decimals. *)
Definition sqrt_6_digits : SimilarityCalculator.NumPy :=
  {| SimilarityCalculator.np_sqrt := fun x =>
       Qmake (Z.sqrt (Qnum x * 1000000000000 / Zpos (Qden x))) 1000000 |}.

(** An endpoint that fails for the text ["a"] and answers every other
    text with the first unit vector of dimension 384. *)
Definition endpoint_down_for_a : SimilarityCalculator.Ollama :=
  {| SimilarityCalculator.post_embeddings := fun _ text =>
       if String.eqb text "a" then SimilarityCalculator.Raised
       else SimilarityCalculator.Response 200
              (Some (1%Q :: SimilarityCalculator.zeros 383)) |}.

(** An endpoint that is down for the first request only. *)
Definition endpoint_down_once : SimilarityCalculator.Ollama :=
  {| SimilarityCalculator.post_embeddings := fun k _ =>
       match k with
       | O => SimilarityCalculator.Raised
       | S _ => SimilarityCalculator.Response 200 (Some [1%Q; 0%Q])
       end |}.

(** The prefix ratio in the place of Jaro-Winkler. *)
Definition prefix_jaro : SimilarityStrategies.Jellyfish :=
  {| SimilarityStrategies.jaro_winkler_similarity :=
       @calculate_similarity prefix_scorer |}.

(** A calculator that knows equal strings only. *)
Definition exact_scorer : Scorer :=
  {| calculate_similarity := fun a b =>
       if String.eqb a b then 1%Q else 0%Q |}.

(** A matcher built without ontology relations and with the default
    thresholds, run with the stand-ins above. *)
Definition classify (lemmas : list string)
  : list Hub.t * list Link.t * list Satellite.t :=
  @OntologyMatcher.classify_lemmas plain_keys plain_formatting
    ticking_clock prefix_scorer elements_order
    (OntologyMatcher.__init__ [] ∅) lemmas "img1.jpg" 0.

(** A Hub for a disease or a pest. *)
Definition is_problem_hub (h : Hub.t) : bool :=
  mem (Hub.entity_type h) ["maladie"; "ravageur"].

(** Two schemas for two images of the same plant: each holds a Hub for
    [corn] of type [plante] and one Satellite. *)
Definition corn_schema (now : Z) (color : string)
  : DataVaultGenerator.DataVaultSchema :=
  let corn :=
    @Hub.new plain_keys now "corn" "plante" "img1.jpg"
      "http://example.org/ontology#corn" 1 in
  @DataVaultGenerator.generate_schema plain_formatting
    [corn] []
    [@Satellite.new plain_keys plain_formatting (now + 1) (Hub.hub_key corn)
       "couleur" color "img1.jpg" (95 # 100)]
    "img1.jpg" ["corn"; color] (now + 2).

(** A schema with one Link between two Hubs that are not there. *)
Definition dangling_schema : DataVaultGenerator.DataVaultSchema :=
  {| DataVaultGenerator.hubs := [];
     DataVaultGenerator.links :=
       [@Link.new plain_keys 0 "corn_plante" "rouille_maladie"
          "has_disease" "img1.jpg" 1];
     DataVaultGenerator.satellites := [];
     DataVaultGenerator.metadata := [] |}.

(** Two strings are close when they have the same length. *)
Definition same_length (word term : string) (cutoff : Q) : bool :=
  (String.length term =? String.length word)%nat.

(** A fuzzy matcher that proposes the first possibilities of the length
    of the word. *)
Definition same_length_matches : Difflib :=
  {| best_matches := fun word possibilities n cutoff =>
       firstn n
         (List.filter (fun term => same_length word term cutoff)
            possibilities) |}.

End Sample.

(** * Properties *)

(** ** Similarity calculator *)

Section FindBestMatch.
Import SimilarityCalculator.
Context `{Scorer}.
Variable lemma : string.
Variable threshold : Q.

Local Abbreviation score := (calculate_similarity lemma).
Local Abbreviation beats := (SimilarityCalculator.beats lemma threshold).

Lemma beats_test (b : Q) (term : string) :
  Qgt_bool (score term) b && Qge_bool (score term) threshold = true
  <-> beats b term.
Proof.
  unfold SimilarityCalculator.beats, Qgt_bool, Qge_bool.
  rewrite andb_true_iff, negb_true_iff, Qle_bool_iff.
  split; intros [Hgt Hge]; split; trivial.
  - apply Qnot_le_lt. intros Hle. apply Qle_bool_iff in Hle. congruence.
  - destruct (Qle_bool (score term) b) eqn:E; trivial.
    apply Qle_bool_iff in E. exfalso. exact (Qlt_not_le _ _ Hgt E).
Qed.

(** What the loop returns from any starting pair: the starting pair when
    no candidate beats it, and otherwise the first candidate of maximal
    score. *)
Lemma scan_spec (terms : list string) :
  forall (best_term : option string) (best_score : Q),
    (scan lemma threshold terms best_term best_score = (best_term, best_score)
     /\ forall t, In t terms -> ~ beats best_score t)
    \/ (exists pre best post,
           terms = pre ++ best :: post
           /\ scan lemma threshold terms best_term best_score
              = (Some best, score best)
           /\ beats best_score best
           /\ (forall t, In t pre -> (score t < score best)%Q)
           /\ (forall t, In t post -> (score t <= score best)%Q)).
Proof.
  induction terms as [|term rest IH]; intros best_term best_score.
  - left. split; [reflexivity | intros t []].
  - cbn [scan].
    destruct (Qgt_bool (score term) best_score
              && Qge_bool (score term) threshold) eqn:E.
    + apply beats_test in E. destruct E as [E1 E2].
      destruct (IH (Some term) (score term))
        as [[Hr Hnone]
           | (pre & best & post & -> & Hr & [Hb1 Hb2] & Hpre & Hpost)].
      * right. exists [], term, rest.
        split; [reflexivity|]. split; [exact Hr|].
        split; [split; assumption|]. split; [intros t []|].
        intros t Ht. apply Qnot_lt_le. intros Hlt.
        apply (Hnone t Ht). split; [exact Hlt|].
        apply Qlt_le_weak in Hlt. exact (Qle_trans _ _ _ E2 Hlt).
      * right. exists (term :: pre), best, post.
        split; [reflexivity|]. split; [exact Hr|].
        split; [split; [exact (Qlt_trans _ _ _ E1 Hb1) | exact Hb2]|].
        split; [|exact Hpost].
        intros t [<- | Ht]; [exact Hb1 | exact (Hpre t Ht)].
    + assert (Hno : ~ beats best_score term).
      { intros Hb. apply beats_test in Hb. congruence. }
      destruct (IH best_term best_score)
        as [[Hr Hnone]
           | (pre & best & post & -> & Hr & [Hb1 Hb2] & Hpre & Hpost)].
      * left. split; [exact Hr|].
        intros t [<- | Ht]; [exact Hno | exact (Hnone t Ht)].
      * right. exists (term :: pre), best, post.
        split; [reflexivity|]. split; [exact Hr|].
        split; [split; assumption|]. split; [|exact Hpost].
        intros t [<- | Ht]; [|exact (Hpre t Ht)].
        apply Qnot_le_lt. intros Hle. apply Hno. split.
        -- exact (Qlt_le_trans _ _ _ Hb1 Hle).
        -- exact (Qle_trans _ _ _ Hb2 Hle).
Qed.


End FindBestMatch.


Section SemanticSimilarity.
Import PyStr SimilarityCalculator.
Context `{NumPy} `{Ollama}.

Lemma np_dot_defined (v1 : vector) :
  forall v2, List.length v1 = List.length v2 ->
             exists d, np_dot v1 v2 = Some d.
Proof.
  induction v1 as [|x r1 IH]; intros [|y r2] Hlen; try discriminate.
  - exists 0%Q. reflexivity.
  - injection Hlen as Hlen. destruct (IH r2 Hlen) as [d Hd].
    exists (x * y + d)%Q. cbn [np_dot]. rewrite Hd. reflexivity.
Qed.

(** A failed fetch returns 384 zeros and caches nothing. *)
Lemma failed_fetch_zero_vector (text : string) (self : state) :
  _embedding_cache self !! text = None ->
  fetch_failed (post_embeddings (requests self) text) = true ->
  _get_embedding text self = (zeros 384, count_request self).
Proof.
  intros Hcache Hfail. unfold _get_embedding. rewrite Hcache.
  destruct (post_embeddings (requests self) text) as [code body|];
    [|reflexivity].
  cbn [fetch_failed] in Hfail. apply negb_true_iff in Hfail.
  rewrite Hfail. reflexivity.
Qed.

(** The cosine of the zero vector with a vector of its length is [0.0]
    through the guard on the norms. *)
Lemma cosine_zero_vector (v2 : vector) :
  (np_sqrt 0 == 0)%Q ->
  List.length v2 = 384%nat ->
  _cosine_similarity (zeros 384) v2 = Some 0%Q.
Proof.
  intros Hsqrt Hlen. unfold _cosine_similarity.
  destruct (np_dot_defined (zeros 384) v2) as [d Hd].
  { rewrite Hlen. unfold zeros. apply repeat_length. }
  rewrite Hd. unfold np_norm at 1.
  replace (sum_squares (zeros 384)) with 0%Q by (vm_compute; reflexivity).
  apply Qeq_bool_iff in Hsqrt. rewrite Hsqrt. reflexivity.
Qed.

(** Two failed fetches in a row: both embeddings are the zero vector and
    the similarity is [0.5]. *)
Lemma semantic_similarity_two_failed_fetches
    (s1 s2 : string) (self : state) :
  (np_sqrt 0 == 0)%Q ->
  is_empty s1 = false -> is_empty s2 = false ->
  _embedding_cache self !! s1 = None ->
  _embedding_cache self !! s2 = None ->
  fetch_failed (post_embeddings (requests self) s1) = true ->
  fetch_failed (post_embeddings (S (requests self)) s2) = true ->
  fst (_semantic_similarity s1 s2 self) = Some (1 # 2).
Proof.
  intros Hsqrt Hs1 Hs2 Hc1 Hc2 Hf1 Hf2.
  unfold _semantic_similarity. rewrite Hs1, Hs2. cbn [orb].
  rewrite (failed_fetch_zero_vector s1 self Hc1 Hf1).
  rewrite (failed_fetch_zero_vector s2 (count_request self) Hc2 Hf2).
  rewrite (cosine_zero_vector (zeros 384) Hsqrt) by reflexivity.
  reflexivity.
Qed.

(** C4, as amended. When the fetch of the embedding of [s1] fails, that
    embedding is the zero vector of dimension 384, and the semantic
    similarity of [s1] and any non-empty [s2] whose embedding has 384
    components is [0.5], whether that embedding is zero or not. *)
Theorem semantic_similarity_after_failed_fetch
    (s1 s2 : string) (self self2 : state) (emb2 : vector) :
  (np_sqrt 0 == 0)%Q ->
  is_empty s1 = false -> is_empty s2 = false ->
  _embedding_cache self !! s1 = None ->
  fetch_failed (post_embeddings (requests self) s1) = true ->
  _get_embedding s2 (count_request self) = (emb2, self2) ->
  List.length emb2 = 384%nat ->
  _get_embedding s1 self = (zeros 384, count_request self)
  /\ _semantic_similarity s1 s2 self = (Some (1 # 2), self2).
Proof.
  intros Hsqrt Hs1 Hs2 Hcache Hfail Hemb2 Hlen.
  pose proof (failed_fetch_zero_vector s1 self Hcache Hfail) as Hemb1.
  split; [exact Hemb1|].
  unfold _semantic_similarity. rewrite Hs1, Hs2. cbn [orb].
  rewrite Hemb1, Hemb2, (cosine_zero_vector emb2 Hsqrt Hlen).
  reflexivity.
Qed.

End SemanticSimilarity.

(** C4, witness: the endpoint fails for ["a"] and for nothing else. *)
Lemma semantic_similarity_after_failed_fetch_witness :
  let start :=
    {| SimilarityCalculator._embedding_cache := ∅;
       SimilarityCalculator.requests := 0 |} in
  @SimilarityCalculator._get_embedding Sample.endpoint_down_for_a "a" start
  = (SimilarityCalculator.zeros 384,
     SimilarityCalculator.count_request start)
  /\ fst (@SimilarityCalculator._semantic_similarity Sample.sqrt_6_digits
            Sample.endpoint_down_for_a "a" "b" start)
     = Some (1 # 2).
Proof.
  intros start.
  destruct (@semantic_similarity_after_failed_fetch
              Sample.sqrt_6_digits Sample.endpoint_down_for_a "a" "b" start
              (snd (@SimilarityCalculator._get_embedding
                      Sample.endpoint_down_for_a "b"
                      (SimilarityCalculator.count_request start)))
              (1%Q :: SimilarityCalculator.zeros 383))
    as [Hemb Hsim].
  - reflexivity.
  - reflexivity.
  - reflexivity.
  - reflexivity.
  - reflexivity.
  - reflexivity.
  - reflexivity.
  - split; [exact Hemb|]. rewrite Hsim. reflexivity.
Defined.

(** C4, counterexample. The embedding of ["a"] is the zero vector after a
    failed fetch, the embedding of ["b"] is not the zero vector, and their
    semantic similarity is [0.5], which is not [0]. *)
Lemma zero_vector_against_nonzero_is_half :
  let start :=
    {| SimilarityCalculator._embedding_cache := ∅;
       SimilarityCalculator.requests := 0 |} in
  fst (@SimilarityCalculator._get_embedding Sample.endpoint_down_for_a
         "a" start)
  = SimilarityCalculator.zeros 384
  /\ fst (@SimilarityCalculator._get_embedding Sample.endpoint_down_for_a
            "b" (SimilarityCalculator.count_request start))
     <> SimilarityCalculator.zeros 384
  /\ fst (@SimilarityCalculator._semantic_similarity Sample.sqrt_6_digits
            Sample.endpoint_down_for_a "a" "b" start)
     = Some (1 # 2)
  /\ ~ (1 # 2 == 0)%Q.
Proof.
  intros start. split; [|split; [|split]].
  - reflexivity.
  - vm_compute. discriminate.
  - vm_compute. reflexivity.
  - discriminate.
Qed.

(** ** Ontology validator *)

(** The two normalisations of ["maïs"], once the accented letter is
    transliterated into ["i"]. *)
Lemma unidecode_mais (U : Unidecode) :
  translit "239"%char = "i" ->
  Unidec.unidecode (PyStr.lower (PyStr.u8 "maïs")) = "mais"
  /\ OntologyValidator.normalize (PyStr.u8 "maïs") = "mais".
Proof.
  destruct U as [table]. cbn [translit]. intros Hi.
  split; vm_compute; rewrite Hi; reflexivity.
Qed.

Section ValidateTerm.
Import PyStr OntologyValidator.
Context `{Unidecode} `{Difflib}.

Lemma mem_In (x : string) (xs : list string) : mem x xs = true <-> In x xs.
Proof.
  unfold mem. rewrite existsb_exists. split.
  - intros (y & Hy & Heq). apply String.eqb_eq in Heq. subst. exact Hy.
  - intros Hin. exists x. split; [exact Hin | apply String.eqb_refl].
Qed.

(** [find] returns the first element that passes the test. *)
Lemma find_first {A} (test : A -> bool) (xs : list A) :
  (find test xs = None /\ forall x, In x xs -> test x = false)
  \/ (exists pre x post,
         xs = pre ++ x :: post /\ find test xs = Some x
         /\ test x = true /\ forall y, In y pre -> test y = false).
Proof.
  induction xs as [|a r IH].
  - left. split; [reflexivity | intros x []].
  - cbn [find]. destruct (test a) eqn:Ea.
    + right. exists [], a, r. repeat split; trivial. intros y [].
    + destruct IH as [[Hnone Hall] | (pre & x & post & -> & Hf & Hx & Hpre)].
      * left. split; [exact Hnone|]. intros x [<- | Hx]; auto.
      * right. exists (a :: pre), x, post. repeat split; trivial.
        intros y [<- | Hy]; auto.
Qed.

Lemma normalize_necrose_severe :
  normalize "necrose_severe" = "necrose_severe".
Proof. reflexivity. Qed.

(** [get_close_matches] with [n = 1]: the ranking for a cutoff between 0
    and 1, [ValueError] for any other cutoff. *)
Lemma get_close_matches_one (word : string) (possibilities : list string)
    (cutoff : Q) :
  ((0 <= cutoff)%Q /\ (cutoff <= 1)%Q
   /\ get_close_matches word possibilities 1 cutoff
      = Returns (best_matches word possibilities 1 cutoff))
  \/ (~ ((0 <= cutoff)%Q /\ (cutoff <= 1)%Q)
      /\ get_close_matches word possibilities 1 cutoff = ValueError).
Proof.
  unfold get_close_matches. cbn [Nat.ltb Nat.leb negb].
  destruct (Qle_bool 0 cutoff && Qle_bool cutoff 1) eqn:E; cbn [negb].
  - left. apply andb_true_iff in E. destruct E as [E0 E1].
    apply Qle_bool_iff in E0, E1. auto.
  - right. split; [|reflexivity]. intros [Hlo Hhi].
    apply Qle_bool_iff in Hlo, Hhi. rewrite Hlo, Hhi in E. discriminate.
Qed.

(** C6, as amended. [validate_term] answers [None] to the empty string.
    For any other input it normalises the input and answers with the
    normalised input when it is one of the terms; else with the first
    term, in list order, such that one of the two strings is a substring
    of the other; else, when the cutoff lies between 0 and 1, with the
    first close match that difflib proposes under the cutoff, or with
    [None] when it proposes none; else, for a cutoff outside that range,
    the [ValueError] of difflib escapes. For ["necrose_severe"] and the
    symptom category the answer is ["necrose"], found by the substring
    step; and whenever a category contains ["necrose"] the answer for
    ["necrose_severe"] is found before the fuzzy step, whatever the
    cutoff. *)
Theorem validate_term_ladder
    (value : string) (valid_terms : list string) (cutoff : Q) :
  let v := normalize value in
  let answer := validate_term value valid_terms cutoff in
  ((value = "" /\ answer = Returns None)
   \/ (value <> "" /\ In v valid_terms /\ answer = Returns (Some v))
   \/ (value <> "" /\ ~ In v valid_terms
       /\ exists pre term post,
           valid_terms = pre ++ term :: post
           /\ partial_match v term = true
           /\ (forall t, In t pre -> partial_match v t = false)
           /\ answer = Returns (Some term))
   \/ (value <> "" /\ ~ In v valid_terms
       /\ (forall t, In t valid_terms -> partial_match v t = false)
       /\ (0 <= cutoff)%Q /\ (cutoff <= 1)%Q
       /\ answer = Returns (hd_error (best_matches v valid_terms 1 cutoff)))
   \/ (value <> "" /\ ~ In v valid_terms
       /\ (forall t, In t valid_terms -> partial_match v t = false)
       /\ ~ ((0 <= cutoff)%Q /\ (cutoff <= 1)%Q)
       /\ answer = ValueError))
  /\ (validate_term "necrose_severe" SATELLITES_symptomes cutoff
      = Returns (Some "necrose")
      /\ mem "necrose_severe" SATELLITES_symptomes = false
      /\ find (partial_match "necrose_severe") SATELLITES_symptomes
         = Some "necrose")
  /\ (forall terms,
        In "necrose" terms ->
        exists term,
          validate_term "necrose_severe" terms cutoff = Returns (Some term)
          /\ In term terms
          /\ (term = "necrose_severe"
              \/ find (partial_match "necrose_severe") terms = Some term)).
Proof.
  intros v answer. split; [|split].
  - subst answer. unfold validate_term. destruct value as [|c value'].
    + left. split; reflexivity.
    + right. cbn [is_empty]. fold v.
      assert (Hne : String c value' <> "") by discriminate.
      destruct (mem v valid_terms) eqn:Hmem.
      * left. apply mem_In in Hmem. auto.
      * right.
        assert (Hnotin : ~ In v valid_terms).
        { intros Hin. apply mem_In in Hin. congruence. }
        destruct (find_first (partial_match v) valid_terms)
          as [[Hnone Hall] | (pre & x & post & Heq & Hf & Hx & Hpre)].
        -- right. rewrite Hnone.
           destruct (get_close_matches_one v valid_terms cutoff)
             as [(Hlo & Hhi & ->) | (Hout & ->)].
           ++ left. split; [exact Hne|]. split; [exact Hnotin|].
              split; [exact Hall|]. split; [exact Hlo|]. split; [exact Hhi|].
              destruct (best_matches v valid_terms 1 cutoff); reflexivity.
           ++ right. repeat split; trivial.
        -- left. rewrite Hf. repeat split; trivial.
           exists pre, x, post. auto.
  - repeat split; reflexivity.
  - intros terms Hin. unfold validate_term. cbn [is_empty].
    rewrite normalize_necrose_severe.
    destruct (mem "necrose_severe" terms) eqn:Hmem.
    + exists "necrose_severe". apply mem_In in Hmem. auto.
    + destruct (find_first (partial_match "necrose_severe") terms)
        as [[Hnone Hall] | (pre & x & post & -> & Hf & Hx & Hpre)].
      * specialize (Hall _ Hin). discriminate Hall.
      * exists x. rewrite Hf. repeat split; trivial.
        -- apply in_or_app. right. left. reflexivity.
        -- right. reflexivity.
Qed.

(** C7, as amended. It is [identify_plant] that resolves ["mais"] and
    ["maïs"] to ["corn"], through the alias table, once unidecode turns
    the accented letter into ["i"]; [validate_term] against the plant
    category answers ["mais"] for both, since ["mais"] is itself in that
    category. *)
Theorem identify_plant_resolves_aliases :
  translit "239"%char = "i" ->
  identify_plant "mais" = Returns (Some "corn")
  /\ identify_plant (u8 "maïs") = Returns (Some "corn")
  /\ validate_term "mais" HUBS_plantes default_cutoff = Returns (Some "mais")
  /\ validate_term (u8 "maïs") HUBS_plantes default_cutoff
     = Returns (Some "mais").
Proof.
  intros Hi. destruct (unidecode_mais _ Hi) as [Hlower Hnorm].
  split; [|split; [|split]].
  - reflexivity.
  - unfold identify_plant. rewrite Hlower. reflexivity.
  - reflexivity.
  - unfold validate_term. rewrite Hnorm. reflexivity.
Qed.

End ValidateTerm.

(** C6, counterexample. For the empty string and the category
    [["necrose"]] the ladder as worded answers ["necrose"] (the empty
    string is a substring of it) while [validate_term] answers [None]. *)
Lemma validate_term_empty_input :
  @OntologyValidator.validate_term_as_worded
    Sample.unidecode_latin1 Sample.no_close_matches
    "" ["necrose"] OntologyValidator.default_cutoff
  = Some "necrose"
  /\ @OntologyValidator.validate_term
       Sample.unidecode_latin1 Sample.no_close_matches
       "" ["necrose"] OntologyValidator.default_cutoff
     = Returns None.
Proof. split; reflexivity. Qed.

(** C7, witness. *)
Lemma identify_plant_resolves_aliases_witness :
  @OntologyValidator.identify_plant
    Sample.unidecode_latin1 Sample.no_close_matches "mais"
  = Returns (Some "corn")
  /\ @OntologyValidator.identify_plant
       Sample.unidecode_latin1 Sample.no_close_matches (PyStr.u8 "maïs")
     = Returns (Some "corn").
Proof.
  destruct (@identify_plant_resolves_aliases
              Sample.unidecode_latin1 Sample.no_close_matches)
    as (H1 & H2 & _).
  - reflexivity.
  - split; [exact H1 | exact H2].
Defined.

(** C7, counterexample. [validate_term] answers ["mais"], not ["corn"],
    for ["mais"] and for ["maïs"] against the plant category. *)
Lemma validate_term_keeps_mais :
  @OntologyValidator.validate_term
    Sample.unidecode_latin1 Sample.no_close_matches
    "mais" OntologyValidator.HUBS_plantes OntologyValidator.default_cutoff
  = Returns (Some "mais")
  /\ @OntologyValidator.validate_term
       Sample.unidecode_latin1 Sample.no_close_matches
       (PyStr.u8 "maïs") OntologyValidator.HUBS_plantes
       OntologyValidator.default_cutoff
     = Returns (Some "mais")
  /\ Some "mais" <> Some "corn".
Proof. repeat split; try reflexivity. discriminate. Qed.

(** ** Ontology matcher *)

Section Vocabulary.
Import PyStr OntologyMatcher.

Lemma in_set_true (x : string) (s : gset string) :
  in_set x s = true <-> x ∈ s.
Proof. unfold in_set. apply bool_decide_eq_true. Qed.

Lemma in_set_false (x : string) (s : gset string) :
  in_set x s = false <-> x ∉ s.
Proof. unfold in_set. apply bool_decide_eq_false. Qed.

(** Enrichment keeps the vocabulary and adds only non-empty lemmas that
    contain ["has_"]. *)
Lemma enrich_spec (R : list OntologyLoader.OntologyRelation) :
  forall (V : gset string) (x : string),
    x ∈ _enrich_from_ontology R V ->
    x ∈ V \/ (is_empty x = false /\ contains "has_" x = true).
Proof.
  unfold _enrich_from_ontology.
  induction R as [|r R IH]; intros V x Hx; cbn [foldl] in Hx.
  - left. exact Hx.
  - apply IH in Hx. destruct Hx as [Hx | Hx]; [|right; exact Hx].
    set (lem := if is_empty (OntologyLoader.lemma r)
                then OntologyLoader.label_normalized r
                else lower (OntologyLoader.lemma r)) in *.
    destruct (negb (is_empty lem) && contains "has_" lem) eqn:E.
    + apply elem_of_union in Hx. destruct Hx as [Hx | Hx]; [left; exact Hx|].
      apply elem_of_singleton in Hx. subst x. right.
      apply andb_true_iff in E. destruct E as [E1 E2].
      apply negb_true_iff in E1. split; assumption.
    + left. exact Hx.
Qed.

Lemma enrich_keeps (R : list OntologyLoader.OntologyRelation) :
  forall (V : gset string) (x : string),
    x ∈ V -> x ∈ _enrich_from_ontology R V.
Proof.
  unfold _enrich_from_ontology.
  induction R as [|r R IH]; intros V x Hx; cbn [foldl]; [exact Hx|].
  apply IH.
  destruct (negb _ && _); [apply elem_of_union; left|]; exact Hx.
Qed.

(** A lemma without ["has_"] is looked up in the same link vocabulary
    whatever the ontology. *)
Lemma link_vocabulary_without_has
    (R : list OntologyLoader.OntologyRelation) (th : gmap string Q)
    (x : string) :
  contains "has_" x = false ->
  in_set x (link_vocabulary (__init__ R th)) = in_set x RELATIONS.
Proof.
  intros Hno. cbn [link_vocabulary __init__].
  destruct (in_set x RELATIONS) eqn:E.
  - apply in_set_true. apply enrich_keeps. apply in_set_true. exact E.
  - apply in_set_false. intros Hin. apply enrich_spec in Hin.
    destruct Hin as [Hin | [_ Hin]]; [|congruence].
    apply in_set_false in E. contradiction.
Qed.

Lemma classify_without_has
    (R : list OntologyLoader.OntologyRelation) (th : gmap string Q)
    (lemma : string) :
  contains "has_" (strip (lower lemma)) = false ->
  _classify_lemma (__init__ R th) lemma
  = _classify_lemma (__init__ [] th) lemma.
Proof.
  intros Hno. unfold _classify_lemma.
  rewrite (link_vocabulary_without_has R th _ Hno).
  rewrite (link_vocabulary_without_has [] th _ Hno).
  reflexivity.
Qed.

(** The empty string is in no link vocabulary. *)
Lemma link_vocabulary_nonempty
    (R : list OntologyLoader.OntologyRelation) (th : gmap string Q) :
  in_set "" RELATIONS || in_set "" (link_vocabulary (__init__ R th)) = false.
Proof.
  rewrite (link_vocabulary_without_has R th "") by reflexivity.
  reflexivity.
Qed.

(** The sub-types of a hub. *)
Lemma classify_hub_sub_type (self : t) (lemma sub_type : string) :
  _classify_lemma self lemma = hub sub_type ->
  sub_type = "plante" \/ sub_type = "maladie" \/ sub_type = "ravageur".
Proof.
  unfold _classify_lemma.
  repeat (match goal with
          | |- context [if ?c then _ else _] => destruct c
          end;
          try (intros [= <-]; tauto); try discriminate).
Qed.

(** A lemma classified as a relation is in [RELATIONS] or in the link
    vocabulary. *)
Lemma classify_link_inv (self : t) (lemma sub_type : string) :
  _classify_lemma self lemma = link sub_type ->
  sub_type = "relation"
  /\ in_set (strip (lower lemma)) RELATIONS
     || in_set (strip (lower lemma)) (link_vocabulary self) = true.
Proof.
  unfold _classify_lemma.
  destruct (in_set _ PLANTES); [discriminate|].
  destruct (in_set _ MALADIES); [discriminate|].
  destruct (in_set _ RAVAGEURS); [discriminate|].
  destruct (in_set _ RELATIONS || in_set _ (link_vocabulary self)).
  - intros [= <-]. split; reflexivity.
  - repeat (match goal with
            | |- context [if ?c then _ else _] => destruct c
            end; try discriminate).
Qed.

(** The lower-cased text of a relation lemma is not empty. *)
Lemma relation_lemma_truthy
    (R : list OntologyLoader.OntologyRelation) (th : gmap string Q)
    (lemma : string) :
  is_relation (__init__ R th) lemma ->
  truthy (Some (lower lemma)) = Some (lower lemma).
Proof.
  intros Hrel. apply classify_link_inv in Hrel. destruct Hrel as [_ Hin].
  cbn [truthy]. destruct (lower lemma) eqn:E; [|reflexivity].
  cbn [strip lstrip rstrip] in Hin.
  rewrite link_vocabulary_nonempty in Hin. discriminate.
Qed.

End Vocabulary.

Section LastSuch.
Import OntologyMatcher.
Variable P : string -> Prop.

Lemma last_such_snoc_hit (lemmas : list string) (x : string) :
  P x -> last_such P (lemmas ++ [x]) x.
Proof.
  intros Hx. exists lemmas, []. split; [reflexivity|].
  split; [exact Hx | intros y []].
Qed.

Lemma last_such_snoc_miss (lemmas : list string) (x lemma : string) :
  ~ P x -> last_such P lemmas lemma -> last_such P (lemmas ++ [x]) lemma.
Proof.
  intros Hx (pre & post & -> & Hl & Hpost).
  exists pre, (post ++ [x]). split.
  - rewrite <- app_assoc. reflexivity.
  - split; [exact Hl|]. intros y Hy. apply in_app_or in Hy.
    destruct Hy as [Hy | [<- | []]]; [exact (Hpost y Hy) | exact Hx].
Qed.

Lemma none_snoc (lemmas : list string) (x : string) :
  ~ P x -> (forall y, In y lemmas -> ~ P y) ->
  forall y, In y (lemmas ++ [x]) -> ~ P y.
Proof.
  intros Hx Hall y Hy. apply in_app_or in Hy.
  destruct Hy as [Hy | [<- | []]]; [exact (Hall y Hy) | exact Hx].
Qed.

Lemma last_such_In (lemmas : list string) (lemma : string) :
  last_such P lemmas lemma -> In lemma lemmas /\ P lemma.
Proof.
  intros (pre & post & -> & Hl & _). split; [|exact Hl].
  apply in_or_app. right. left. reflexivity.
Qed.

Lemma slot_ok_hit {A} (good : string -> A -> Prop)
    (lemmas : list string) (x : string) (a : A) :
  P x -> good x a -> slot_ok P good (lemmas ++ [x]) (Some a).
Proof.
  intros Hx Hgood. exists x. split; [|exact Hgood].
  apply last_such_snoc_hit. exact Hx.
Qed.

Lemma slot_ok_miss {A} (good : string -> A -> Prop)
    (lemmas : list string) (x : string) (slot : option A) :
  ~ P x -> slot_ok P good lemmas slot -> slot_ok P good (lemmas ++ [x]) slot.
Proof.
  intros Hx. destruct slot as [a|]; cbn [slot_ok].
  - intros (lemma & Hlast & Hgood). exists lemma. split; [|exact Hgood].
    apply last_such_snoc_miss; assumption.
  - apply none_snoc. exact Hx.
Qed.

End LastSuch.

Section Phase1.
Import PyStr OntologyMatcher.
Context `{Hashlib} `{Formatting} `{Clock} `{Scorer} `{SetOrder}.
Variable self : t.
Variable image_source : string.

Local Abbreviation step := (phase1_step self image_source).
Local Abbreviation hub_for := (direct_hub image_source).

Lemma step_plant (l : locals) (x : string) :
  is_plant self x ->
  step l x
  = {| hubs_list := hubs_list l ++ [hub_for (clock_reads l) x "plante"];
       satellites_list := satellites_list l;
       plante_hub := Some (hub_for (clock_reads l) x "plante");
       probleme_hub := probleme_hub l;
       relation_lemma := relation_lemma l;
       clock_reads := S (clock_reads l) |}.
Proof. unfold is_plant, phase1_step. intros ->. reflexivity. Qed.

Lemma step_problem (l : locals) (x sub_type : string) :
  is_problem_of self sub_type x ->
  step l x
  = {| hubs_list := hubs_list l ++ [hub_for (clock_reads l) x sub_type];
       satellites_list := satellites_list l;
       plante_hub := plante_hub l;
       probleme_hub := Some (hub_for (clock_reads l) x sub_type);
       relation_lemma := relation_lemma l;
       clock_reads := S (clock_reads l) |}.
Proof.
  unfold is_problem_of, phase1_step. intros [-> [-> | ->]]; reflexivity.
Qed.

Lemma step_relation (l : locals) (x : string) :
  is_relation self x ->
  step l x
  = {| hubs_list := hubs_list l;
       satellites_list := satellites_list l;
       plante_hub := plante_hub l;
       probleme_hub := probleme_hub l;
       relation_lemma := Some (lower x);
       clock_reads := clock_reads l |}.
Proof. unfold is_relation, phase1_step. intros ->. reflexivity. Qed.

Lemma step_satellite (l : locals) (x sub_type : string) :
  _classify_lemma self x = satellite sub_type ->
  step l x
  = {| hubs_list := hubs_list l;
       satellites_list := satellites_list l ++ [(x, sub_type)];
       plante_hub := plante_hub l;
       probleme_hub := probleme_hub l;
       relation_lemma := relation_lemma l;
       clock_reads := clock_reads l |}.
Proof. unfold phase1_step. intros ->. reflexivity. Qed.

(** A lemma that is neither a hub nor a relation leaves the three slots
    as they are and can only add hubs at the end of the list. *)
Lemma step_other (l : locals) (x : string) :
  (forall sub_type, _classify_lemma self x <> hub sub_type) ->
  (forall sub_type, _classify_lemma self x <> link sub_type) ->
  plante_hub (step l x) = plante_hub l
  /\ probleme_hub (step l x) = probleme_hub l
  /\ relation_lemma (step l x) = relation_lemma l
  /\ exists extra, hubs_list (step l x) = hubs_list l ++ extra.
Proof.
  intros Hhub Hlink. unfold phase1_step.
  destruct (_classify_lemma self x) as [s | s | s |] eqn:E.
  - destruct (Hhub s). reflexivity.
  - destruct (Hlink s). reflexivity.
  - cbn. repeat split. exists []. symmetry. apply app_nil_r.
  - unfold _classify_unknown_lemma.
    destruct (_find_best_match x (hub_vocabulary self) _) as [bh hs].
    destruct (truthy bh).
    + cbn. repeat split. eexists. reflexivity.
    + destruct (_find_best_match x (satellite_vocabulary self) _)
        as [bs ss].
      destruct (truthy bs); [|destruct (2 <? String.length x)%nat];
        cbn; repeat split; exists []; symmetry; apply app_nil_r.
Qed.

(** The three kinds of lemma exclude one another. *)
Lemma plant_not_problem (x : string) : is_plant self x -> ~ is_problem self x.
Proof.
  unfold is_plant. intros Hp (s & Hs & [-> | ->]); congruence.
Qed.

Lemma plant_not_relation (x : string) :
  is_plant self x -> ~ is_relation self x.
Proof. unfold is_plant, is_relation. congruence. Qed.

Lemma problem_not_plant (x : string) : is_problem self x -> ~ is_plant self x.
Proof. intros Hp Hx. exact (plant_not_problem x Hx Hp). Qed.

Lemma problem_not_relation (x : string) :
  is_problem self x -> ~ is_relation self x.
Proof. unfold is_relation. intros (s & Hs & _). congruence. Qed.

Lemma relation_not_plant (x : string) :
  is_relation self x -> ~ is_plant self x.
Proof. intros Hr Hp. exact (plant_not_relation x Hp Hr). Qed.

Lemma relation_not_problem (x : string) :
  is_relation self x -> ~ is_problem self x.
Proof. intros Hr Hp. exact (problem_not_relation x Hp Hr). Qed.

(** Every lemma is a plant, a problem, a relation, or none of them. *)
Lemma lemma_kind (x : string) :
  is_plant self x
  \/ (exists sub_type, is_problem_of self sub_type x)
  \/ is_relation self x
  \/ ((forall sub_type, _classify_lemma self x <> hub sub_type)
      /\ (forall sub_type, _classify_lemma self x <> link sub_type)).
Proof.
  destruct (_classify_lemma self x) as [s | s | s |] eqn:E.
  - destruct (classify_hub_sub_type self x s E) as [-> | [-> | ->]].
    + left. exact E.
    + right. left. exists "maladie". split; [exact E | left; reflexivity].
    + right. left. exists "ravageur". split; [exact E | right; reflexivity].
  - right. right. left. unfold is_relation.
    destruct (classify_link_inv self x s E) as [-> _]. exact E.
  - right. right. right. split; intros s'; discriminate.
  - right. right. right. split; intros s'; discriminate.
Qed.

Local Abbreviation invariant := (phase1_invariant self image_source).

Lemma invariant_start (reads : nat) :
  invariant []
    {| hubs_list := []; satellites_list := [];
       plante_hub := None; probleme_hub := None; relation_lemma := None;
       clock_reads := reads |}.
Proof.
  split; cbn.
  - intros x [].
  - intros x [].
  - intros x [].
  - intros h [|]; discriminate.
  - intros x s [].
Qed.

Lemma invariant_step (lemmas : list string) (l : locals) (x : string) :
  invariant lemmas l -> invariant (lemmas ++ [x]) (step l x).
Proof.
  intros [Hplant Hproblem Hrelation Hslots Hhubs].
  assert (Hold : forall extra y s,
             In y lemmas -> _classify_lemma self y = hub s ->
             exists k, In (hub_for k y s) (hubs_list l ++ extra)).
  { intros extra y s Hy Hc. destruct (Hhubs y s Hy Hc) as [k Hk].
    exists k. apply in_or_app. left. exact Hk. }
  destruct (lemma_kind x)
    as [Hx | [(sub & Hx) | [Hx | [Hhub Hlink]]]].
  - rewrite (step_plant l x Hx). split; cbn [plante_hub probleme_hub relation_lemma hubs_list].
    + apply slot_ok_hit; [exact Hx | eexists; reflexivity].
    + apply slot_ok_miss; [exact (plant_not_problem x Hx) | exact Hproblem].
    + apply slot_ok_miss; [exact (plant_not_relation x Hx) | exact Hrelation].
    + intros h [[= <-] | Hh]; apply in_or_app;
        [right; left; reflexivity | left; apply Hslots; right; exact Hh].
    + intros y s Hy Hc. apply in_app_or in Hy.
      destruct Hy as [Hy | [<- | []]]; [exact (Hold _ y s Hy Hc)|].
      unfold is_plant in Hx. rewrite Hx in Hc. injection Hc as <-.
      exists (clock_reads l). apply in_or_app. right. left. reflexivity.
  - assert (Hp : is_problem self x) by (exists sub; exact Hx).
    rewrite (step_problem l x sub Hx). split; cbn [plante_hub probleme_hub relation_lemma hubs_list].
    + apply slot_ok_miss; [exact (problem_not_plant x Hp) | exact Hplant].
    + apply slot_ok_hit; [exact Hp|].
      exists sub, (clock_reads l). split; [exact Hx | reflexivity].
    + apply slot_ok_miss; [exact (problem_not_relation x Hp) | exact Hrelation].
    + intros h [Hh | [= <-]]; apply in_or_app;
        [left; apply Hslots; left; exact Hh | right; left; reflexivity].
    + intros y s Hy Hc. apply in_app_or in Hy.
      destruct Hy as [Hy | [<- | []]]; [exact (Hold _ y s Hy Hc)|].
      destruct Hx as [Hx _]. rewrite Hx in Hc. injection Hc as <-.
      exists (clock_reads l). apply in_or_app. right. left. reflexivity.
  - rewrite (step_relation l x Hx). split; cbn [plante_hub probleme_hub relation_lemma hubs_list].
    + apply slot_ok_miss; [exact (relation_not_plant x Hx) | exact Hplant].
    + apply slot_ok_miss; [exact (relation_not_problem x Hx) | exact Hproblem].
    + apply slot_ok_hit; [exact Hx | reflexivity].
    + exact Hslots.
    + intros y s Hy Hc. apply in_app_or in Hy.
      destruct Hy as [Hy | [<- | []]]; [exact (Hhubs y s Hy Hc)|].
      unfold is_relation in Hx. congruence.
  - destruct (step_other l x Hhub Hlink) as (E1 & E2 & E3 & extra & E4).
    split; rewrite ?E1, ?E2, ?E3, ?E4.
    + apply slot_ok_miss; [|exact Hplant].
      unfold is_plant. apply Hhub.
    + apply slot_ok_miss; [|exact Hproblem].
      intros (s & Hs & _). exact (Hhub s Hs).
    + apply slot_ok_miss; [|exact Hrelation].
      unfold is_relation. apply Hlink.
    + intros h Hh. apply in_or_app. left. apply Hslots. exact Hh.
    + intros y s Hy Hc. apply in_app_or in Hy.
      destruct Hy as [Hy | [<- | []]]; [exact (Hold _ y s Hy Hc)|].
      destruct (Hhub s Hc).
Qed.

Lemma phase1_snoc (lemmas : list string) (x : string) (reads : nat) :
  phase1 self image_source (lemmas ++ [x]) reads
  = step (phase1 self image_source lemmas reads) x.
Proof. unfold phase1. rewrite foldl_app. reflexivity. Qed.

(** The invariant holds when phase 1 ends. *)
Lemma phase1_invariant_holds (lemmas : list string) (reads : nat) :
  invariant lemmas (phase1 self image_source lemmas reads).
Proof.
  induction lemmas as [|x lemmas IH] using rev_ind.
  - apply invariant_start.
  - rewrite phase1_snoc. apply invariant_step. exact IH.
Qed.

End Phase1.

Section LastSuchUnique.
Import OntologyMatcher.
Variable P : string -> Prop.

(** There is only one last lemma with a property. *)
Lemma last_such_unique (lemmas : list string) (a b : string) :
  last_such P lemmas a -> last_such P lemmas b -> a = b.
Proof.
  intros (pre & post & -> & Ha & Hpost) (pre' & post' & Heq & Hb & Hpost').
  revert pre' Heq. induction pre as [|c pre IH]; intros [|c' pre'] Heq.
  - injection Heq as Heq _. exact Heq.
  - injection Heq as _ Heq. exfalso. apply (Hpost b); [|exact Hb].
    rewrite Heq. apply in_or_app. right. left. reflexivity.
  - injection Heq as _ Heq. exfalso. apply (Hpost' a); [|exact Ha].
    rewrite <- Heq. apply in_or_app. right. left. reflexivity.
  - injection Heq as _ Heq. exact (IH pre' Heq).
Qed.

End LastSuchUnique.

Section ClassifyLemmas.
Import PyStr OntologyMatcher.
Context `{Hashlib} `{Formatting} `{Clock} `{Scorer} `{SetOrder}.
Variable R : list OntologyLoader.OntologyRelation.
Variable thresholds : gmap string Q.
Variable image_source : string.

Local Abbreviation self := (__init__ R thresholds).



(** The five lemmas of the example are classified in the same way
    whatever the ontology. *)
Lemma example_lemmas_classified :
  _classify_lemma self "corn" = hub "plante"
  /\ _classify_lemma self "has_disease" = link "relation"
  /\ _classify_lemma self "helminthosporiose" = hub "maladie"
  /\ _classify_lemma self "necrose" = satellite "symptome"
  /\ _classify_lemma self "vert_fonce" = satellite "couleur".
Proof.
  split; [reflexivity|]. split; [reflexivity|]. split; [reflexivity|].
  split; (rewrite classify_without_has; reflexivity).
Qed.


End ClassifyLemmas.




(** ** Data Vault generator: validation *)

Section Validation.
Import PyStr DataVaultGenerator.
Context `{Formatting}.

Lemma preserves_ret {A} (a : A) : preserves (ret a).
Proof. intros w. reflexivity. Qed.

Lemma preserves_attr {A} (field : DataVaultSchema -> A) :
  preserves (attr field).
Proof. intros w. reflexivity. Qed.

Lemma preserves_print (line : printed) : preserves (print line).
Proof. intros w. reflexivity. Qed.

Lemma preserves_bind {A B} (m : M A) (k : A -> M B) :
  preserves m -> (forall a, preserves (k a)) -> preserves (bind m k).
Proof.
  intros Hm Hk w. unfold bind. specialize (Hm w).
  destruct (m w) as [a w']. cbn [snd] in Hm. rewrite <- Hm. apply Hk.
Qed.

Lemma preserves_for_each {A} (xs : list A) (body : A -> M unit) :
  (forall x, preserves (body x)) -> preserves (for_each xs body).
Proof.
  intros Hbody. induction xs as [|x r IH]; cbn [for_each].
  - apply preserves_ret.
  - apply preserves_bind; [apply Hbody | intros _; exact IH].
Qed.

(** Walks through a computation made of reads, prints and branches. *)
Ltac frame :=
  repeat first
    [ apply preserves_ret
    | apply preserves_attr
    | apply preserves_print
    | apply preserves_for_each; intros
    | apply preserves_bind; [|intros]
    | match goal with
      | |- preserves (if ?c then _ else _) => destruct c
      | |- preserves (match ?e with [] => _ | _ :: _ => _ end) => destruct e
      end ].

Lemma key_uniqueness_preserves : preserves _check_key_uniqueness.
Proof. unfold _check_key_uniqueness. frame. Qed.

Lemma referential_integrity_preserves :
  preserves _check_referential_integrity.
Proof. unfold _check_referential_integrity. frame. Qed.

Lemma confidence_scores_preserves : preserves _check_confidence_scores.
Proof. unfold _check_confidence_scores. frame. Qed.

Lemma structural_constraints_preserves :
  preserves _check_structural_constraints.
Proof. unfold _check_structural_constraints. frame. Qed.

(** C10. [validate_schema] is read-only: after the four checks and the
    printing of their diagnostics, the schema object (its hubs, links,
    satellites and metadata, hence every field of every record) is the
    one it was given; only standard output has grown. *)
Theorem validate_schema_read_only (w : world) :
  the_schema (snd (validate_schema w)) = the_schema w.
Proof.
  revert w. change (preserves validate_schema). unfold validate_schema.
  apply preserves_bind; [apply key_uniqueness_preserves | intros e1].
  apply preserves_bind; [apply referential_integrity_preserves | intros e2].
  apply preserves_bind; [apply confidence_scores_preserves | intros e3].
  apply preserves_bind; [apply structural_constraints_preserves | intros e4].
  frame.
Qed.

Lemma silent_bind {A B} (m : M A) (k : A -> M B) :
  silent m -> (forall a, silent (k a)) -> silent (bind m k).
Proof.
  intros Hm Hk w. unfold bind. specialize (Hm w).
  destruct (m w) as [a w']. cbn [snd] in Hm. subst w'. apply Hk.
Qed.

Lemma silent_ret {A} (a : A) : silent (ret a).
Proof. intros w. reflexivity. Qed.

Lemma silent_attr {A} (field : DataVaultSchema -> A) : silent (attr field).
Proof. intros w. reflexivity. Qed.

(** The same walk for computations that do not print. *)
Ltac quiet :=
  repeat first
    [ apply silent_ret
    | apply silent_attr
    | apply silent_bind; [|intros]
    | match goal with
      | |- silent (if ?c then _ else _) => destruct c
      end ].

Lemma key_uniqueness_silent : silent _check_key_uniqueness.
Proof. unfold _check_key_uniqueness. quiet. Qed.

Lemma referential_integrity_result (w : world) :
  _check_referential_integrity w
  = (referential_diagnostics (the_schema w), w).
Proof. reflexivity. Qed.

Lemma confidence_scores_silent : silent _check_confidence_scores.
Proof. unfold _check_confidence_scores. quiet. Qed.

Lemma structural_constraints_silent : silent _check_structural_constraints.
Proof. unfold _check_structural_constraints. quiet. Qed.

(** The diagnostics returned are those of the four checks, in order. *)
Lemma validate_schema_diagnostics (w : world) :
  fst (validate_schema w)
  = fst (_check_key_uniqueness w)
    ++ referential_diagnostics (the_schema w)
    ++ fst (_check_confidence_scores w)
    ++ fst (_check_structural_constraints w).
Proof.
  unfold validate_schema, bind.
  pose proof (key_uniqueness_silent w) as S1.
  destruct (_check_key_uniqueness w) as [e1 w1]. cbn [snd] in S1. subst w1.
  rewrite referential_integrity_result.
  pose proof (confidence_scores_silent w) as S3.
  destruct (_check_confidence_scores w) as [e3 w3]. cbn [snd] in S3. subst w3.
  pose proof (structural_constraints_silent w) as S4.
  destruct (_check_structural_constraints w) as [e4 w4].
  cbn [snd] in S4. subst w4. cbn [fst].
  match goal with |- fst (let '(_, _) := ?m in _) = _ => destruct m end.
  reflexivity.
Qed.

(** A link whose target is not a hub key is reported. *)
Lemma dangling_target_reported (s : DataVaultSchema) (link : Link.t) :
  In link (links s) ->
  ~ In (Link.hub_target_key link) (map Hub.hub_key (hubs s)) ->
  exists diagnostic,
    In diagnostic (referential_diagnostics s) /\ is_warning diagnostic = true.
Proof.
  intros Hlink Hdangling.
  exists ("WARNING: Link " +:+ take 8 (Link.link_key link) +:+ "... "
          +:+ u8 "référence un Hub target invalide").
  split; [|reflexivity].
  unfold referential_diagnostics. apply in_or_app. left.
  apply in_concat. eexists. split; [apply in_map; exact Hlink|].
  unfold link_integrity. apply in_or_app. right.
  rewrite bool_decide_eq_false_2; [left; reflexivity|].
  intros Hin. apply elem_of_list_to_set in Hin.
  apply list_elem_of_In in Hin. exact (Hdangling Hin).
Qed.

(** C9. For a schema with a Link whose [hub_target_key] is the key of no
    Hub, [validate_schema] returns a list of diagnostics (it has no other
    outcome) with at least one of the warning class; the schema object is
    unchanged and its dictionary export is defined, with one entry per hub,
    link and satellite. *)
Theorem dangling_target_is_a_warning (w : world) (link : Link.t) :
  In link (links (the_schema w)) ->
  ~ In (Link.hub_target_key link)
       (map Hub.hub_key (hubs (the_schema w))) ->
  let '(errors, w') := validate_schema w in
  (exists diagnostic, In diagnostic errors /\ is_warning diagnostic = true)
  /\ the_schema w' = the_schema w
  /\ exists exported_hubs exported_links exported_satellites,
       to_dict (the_schema w')
       = PyDict [("metadata", PyDict (metadata (the_schema w)));
                 ("hubs", PyList exported_hubs);
                 ("links", PyList exported_links);
                 ("satellites", PyList exported_satellites)]
       /\ List.length exported_hubs = List.length (hubs (the_schema w))
       /\ List.length exported_links = List.length (links (the_schema w))
       /\ List.length exported_satellites
          = List.length (satellites (the_schema w)).
Proof.
  intros Hlink Hdangling.
  pose proof (validate_schema_diagnostics w) as Herrors.
  pose proof (validate_schema_read_only w) as Hframe.
  destruct (validate_schema w) as [errors w'].
  cbn [fst] in Herrors. cbn [snd] in Hframe.
  split; [|split; [exact Hframe|]].
  - destruct (dangling_target_reported _ link Hlink Hdangling)
      as (diagnostic & Hin & Hwarning).
    exists diagnostic. split; [|exact Hwarning].
    rewrite Herrors. apply in_or_app. right. apply in_or_app. left. exact Hin.
  - rewrite Hframe. unfold to_dict. eexists _, _, _.
    split; [reflexivity|]. rewrite !length_map. repeat split.
Qed.

End Validation.

(** C9, witness: a schema with one link and no hub at all. *)
Lemma dangling_target_is_a_warning_witness :
  let link :=
    @Link.new Sample.plain_keys 0 "corn_plante" "rouille_maladie"
      "has_disease" "img1.jpg" 1 in
  let w :=
    {| DataVaultGenerator.the_schema :=
         {| DataVaultGenerator.hubs := [];
            DataVaultGenerator.links := [link];
            DataVaultGenerator.satellites := [];
            DataVaultGenerator.metadata := [] |};
       DataVaultGenerator.stdout := [] |} in
  In link (DataVaultGenerator.links (DataVaultGenerator.the_schema w))
  /\ exists diagnostic,
       In diagnostic
          (fst (@DataVaultGenerator.validate_schema
                  Sample.plain_formatting w))
       /\ DataVaultGenerator.is_warning diagnostic = true.
Proof.
  intros link w.
  assert (Hlink : In link (DataVaultGenerator.links
                             (DataVaultGenerator.the_schema w))).
  { left. reflexivity. }
  assert (Hdangling :
            ~ In (Link.hub_target_key link)
                 (map Hub.hub_key
                    (DataVaultGenerator.hubs
                       (DataVaultGenerator.the_schema w)))).
  { intros []. }
  split; [exact Hlink|].
  pose proof (@dangling_target_is_a_warning Sample.plain_formatting
                w link Hlink Hdangling) as Hwarning.
  destruct (@DataVaultGenerator.validate_schema Sample.plain_formatting w)
    as [errors w'].
  destruct Hwarning as [Hwarning _]. exact Hwarning.
Defined.

(** ** Data Vault generator: merging *)

Section KeepFirst.
Import PyStr DataVaultGenerator.
Context {A : Type}.
Variable key : A -> string.

Local Abbreviation other_than x := (fun y : A => negb (String.eqb (key y) (key x))).

Lemma first_by_key_snoc (all : list A) (x : A) :
  first_by_key key (all ++ [x])
  = if mem (key x) (map key all) then first_by_key key all
    else first_by_key key all ++ [x].
Proof.
  induction all as [|a all IH].
  - reflexivity.
  - cbn [app first_by_key map mem existsb]. rewrite IH.
    fold (mem (key x) (map key all)).
    destruct (String.eqb (key x) (key a)) eqn:E; cbn [orb].
    + destruct (mem (key x) (map key all)); [reflexivity|].
      rewrite List.filter_app. cbn [List.filter]. rewrite E. cbn [negb].
      rewrite app_nil_r. reflexivity.
    + destruct (mem (key x) (map key all)); [reflexivity|].
      rewrite List.filter_app. cbn [List.filter]. rewrite E. reflexivity.
Qed.

Lemma keep_first_tracks (acc : list A * gset string) (all : list A) (x : A) :
  tracks key acc all -> tracks key (keep_first key acc x) (all ++ [x]).
Proof.
  intros [Hlist Hset]. unfold keep_first, tracks.
  rewrite first_by_key_snoc, map_app. cbn [map].
  destruct (bool_decide (key x ∈ acc.2)) eqn:E.
  - apply bool_decide_eq_true in E.
    assert (Hin : In (key x) (map key all)) by (apply Hset; exact E).
    apply mem_In in Hin. rewrite Hin. split; [exact Hlist|].
    intros k. rewrite Hset, in_app_iff. split; [tauto|].
    intros [Hk | [<- | []]]; [exact Hk | apply mem_In; exact Hin].
  - apply bool_decide_eq_false in E.
    destruct (mem (key x) (map key all)) eqn:Hmem.
    + apply mem_In in Hmem. apply Hset in Hmem. contradiction.
    + cbn [fst snd]. rewrite Hlist. split; [reflexivity|].
      intros k. rewrite elem_of_union, elem_of_singleton, Hset, in_app_iff.
      cbn [In]. split; [intros [Hk | ->]; tauto|].
      intros [Hk | [<- | []]]; tauto.
Qed.

Lemma foldl_keep_first_tracks (xs : list A) :
  forall (acc : list A * gset string) (all : list A),
    tracks key acc all ->
    tracks key (foldl (keep_first key) acc xs) (all ++ xs).
Proof.
  induction xs as [|x xs IH]; intros acc all Htracks; cbn [foldl].
  - rewrite app_nil_r. exact Htracks.
  - replace (all ++ x :: xs) with ((all ++ [x]) ++ xs)
      by (rewrite <- app_assoc; reflexivity).
    apply IH. apply keep_first_tracks. exact Htracks.
Qed.

Lemma tracks_start : tracks key ([], ∅) [].
Proof.
  split; [reflexivity|]. intros k. cbn. split; [|intros []].
  intros Hk. exact (not_elem_of_empty k Hk).
Qed.

(** Dropping the elements of one key does not change the count of another
    key and empties the count of that key. *)
Lemma count_key_filter_other (k : string) (x : A) (xs : list A) :
  count_key key k (List.filter (other_than x) xs)
  = if String.eqb (key x) k then 0%nat else count_key key k xs.
Proof.
  unfold count_key, with_key. induction xs as [|y ys IH].
  - destruct (String.eqb (key x) k); reflexivity.
  - cbn [List.filter].
    destruct (String.eqb (key y) (key x)) eqn:Eyx; cbn [negb].
    + rewrite IH. destruct (String.eqb (key x) k) eqn:Exk; [reflexivity|].
      apply String.eqb_eq in Eyx. rewrite Eyx, Exk. reflexivity.
    + cbn [List.filter]. destruct (String.eqb (key y) k) eqn:Eyk.
      * cbn [List.length]. rewrite IH.
        destruct (String.eqb (key x) k) eqn:Exk; [|reflexivity].
        apply String.eqb_eq in Eyk, Exk.
        rewrite Eyk, Exk, String.eqb_refl in Eyx. discriminate.
      * exact IH.
Qed.

(** After deduplication every key of the input is the key of exactly one
    element, and no other key occurs. *)
Lemma count_key_first_by_key (k : string) (xs : list A) :
  count_key key k (first_by_key key xs)
  = if mem k (map key xs) then 1%nat else 0%nat.
Proof.
  induction xs as [|x xs IH].
  - reflexivity.
  - cbn [first_by_key map mem existsb]. fold (mem k (map key xs)).
    change (count_key key k (x :: ?l))
      with (List.length (if with_key key k x
                         then x :: List.filter (with_key key k) l
                         else List.filter (with_key key k) l)).
    unfold with_key at 1. rewrite (String.eqb_sym k (key x)).
    destruct (String.eqb (key x) k) eqn:E; cbn [orb List.length].
    + fold (count_key key k (List.filter (other_than x) (first_by_key key xs))).
      rewrite count_key_filter_other, E. reflexivity.
    + fold (count_key key k (List.filter (other_than x) (first_by_key key xs))).
      rewrite count_key_filter_other, E. exact IH.
Qed.

Lemma find_filter_other (k : string) (x : A) (xs : list A) :
  String.eqb (key x) k = false ->
  find (with_key key k) (List.filter (other_than x) xs)
  = find (with_key key k) xs.
Proof.
  intros Hxk. induction xs as [|y ys IH]; [reflexivity|].
  cbn [List.filter find].
  change (with_key key k y) with (String.eqb (key y) k).
  destruct (String.eqb (key y) (key x)) eqn:Eyx; cbn [negb].
  - apply String.eqb_eq in Eyx. rewrite Eyx, Hxk. exact IH.
  - cbn [find]. change (with_key key k y) with (String.eqb (key y) k).
    destruct (String.eqb (key y) k); [reflexivity | exact IH].
Qed.

(** The element kept for a key is the first element of the input with that
    key. *)
Lemma find_first_by_key (k : string) (xs : list A) :
  find (with_key key k) (first_by_key key xs) = find (with_key key k) xs.
Proof.
  induction xs as [|x xs IH]; [reflexivity|].
  cbn [first_by_key find].
  change (with_key key k x) with (String.eqb (key x) k).
  destruct (String.eqb (key x) k) eqn:E; [reflexivity|].
  rewrite (find_filter_other k x _ E). exact IH.
Qed.

Lemma first_by_key_incl (xs : list A) (x : A) :
  In x (first_by_key key xs) -> In x xs.
Proof.
  revert x. induction xs as [|a xs IH]; intros x; [intros []|].
  cbn [first_by_key]. intros [<- | Hx]; [left; reflexivity|].
  right. apply IH. apply filter_In in Hx. destruct Hx as [Hx _]. exact Hx.
Qed.

End KeepFirst.

Section Merge.
Import PyStr DataVaultGenerator.

(** How each loop body acts on the hubs, on the links and on the
    satellites gathered so far. *)
Lemma merge_hub_views (acc : merged) (hub : Hub.t) :
  hub_view (merge_hub acc hub) = keep_first Hub.hub_key (hub_view acc) hub
  /\ link_view (merge_hub acc hub) = link_view acc
  /\ merged_satellites (merge_hub acc hub) = merged_satellites acc.
Proof.
  unfold merge_hub, keep_first, hub_view. cbn [fst snd].
  destruct (bool_decide _); repeat split.
Qed.

Lemma merge_link_views (acc : merged) (link : Link.t) :
  hub_view (merge_link acc link) = hub_view acc
  /\ link_view (merge_link acc link)
     = keep_first Link.link_key (link_view acc) link
  /\ merged_satellites (merge_link acc link) = merged_satellites acc.
Proof.
  unfold merge_link, keep_first, link_view. cbn [fst snd].
  destruct (bool_decide _); repeat split.
Qed.

Lemma merge_satellite_views (acc : merged) (satellite : Satellite.t) :
  hub_view (merge_satellite acc satellite) = hub_view acc
  /\ link_view (merge_satellite acc satellite) = link_view acc
  /\ merged_satellites (merge_satellite acc satellite)
     = merged_satellites acc ++ [satellite].
Proof. repeat split. Qed.

Lemma foldl_merge_hub_views (hs : list Hub.t) :
  forall acc,
    hub_view (foldl merge_hub acc hs)
    = foldl (keep_first Hub.hub_key) (hub_view acc) hs
    /\ link_view (foldl merge_hub acc hs) = link_view acc
    /\ merged_satellites (foldl merge_hub acc hs) = merged_satellites acc.
Proof.
  induction hs as [|h hs IH]; intros acc; cbn [foldl]; [repeat split|].
  destruct (IH (merge_hub acc h)) as (E1 & E2 & E3).
  destruct (merge_hub_views acc h) as (V1 & V2 & V3).
  rewrite E1, E2, E3, V1, V2, V3. repeat split.
Qed.

Lemma foldl_merge_link_views (ls : list Link.t) :
  forall acc,
    hub_view (foldl merge_link acc ls) = hub_view acc
    /\ link_view (foldl merge_link acc ls)
       = foldl (keep_first Link.link_key) (link_view acc) ls
    /\ merged_satellites (foldl merge_link acc ls) = merged_satellites acc.
Proof.
  induction ls as [|l ls IH]; intros acc; cbn [foldl]; [repeat split|].
  destruct (IH (merge_link acc l)) as (E1 & E2 & E3).
  destruct (merge_link_views acc l) as (V1 & V2 & V3).
  rewrite E1, E2, E3, V1, V2, V3. repeat split.
Qed.

Lemma foldl_merge_satellite_views (ss : list Satellite.t) :
  forall acc,
    hub_view (foldl merge_satellite acc ss) = hub_view acc
    /\ link_view (foldl merge_satellite acc ss) = link_view acc
    /\ merged_satellites (foldl merge_satellite acc ss)
       = merged_satellites acc ++ ss.
Proof.
  induction ss as [|x ss IH]; intros acc; cbn [foldl].
  - rewrite app_nil_r. repeat split.
  - destruct (IH (merge_satellite acc x)) as (E1 & E2 & E3).
    destruct (merge_satellite_views acc x) as (V1 & V2 & V3).
    rewrite E1, E2, E3, V1, V2, V3, <- app_assoc. repeat split.
Qed.

Lemma merge_one_views (acc : merged) (schema : DataVaultSchema) :
  hub_view (merge_one acc schema)
  = foldl (keep_first Hub.hub_key) (hub_view acc) (hubs schema)
  /\ link_view (merge_one acc schema)
     = foldl (keep_first Link.link_key) (link_view acc) (links schema)
  /\ merged_satellites (merge_one acc schema)
     = merged_satellites acc ++ satellites schema.
Proof.
  unfold merge_one.
  destruct (foldl_merge_satellite_views (satellites schema)
              (foldl merge_link (foldl merge_hub acc (hubs schema))
                 (links schema))) as (S1 & S2 & S3).
  destruct (foldl_merge_link_views (links schema)
              (foldl merge_hub acc (hubs schema))) as (L1 & L2 & L3).
  destruct (foldl_merge_hub_views (hubs schema) acc) as (H1 & H2 & H3).
  rewrite S1, S2, S3, L1, L2, L3, H1, H2, H3. repeat split.
Qed.

Lemma foldl_merge_one_views (schemas : list DataVaultSchema) :
  forall acc,
    hub_view (foldl merge_one acc schemas)
    = foldl (keep_first Hub.hub_key) (hub_view acc)
        (List.concat (map hubs schemas))
    /\ link_view (foldl merge_one acc schemas)
       = foldl (keep_first Link.link_key) (link_view acc)
           (List.concat (map links schemas))
    /\ merged_satellites (foldl merge_one acc schemas)
       = merged_satellites acc ++ List.concat (map satellites schemas).
Proof.
  induction schemas as [|s schemas IH]; intros acc;
    cbn [foldl map List.concat].
  - rewrite app_nil_r. repeat split.
  - destruct (IH (merge_one acc s)) as (E1 & E2 & E3).
    destruct (merge_one_views acc s) as (V1 & V2 & V3).
    rewrite E1, E2, E3, V1, V2, V3, !foldl_app, <- app_assoc. repeat split.
Qed.

(** What [merge_schemas] returns, list by list. *)
Lemma merge_all_lists (schemas : list DataVaultSchema) :
  merged_hubs (merge_all schemas)
  = first_by_key Hub.hub_key (List.concat (map hubs schemas))
  /\ merged_links (merge_all schemas)
     = first_by_key Link.link_key (List.concat (map links schemas))
  /\ merged_satellites (merge_all schemas)
     = List.concat (map satellites schemas).
Proof.
  unfold merge_all.
  destruct (foldl_merge_one_views schemas
              {| merged_hubs := []; merged_links := [];
                 merged_satellites := [];
                 seen_hub_keys := ∅; seen_link_keys := ∅;
                 seen_satellite_keys := ∅ |}) as (E1 & E2 & E3).
  split; [|split; [|exact E3]].
  - change (merged_hubs ?a) with (hub_view a).1. rewrite E1.
    apply (foldl_keep_first_tracks Hub.hub_key _ ([], ∅) []).
    apply tracks_start.
  - change (merged_links ?a) with (link_view a).1. rewrite E2.
    apply (foldl_keep_first_tracks Link.link_key _ ([], ∅) []).
    apply tracks_start.
Qed.

Context `{Hashlib} `{Formatting}.

(** C8. [merge_schemas] keeps, for Hubs and for Links, the first occurrence
    of every key across the input schemas, in order: every key of the input
    is the key of exactly one merged record, and that record is the first
    one with that key. It concatenates the Satellites of all the schemas.
    For two schemas that each hold a Hub keyed for business key [corn] and
    the same entity type, the merged schema holds exactly one Hub with that
    key, which is the only Hub for [corn] with that type when keys tell the
    entities of the two schemas apart, and it holds the Satellites of both
    schemas. *)
Theorem merge_schemas_deduplicates
    (schemas : list DataVaultSchema) (now : Z) :
  let merged := merge_schemas schemas now in
  let all_hubs := List.concat (map hubs schemas) in
  let all_links := List.concat (map links schemas) in
  hubs merged = first_by_key Hub.hub_key all_hubs
  /\ links merged = first_by_key Link.link_key all_links
  /\ satellites merged = List.concat (map satellites schemas)
  /\ (forall k,
        count_key Hub.hub_key k (hubs merged)
        = (if mem k (map Hub.hub_key all_hubs) then 1 else 0)%nat
        /\ find (with_key Hub.hub_key k) (hubs merged)
           = find (with_key Hub.hub_key k) all_hubs)
  /\ (forall k,
        count_key Link.link_key k (links merged)
        = (if mem k (map Link.link_key all_links) then 1 else 0)%nat
        /\ find (with_key Link.link_key k) (links merged)
           = find (with_key Link.link_key k) all_links)
  /\ forall s1 s2 h1 h2 entity_type,
       schemas = [s1; s2] ->
       In h1 (hubs s1) -> In h2 (hubs s2) ->
       Hub.hub_key h1 = Hub._generate_hub_key "corn" entity_type ->
       Hub.hub_key h2 = Hub._generate_hub_key "corn" entity_type ->
       count_key Hub.hub_key (Hub._generate_hub_key "corn" entity_type)
         (hubs merged) = 1%nat
       /\ satellites merged = satellites s1 ++ satellites s2
       /\ ((forall h, In h (hubs s1 ++ hubs s2) ->
                      with_key Hub.hub_key
                        (Hub._generate_hub_key "corn" entity_type) h
                      = same_entity "corn" entity_type h) ->
           List.length (List.filter (same_entity "corn" entity_type)
                          (hubs merged)) = 1%nat).
Proof.
  intros merged all_hubs all_links.
  destruct (merge_all_lists schemas) as (Ehubs & Elinks & Esats).
  assert (Hh : hubs merged = first_by_key Hub.hub_key all_hubs)
    by exact Ehubs.
  assert (Hl : links merged = first_by_key Link.link_key all_links)
    by exact Elinks.
  assert (Hs : satellites merged = List.concat (map satellites schemas))
    by exact Esats.
  split; [exact Hh|]. split; [exact Hl|]. split; [exact Hs|].
  split; [|split].
  - intros k. rewrite Hh. split;
      [apply count_key_first_by_key | apply find_first_by_key].
  - intros k. rewrite Hl. split;
      [apply count_key_first_by_key | apply find_first_by_key].
  - intros s1 s2 h1 h2 entity_type Hschemas Hin1 Hin2 Hk1 Hk2.
    assert (Hall : all_hubs = hubs s1 ++ hubs s2).
    { subst all_hubs. rewrite Hschemas. cbn [map List.concat].
      rewrite app_nil_r. reflexivity. }
    assert (Hcount :
              count_key Hub.hub_key (Hub._generate_hub_key "corn" entity_type)
                (hubs merged) = 1%nat).
    { rewrite Hh, count_key_first_by_key.
      replace (mem _ _) with true; [reflexivity|]. symmetry.
      apply mem_In. rewrite Hall, map_app. apply in_or_app. left.
      rewrite <- Hk1. apply in_map. exact Hin1. }
    split; [exact Hcount|]. split.
    + rewrite Hs, Hschemas. cbn [map List.concat].
      rewrite app_nil_r. reflexivity.
    + intros Hkeys. rewrite <- Hcount. unfold count_key. f_equal.
      symmetry. apply filter_ext_in. intros h Hin. apply Hkeys.
      rewrite <- Hall. rewrite Hh in Hin.
      exact (first_by_key_incl Hub.hub_key _ _ Hin).
Qed.

End Merge.

(** C8, witness: two schemas that each hold a Hub for [corn] merge into a
    schema with one such Hub, the one of the first schema, and with both
    Satellites. *)
Lemma merge_schemas_deduplicates_witness :
  let merged :=
    @DataVaultGenerator.merge_schemas Sample.plain_formatting
      [Sample.corn_schema 0 "vert_fonce"; Sample.corn_schema 10 "jaune"] 20 in
  List.length
    (List.filter (DataVaultGenerator.same_entity "corn" "plante")
       (DataVaultGenerator.hubs merged)) = 1%nat
  /\ map Hub.load_date (DataVaultGenerator.hubs merged) = [0%Z]
  /\ map Satellite.attribute_value (DataVaultGenerator.satellites merged)
     = ["vert_fonce"; "jaune"].
Proof.
  intros merged.
  destruct (@merge_schemas_deduplicates Sample.plain_keys
              Sample.plain_formatting
              [Sample.corn_schema 0 "vert_fonce"; Sample.corn_schema 10 "jaune"]
              20) as (_ & _ & _ & _ & _ & Htwo).
  destruct (Htwo (Sample.corn_schema 0 "vert_fonce")
              (Sample.corn_schema 10 "jaune")
              (@Hub.new Sample.plain_keys 0 "corn" "plante" "img1.jpg"
                 "http://example.org/ontology#corn" 1)
              (@Hub.new Sample.plain_keys 10 "corn" "plante" "img1.jpg"
                 "http://example.org/ontology#corn" 1)
              "plante")
    as (_ & _ & Hone).
  - reflexivity.
  - left. reflexivity.
  - left. reflexivity.
  - reflexivity.
  - reflexivity.
  - split; [|split; reflexivity].
    apply Hone. intros h [<- | [<- | []]]; reflexivity.
Defined.

(** * Further properties *)

(** ** Similarity calculator: cache, n-grams and strategies *)

Section EmbeddingCache.
Import PyStr SimilarityCalculator SimilarityStrategies.
Context `{Ollama}.

(** X1. A successful fetch is cached: the vector returned is the one of the
    response, the cache grows by this one entry and keeps the others, and
    the next call for the same text returns the same vector without a
    request and without any change of state. *)
Theorem successful_fetch_is_cached
    (text : string) (self : state) (body : option vector) :
  _embedding_cache self !! text = None ->
  post_embeddings (requests self) text = Response 200 body ->
  let '(embedding, self1) := _get_embedding text self in
  embedding = default [] body
  /\ _get_embedding text self1 = (embedding, self1)
  /\ requests self1 = S (requests self)
  /\ get_cache_size self1 = S (get_cache_size self)
  /\ forall other, other <> text ->
       _embedding_cache self1 !! other = _embedding_cache self !! other.
Proof.
  intros Hmiss Hpost. unfold _get_embedding at 1. rewrite Hmiss, Hpost.
  cbn [Nat.eqb]. split; [reflexivity|]. split; [|split; [reflexivity|split]].
  - unfold _get_embedding. cbn [_embedding_cache].
    rewrite lookup_insert_eq. reflexivity.
  - unfold get_cache_size. cbn [_embedding_cache].
    apply map_size_insert_None. exact Hmiss.
  - intros other Hother. cbn [_embedding_cache].
    apply lookup_insert_ne. congruence.
Qed.

(** X2. A failed fetch is not cached: the cache is the same after it, so
    the next call for the same text asks the endpoint again, and when that
    request succeeds its vector is returned. *)
Theorem failed_fetch_is_retried
    (text : string) (self : state) (body : option vector) :
  _embedding_cache self !! text = None ->
  fetch_failed (post_embeddings (requests self) text) = true ->
  post_embeddings (S (requests self)) text = Response 200 body ->
  let '(first, self1) := _get_embedding text self in
  first = zeros 384
  /\ _embedding_cache self1 = _embedding_cache self
  /\ get_cache_size self1 = get_cache_size self
  /\ fst (_get_embedding text self1) = default [] body.
Proof.
  intros Hmiss Hfail Hpost.
  rewrite (failed_fetch_zero_vector text self Hmiss Hfail).
  split; [reflexivity|]. split; [reflexivity|]. split; [reflexivity|].
  unfold _get_embedding. cbn [count_request _embedding_cache requests].
  rewrite Hmiss, Hpost. reflexivity.
Qed.

(** After [clear_cache] the cache is empty and every text is fetched
    again. *)
Lemma clear_cache_forgets (text : string) (self : state) :
  get_cache_size (clear_cache self) = 0%nat
  /\ _embedding_cache (clear_cache self) !! text = None.
Proof.
  split; [apply map_size_empty | apply lookup_empty].
Qed.

End EmbeddingCache.

(** X1, witness: an endpoint that answers every text. *)
Lemma successful_fetch_is_cached_witness :
  let start :=
    {| SimilarityCalculator._embedding_cache := ∅;
       SimilarityCalculator.requests := 0 |} in
  let '(embedding, self1) :=
    @SimilarityCalculator._get_embedding Sample.endpoint_down_for_a
      "b" start in
  embedding = 1%Q :: SimilarityCalculator.zeros 383
  /\ @SimilarityCalculator._get_embedding Sample.endpoint_down_for_a
       "b" self1 = (embedding, self1).
Proof.
  intros start.
  pose proof (@successful_fetch_is_cached Sample.endpoint_down_for_a
                "b" start (Some (1%Q :: SimilarityCalculator.zeros 383))
                eq_refl eq_refl) as Hcached.
  destruct (@SimilarityCalculator._get_embedding Sample.endpoint_down_for_a
              "b" start) as [embedding self1].
  destruct Hcached as (Hemb & Hagain & _). split; [exact Hemb | exact Hagain].
Defined.

(** X2, witness: the endpoint is down for the first request only. *)
Lemma failed_fetch_is_retried_witness :
  let start :=
    {| SimilarityCalculator._embedding_cache := ∅;
       SimilarityCalculator.requests := 0 |} in
  let '(first, self1) :=
    @SimilarityCalculator._get_embedding Sample.endpoint_down_once
      "corn" start in
  first = SimilarityCalculator.zeros 384
  /\ fst (@SimilarityCalculator._get_embedding Sample.endpoint_down_once
            "corn" self1) = [1%Q; 0%Q].
Proof.
  intros start.
  pose proof (@failed_fetch_is_retried Sample.endpoint_down_once
                "corn" start (Some [1%Q; 0%Q]) eq_refl eq_refl eq_refl)
    as Hretry.
  destruct (@SimilarityCalculator._get_embedding Sample.endpoint_down_once
              "corn" start) as [first self1].
  destruct Hretry as (Hfirst & _ & _ & Hsecond).
  split; [exact Hfirst | exact Hsecond].
Defined.

Section Strategies.
Import PyStr SimilarityCalculator SimilarityStrategies.
Context `{Unidecode} `{Jellyfish} `{NumPy} `{Ollama} `{SetOrder}.

Lemma Qgt_bool_true (a b : Q) : Qgt_bool a b = true <-> (b < a)%Q.
Proof.
  unfold Qgt_bool. rewrite negb_true_iff. split.
  - intros E. apply Qnot_le_lt. intros Hle.
    apply Qle_bool_iff in Hle. congruence.
  - intros Hlt. destruct (Qle_bool a b) eqn:E; [|reflexivity].
    apply Qle_bool_iff in E. exfalso. exact (Qlt_not_le _ _ Hlt E).
Qed.

Lemma Qgt_bool_false (a b : Q) : Qgt_bool a b = false <-> (a <= b)%Q.
Proof.
  unfold Qgt_bool. rewrite negb_false_iff. apply Qle_bool_iff.
Qed.

Lemma py_min_cases (a b : Q) :
  (py_min a b = a /\ (a <= b)%Q) \/ (py_min a b = b /\ (b < a)%Q).
Proof.
  unfold py_min. destruct (Qgt_bool a b) eqn:E.
  - right. split; [reflexivity | apply Qgt_bool_true; exact E].
  - left. split; [reflexivity | apply Qgt_bool_false; exact E].
Qed.

Lemma py_max_cases (a b : Q) :
  (py_max a b = a /\ (b <= a)%Q) \/ (py_max a b = b /\ (a < b)%Q).
Proof.
  unfold py_max. destruct (Qgt_bool b a) eqn:E.
  - right. split; [reflexivity | apply Qgt_bool_true; exact E].
  - left. split; [reflexivity | apply Qgt_bool_false; exact E].
Qed.

(** A bonus keeps a score in the unit interval and does not lower it. *)
Lemma bonus_bounds (x factor : Q) :
  in_unit_interval x -> (1 <= factor)%Q ->
  in_unit_interval (py_min 1 (x * factor)) /\ (x <= py_min 1 (x * factor))%Q.
Proof.
  intros [Hlo Hhi] Hf.
  assert (Hx : (x <= x * factor)%Q).
  { rewrite <- (Qmult_1_r x) at 1.
    apply Qmult_le_compat_nonneg; split; try assumption;
      [apply Qle_refl | discriminate]. }
  destruct (py_min_cases 1 (x * factor)) as [[-> Hle] | [-> Hlt]].
  - split; [split; [discriminate | apply Qle_refl] | exact Hhi].
  - split; [split|exact Hx].
    + exact (Qle_trans _ _ _ Hlo Hx).
    + apply Qlt_le_weak. exact Hlt.
Qed.

(** A score in the unit interval stays there under the two bonuses, and
    they do not lower it. *)
Lemma boosted_bounds (jw : Q) (first second : bool) :
  in_unit_interval jw ->
  let boosted := if first then py_min 1 (jw * (11 # 10)) else jw in
  let final := if second then py_min 1 (boosted * (115 # 100)) else boosted in
  in_unit_interval final /\ (jw <= final)%Q.
Proof.
  intros Hjw boosted final.
  assert (Hfirst : in_unit_interval boosted /\ (jw <= boosted)%Q).
  { subst boosted. destruct first.
    - apply bonus_bounds; [exact Hjw | discriminate].
    - split; [exact Hjw | apply Qle_refl]. }
  destruct Hfirst as [Hy Hle]. subst final. destruct second.
  - destruct (bonus_bounds boosted (115 # 100) Hy) as [Hz Hyz];
      [discriminate|].
    split; [exact Hz | exact (Qle_trans _ _ _ Hle Hyz)].
  - split; [exact Hy | exact Hle].
Qed.

(** X3. The lexical score is 0 when one of the strings is empty. Otherwise,
    when the Jaro-Winkler score of the two strings lies in the unit
    interval, so does the lexical score, and the two bonuses never lower
    the Jaro-Winkler score. *)
Theorem lexical_similarity_bounds (s1 s2 : string) :
  in_unit_interval (jaro_winkler_similarity s1 s2) ->
  in_unit_interval (_lexical_similarity s1 s2)
  /\ (is_empty s1 || is_empty s2 = true -> _lexical_similarity s1 s2 = 0%Q)
  /\ (is_empty s1 || is_empty s2 = false ->
      (jaro_winkler_similarity s1 s2 <= _lexical_similarity s1 s2)%Q).
Proof.
  intros Hjw. unfold _lexical_similarity.
  destruct (is_empty s1 || is_empty s2) eqn:Hempty.
  { split; [split; [apply Qle_refl | discriminate]|].
    split; [reflexivity | discriminate]. }
  destruct (boosted_bounds (jaro_winkler_similarity s1 s2)
              ((3 <=? String.length s1)%nat && (3 <=? String.length s2)%nat
               && (String.prefix (take 3 s2) s1
                   || String.prefix (take 3 s1) s2))
              (contains s1 s2 || contains s2 s1) Hjw) as [Hunit Hle].
  split; [exact Hunit|]. split; [discriminate | intros _; exact Hle].
Qed.

Lemma cosine_ngram_defined (s1 s2 : string) (n : nat) :
  exists score, _cosine_ngram_similarity s1 s2 n = Some score.
Proof.
  unfold _cosine_ngram_similarity.
  destruct (is_empty s1 || is_empty s2); [eexists; reflexivity|].
  unfold _cosine_similarity.
  match goal with
  | |- context [np_dot ?v1 ?v2] =>
      destruct (np_dot_defined v1 v2) as [d Hd];
        [rewrite !length_map; reflexivity | rewrite Hd]
  end.
  destruct (_ || _); eexists; reflexivity.
Qed.

(** X4. Under the strategies that compare characters only ([lexical],
    [jaro_winkler], [cosine], [jaro_cosine]) a similarity is always
    returned, and neither the embedding cache nor the endpoint is touched:
    the calculator is left as it was. *)
Theorem lexical_strategies_are_offline
    (algorithm lemma term : string) (self : state) :
  In algorithm lexical_strategies ->
  exists score,
    calculate_similarity algorithm lemma term self = (Some score, self).
Proof.
  intros Halg. unfold calculate_similarity.
  destruct (String.eqb _ _); [eexists; reflexivity|].
  destruct Halg as [<- | [<- | [<- | [<- | []]]]]; cbn [String.eqb Ascii.eqb Bool.eqb].
  - eexists. reflexivity.
  - eexists. reflexivity.
  - destruct (cosine_ngram_defined (_normalize_string lemma)
                (_normalize_string term) 2) as [score ->].
    eexists. reflexivity.
  - destruct (cosine_ngram_defined (_normalize_string lemma)
                (_normalize_string term) 2) as [score ->].
    eexists. reflexivity.
Qed.

Lemma replace_app (old new : ascii) (a b : string) :
  replace old new (a +:+ b) = replace old new a +:+ replace old new b.
Proof.
  induction a as [|c a IH]; [reflexivity|].
  change (String c a +:+ b) with (String c (a +:+ b)).
  cbn [replace]. rewrite IH. reflexivity.
Qed.

Lemma append_assoc (a b c : string) : (a +:+ b) +:+ c = a +:+ (b +:+ c).
Proof.
  induction a as [|x a IH]; [reflexivity|].
  change ((String x a +:+ b) +:+ c) with (String x ((a +:+ b) +:+ c)).
  rewrite IH. reflexivity.
Qed.

(** The text before the white space is collapsed, piece by piece. *)
Lemma separated_cons (c : ascii) (r : string) :
  replace "-" " " (replace "_" " " (Unidec.unidecode (lower (String c r))))
  = normal_piece c
    +:+ replace "-" " " (replace "_" " " (Unidec.unidecode (lower r))).
Proof.
  unfold normal_piece. cbn [lower Unidec.unidecode].
  destruct (nat_of_ascii (lower_char c) <? 128)%nat.
  - reflexivity.
  - rewrite !replace_app. cbn [replace]. rewrite append_assoc. reflexivity.
Qed.

(** A change of characters that no piece can see leaves the normal form
    as it is. *)
Lemma normalize_map_chars (g : ascii -> ascii) (s : string) :
  (forall c, normal_piece (g c) = normal_piece c) ->
  _normalize_string (map_chars g s) = _normalize_string s.
Proof.
  intros Hg. unfold _normalize_string, _normalize_cached. do 3 f_equal.
  induction s as [|c r IH]; [reflexivity|].
  cbn [map_chars]. rewrite !separated_cons, Hg, IH. reflexivity.
Qed.

Lemma lower_map_chars (s : string) : lower s = map_chars lower_char s.
Proof.
  induction s as [|c r IH]; [reflexivity|].
  cbn [lower map_chars]. rewrite IH. reflexivity.
Qed.

Lemma replace_map_chars (old new : ascii) (s : string) :
  replace old new s
  = map_chars (fun c => if Ascii.eqb c old then new else c) s.
Proof.
  induction s as [|c r IH]; [reflexivity|].
  cbn [replace map_chars]. rewrite IH. reflexivity.
Qed.

Lemma lower_char_idempotent (c : ascii) :
  lower_char (lower_char c) = lower_char c.
Proof. destruct c as [[] [] [] [] [] [] [] []]; reflexivity. Qed.

Lemma piece_of_lower (c : ascii) :
  normal_piece (lower_char c) = normal_piece c.
Proof. unfold normal_piece. rewrite lower_char_idempotent. reflexivity. Qed.

(** Underscore, hyphen and space give the same piece. *)
Lemma piece_of_separator (old new : ascii) (c : ascii) :
  In old ["_"; "-"; " "]%char -> In new ["_"; "-"; " "]%char ->
  normal_piece (if Ascii.eqb c old then new else c) = normal_piece c.
Proof.
  intros Hold Hnew. destruct (Ascii.eqb c old) eqn:E; [|reflexivity].
  apply Ascii.eqb_eq in E. subst c.
  destruct Hold as [<- | [<- | [<- | []]]];
    destruct Hnew as [<- | [<- | [<- | []]]]; reflexivity.
Qed.

(** X5. Under every strategy a string has similarity 1.0 with itself (even
    the empty string), with its lower-case form, and with the string
    obtained by exchanging underscores, hyphens and spaces; so do any two
    strings with the same normal form. The calculator is left as it was:
    no request is sent. *)
Theorem case_and_separators_do_not_matter
    (algorithm s : string) (old new : ascii) (self : state) :
  In old ["_"; "-"; " "]%char -> In new ["_"; "-"; " "]%char ->
  calculate_similarity algorithm s s self = (Some 1%Q, self)
  /\ calculate_similarity algorithm (lower s) s self = (Some 1%Q, self)
  /\ calculate_similarity algorithm (replace old new s) s self
     = (Some 1%Q, self)
  /\ forall other, _normalize_string other = _normalize_string s ->
       calculate_similarity algorithm other s self = (Some 1%Q, self).
Proof.
  intros Hold Hnew.
  assert (Hequal : forall other,
             _normalize_string other = _normalize_string s ->
             calculate_similarity algorithm other s self = (Some 1%Q, self)).
  { intros other Hnorm. unfold calculate_similarity.
    rewrite Hnorm, String.eqb_refl. reflexivity. }
  split; [apply Hequal; reflexivity|]. split; [|split; [|exact Hequal]].
  - apply Hequal. rewrite lower_map_chars.
    apply normalize_map_chars. exact piece_of_lower.
  - apply Hequal. rewrite replace_map_chars.
    apply normalize_map_chars. intros c.
    exact (piece_of_separator old new c Hold Hnew).
Qed.

(** X6. With the lexical and the Jaro-Winkler strategies the similarity of
    two strings lies in the unit interval as soon as the Jaro-Winkler score
    of their normal forms does. *)
Theorem lexical_scores_in_unit_interval
    (algorithm lemma term : string) (self : state) :
  algorithm = "lexical" \/ algorithm = "jaro_winkler" ->
  in_unit_interval
    (jaro_winkler_similarity (_normalize_string lemma)
       (_normalize_string term)) ->
  exists score,
    fst (calculate_similarity algorithm lemma term self) = Some score
    /\ in_unit_interval score.
Proof.
  intros Halg Hjw. unfold calculate_similarity.
  destruct (String.eqb _ _).
  { exists 1%Q. split; [reflexivity|]. split; discriminate. }
  destruct Halg as [-> | ->]; cbn [String.eqb Ascii.eqb Bool.eqb fst].
  - eexists. split; [reflexivity|]. unfold _lexical_similarity.
    destruct (_ || _); [split; [apply Qle_refl | discriminate]|].
    exact (proj1 (boosted_bounds _ _ _ Hjw)).
  - eexists. split; [reflexivity|]. unfold _jaro_winkler_similarity.
    destruct (_ || _); [split; [apply Qle_refl | discriminate] | exact Hjw].
Qed.

End Strategies.

Section NGrams.
Import PyStr SimilarityStrategies.

Lemma append_length (a b : string) :
  String.length (a +:+ b) = (String.length a + String.length b)%nat.
Proof.
  induction a as [|c a IH]; [reflexivity|].
  change (String c a +:+ b) with (String c (a +:+ b)).
  cbn [String.length]. rewrite IH. reflexivity.
Qed.

Lemma substring_length (s : string) :
  forall i n, (i + n <= String.length s)%nat ->
              String.length (String.substring i n s) = n.
Proof.
  induction s as [|c s IH]; intros i n Hle.
  - cbn [String.length] in Hle.
    assert (i = 0%nat) by lia. assert (n = 0%nat) by lia. subst. reflexivity.
  - destruct i as [|i]; cbn [String.substring].
    + destruct n as [|n]; [reflexivity|]. cbn [String.length] in *.
      rewrite IH; [reflexivity | lia].
    + apply IH. cbn [String.length] in Hle. lia.
Qed.

(** X7. A text of length [L] has [L + 3 - n] n-grams (none when [n] exceeds
    [L + 2]), so [L + 1] bigrams, and every one of them has exactly [n]
    characters. *)
Theorem ngrams_shape (text : string) (n : nat) :
  List.length (_get_ngrams_cached text n) = (String.length text + 3 - n)%nat
  /\ forall gram, In gram (_get_ngrams_cached text n) ->
                  String.length gram = n.
Proof.
  unfold _get_ngrams_cached.
  assert (Hpad : String.length ("$" +:+ text +:+ "$")
                 = (String.length text + 2)%nat).
  { rewrite !append_length. cbn [String.length]. lia. }
  split.
  - rewrite length_map, length_seq, Hpad. lia.
  - intros gram Hin. apply in_map_iff in Hin.
    destruct Hin as (i & <- & Hi). apply in_seq in Hi.
    apply substring_length. lia.
Qed.

End NGrams.

(** ** Ontology matcher: what every classification guarantees *)

Section ClassifiedRecords.
Import PyStr OntologyMatcher DataVaultGenerator.
Context `{Hashlib} `{Formatting} `{Clock} `{Scorer} `{SetOrder}.
Variable self : t.
Variable image_source : string.

Local Abbreviation final lemmas reads := (phase1 self image_source lemmas reads).

(** The three lists that [classify_lemmas] returns, from the state at the
    end of phase 1. *)
Lemma classify_lemmas_unfold (lemmas : list string) (reads : nat) :
  classify_lemmas self lemmas image_source reads
  = (hubs_list (final lemmas reads),
     fst (phase2 image_source (final lemmas reads)),
     phase3 image_source (final lemmas reads)
       (satellites_list (final lemmas reads))
       (snd (phase2 image_source (final lemmas reads)))).
Proof.
  unfold classify_lemmas. destruct (phase2 _ _). reflexivity.
Qed.

(** The hub that a satellite is attached to is in the list of hubs. *)
Lemma parent_hub_in_list (l : locals) (attr_type : string) (h : Hub.t) :
  (forall h', plante_hub l = Some h' \/ probleme_hub l = Some h' ->
              In h' (hubs_list l)) ->
  parent_hub_for l attr_type = Some h -> In h (hubs_list l).
Proof.
  intros Hslots. unfold parent_hub_for.
  destruct (in_set attr_type DISEASE_SAT_TYPES
            && bool_decide (is_Some (probleme_hub l))).
  - intros Hp. apply Hslots. right. exact Hp.
  - destruct (plante_hub l) as [p|] eqn:Ep.
    + intros [= <-]. apply Hslots. left. reflexivity.
    + destruct (hubs_list l) as [|h0 r]; [discriminate|].
      intros [= <-]. left. reflexivity.
Qed.

(** Every satellite of phase 3 comes from a pending pair and hangs on the
    parent hub of its type. *)
Lemma phase3_satellite (l : locals) (pending : list (string * string)) :
  forall reads satellite,
    In satellite (phase3 image_source l pending reads) ->
    exists lemma parent k,
      In (lemma, Satellite.attribute_name satellite) pending
      /\ parent_hub_for l (Satellite.attribute_name satellite) = Some parent
      /\ satellite
         = Satellite.new (datetime_now k) (Hub.hub_key parent)
             (Satellite.attribute_name satellite) (lower lemma)
             image_source (95 # 100).
Proof.
  induction pending as [|[lemma attr] rest IH]; intros reads satellite Hin.
  - destruct Hin.
  - cbn [phase3] in Hin.
    destruct (parent_hub_for l attr) as [parent|] eqn:Ep.
    + destruct Hin as [<- | Hin].
      * exists lemma, parent, reads. cbn [Satellite.attribute_name Satellite.new].
        split; [left; reflexivity|]. split; [exact Ep | reflexivity].
      * destruct (IH _ _ Hin) as (lm & p & k & Hp & Hpar & Heq).
        exists lm, p, k. split; [right; exact Hp|]. split; assumption.
    + destruct (IH _ _ Hin) as (lm & p & k & Hp & Hpar & Heq).
      exists lm, p, k. split; [right; exact Hp|]. split; assumption.
Qed.

Lemma phase3_length (l : locals) (pending : list (string * string)) :
  forall reads,
    (List.length (phase3 image_source l pending reads)
     <= List.length pending)%nat.
Proof.
  induction pending as [|[lemma attr] rest IH]; intros reads; [apply le_n|].
  cbn [phase3 List.length]. destruct (parent_hub_for l attr).
  - cbn [List.length]. apply le_n_S. apply IH.
  - apply le_S. apply IH.
Qed.

Lemma concat_all_nil {A B} (f : A -> list B) (xs : list A) :
  (forall x, In x xs -> f x = []) -> List.concat (map f xs) = [].
Proof.
  induction xs as [|x xs IH]; intros Hall; [reflexivity|].
  cbn [map List.concat]. rewrite (Hall x) by (left; reflexivity).
  apply IH. intros y Hy. apply Hall. right. exact Hy.
Qed.

Lemma key_of_listed_hub (hubs : list Hub.t) (h : Hub.t) :
  In h hubs ->
  bool_decide (Hub.hub_key h ∈ (list_to_set (map Hub.hub_key hubs)
                                : gset string)) = true.
Proof.
  intros Hin. apply bool_decide_eq_true. apply elem_of_list_to_set.
  apply list_elem_of_In. apply in_map. exact Hin.
Qed.

(** Both ends of the Link of phase 2 and the hub of every Satellite of
    phase 3 are keys of Hubs of phase 1. *)
Lemma classified_references_resolve
    (lemmas : list string) (reads : nat)
    (metadata : list (string * py_value)) :
  referential_diagnostics
    {| hubs := hubs_list (final lemmas reads);
       links := fst (phase2 image_source (final lemmas reads));
       satellites :=
         phase3 image_source (final lemmas reads)
           (satellites_list (final lemmas reads))
           (snd (phase2 image_source (final lemmas reads)));
       metadata := metadata |} = [].
Proof.
  unfold referential_diagnostics.
  cbn [hubs links satellites].
  destruct (phase1_invariant_holds self image_source lemmas reads)
    as [_ _ _ Hslots _].
  set (l := final lemmas reads) in *.
  rewrite !concat_all_nil; [reflexivity| |].
  - intros satellite Hin. apply phase3_satellite in Hin.
    destruct Hin as (lemma & parent & k & _ & Hparent & Heq).
    unfold satellite_integrity. rewrite Heq. cbn [Satellite.hub_key Satellite.new].
    rewrite key_of_listed_hub; [reflexivity|].
    exact (parent_hub_in_list l _ parent Hslots Hparent).
  - intros link. unfold phase2.
    destruct (plante_hub l) as [p|] eqn:Ep;
      [destruct (probleme_hub l) as [q|] eqn:Eq|]; cbn [fst].
    + intros [<- | []]. unfold link_integrity.
      cbn [Link.hub_source_key Link.hub_target_key Link.new].
      rewrite !key_of_listed_hub; [reflexivity| |];
        apply Hslots; [right | left]; reflexivity.
    + intros Hin. destruct Hin.
    + intros Hin. destruct Hin.
Qed.


(** One step of phase 1 adds at most one record to the two lists. *)
Lemma step_adds_at_most_one (l : locals) (x : string) :
  (List.length (hubs_list (phase1_step self image_source l x))
   + List.length (satellites_list (phase1_step self image_source l x))
   <= S (List.length (hubs_list l) + List.length (satellites_list l)))%nat.
Proof.
  unfold phase1_step.
  destruct (_classify_lemma self x) as [s | s | s |].
  - destruct (String.eqb s "plante");
      [|destruct (mem s ["maladie"; "ravageur"])];
      cbn [hubs_list satellites_list]; rewrite ?length_app; cbn [List.length]; lia.
  - cbn [hubs_list satellites_list]. lia.
  - cbn [hubs_list satellites_list]. rewrite length_app. cbn [List.length]. lia.
  - unfold _classify_unknown_lemma.
    destruct (_find_best_match x (hub_vocabulary self) _) as [bh hs].
    destruct (truthy bh).
    + cbn [hubs_list satellites_list]. rewrite length_app. cbn [List.length]. lia.
    + destruct (_find_best_match x (satellite_vocabulary self) _) as [bs ss].
      destruct (truthy bs); [|destruct (2 <? String.length x)%nat];
        cbn [hubs_list satellites_list]; rewrite ?length_app;
        cbn [List.length]; lia.
Qed.

Lemma phase1_counts (lemmas : list string) (reads : nat) :
  (List.length (hubs_list (final lemmas reads))
   + List.length (satellites_list (final lemmas reads))
   <= List.length lemmas)%nat.
Proof.
  induction lemmas as [|x lemmas IH] using rev_ind; [apply le_n|].
  rewrite phase1_snoc, length_app. cbn [List.length].
  pose proof (step_adds_at_most_one (final lemmas reads) x). lia.
Qed.


End ClassifiedRecords.

Section Rescue.
Import PyStr SimilarityCalculator OntologyMatcher.
Context `{Hashlib} `{Clock} `{Scorer} `{SetOrder}.

(** A match returned by [find_best_match] is one of the candidates, with
    its own score, which is positive and reaches the threshold. *)
Lemma find_best_match_some (lemma : string) (terms : list string)
    (threshold : Q) (best : string) (score : Q) :
  find_best_match lemma terms threshold = (Some best, score) ->
  In best terms /\ score = calculate_similarity lemma best
  /\ (0 < score)%Q /\ (threshold <= score)%Q.
Proof.
  destruct terms as [|term rest]; [discriminate|].
  change (find_best_match lemma (term :: rest) threshold)
    with (scan lemma threshold (term :: rest) None 0).
  destruct (scan_spec lemma threshold (term :: rest) None 0)
    as [[-> _] | (pre & b & post & -> & -> & [Hpos Hth] & _)].
  - discriminate.
  - intros [= <- <-]. split; [|split; [reflexivity | split; assumption]].
    apply in_or_app. right. left. reflexivity.
Qed.

Lemma truthy_some (best : option string) (b : string) :
  truthy best = Some b -> best = Some b.
Proof.
  destruct best as [x|]; [|discriminate]. cbn [truthy].
  destruct (is_empty x); [discriminate|]. intros [= <-]. reflexivity.
Qed.


End Rescue.

Section Confidence.
Import PyStr SimilarityCalculator OntologyMatcher DataVaultGenerator.
Context `{Hashlib} `{Formatting} `{Clock} `{Scorer} `{SetOrder}.
Variable self : t.
Variable image_source : string.

Local Abbreviation unit_score := SimilarityStrategies.in_unit_interval.

(** The calculator returns scores between 0 and 1. *)
Hypothesis scores_are_bounded :
  forall a b, unit_score (calculate_similarity a b).

Lemma scan_score_bounded (lemma : string) (threshold : Q)
    (terms : list string) :
  forall best_term best_score,
    unit_score best_score ->
    unit_score (snd (scan lemma threshold terms best_term best_score)).
Proof.
  induction terms as [|term rest IH]; intros bt bs Hbs; [exact Hbs|].
  cbn [scan]. destruct (_ && _); apply IH;
    [apply scores_are_bounded | exact Hbs].
Qed.

Lemma best_match_score_bounded (lemma : string) (vocabulary : gset string)
    (threshold : Q) :
  unit_score (snd (_find_best_match lemma vocabulary threshold)).
Proof.
  assert (Hzero : unit_score 0) by (split; discriminate).
  unfold _find_best_match. destruct (bool_decide _); [exact Hzero|].
  unfold find_best_match. destruct (list_of_set vocabulary); [exact Hzero|].
  apply scan_score_bounded. exact Hzero.
Qed.

Lemma step_keeps_hub_scores_bounded (l : locals) (x : string) :
  (forall h, In h (hubs_list l) -> unit_score (Hub.confidence_score h)) ->
  forall h, In h (hubs_list (phase1_step self image_source l x)) ->
            unit_score (Hub.confidence_score h).
Proof.
  intros Hold.
  assert (Hone : unit_score 1) by (split; discriminate).
  assert (Hsnoc : forall new,
             unit_score (Hub.confidence_score new) ->
             forall h, In h (hubs_list l ++ [new]) ->
                       unit_score (Hub.confidence_score h)).
  { intros new Hnew h Hin. apply in_app_or in Hin.
    destruct Hin as [Hin | [<- | []]]; [exact (Hold h Hin) | exact Hnew]. }
  unfold phase1_step.
  destruct (_classify_lemma self x) as [s | s | s |]; try exact Hold.
  - destruct (String.eqb s "plante");
      [|destruct (mem s ["maladie"; "ravageur"])];
      cbn [hubs_list]; [apply Hsnoc | apply Hsnoc | exact Hold]; exact Hone.
  - unfold _classify_unknown_lemma.
    pose proof (best_match_score_bounded x (hub_vocabulary self)
                  (default (75 # 100) (thresholds self !! "entities")))
      as Hscore.
    destruct (_find_best_match x (hub_vocabulary self) _) as [bh hs].
    destruct (truthy bh).
    + cbn [hubs_list]. apply Hsnoc. exact Hscore.
    + destruct (_find_best_match x (satellite_vocabulary self) _) as [bs ss].
      destruct (truthy bs); [|destruct (2 <? String.length x)%nat];
        cbn [hubs_list]; exact Hold.
Qed.

Lemma hub_scores_bounded (lemmas : list string) (reads : nat) :
  forall h, In h (hubs_list (phase1 self image_source lemmas reads)) ->
            unit_score (Hub.confidence_score h).
Proof.
  induction lemmas as [|x lemmas IH] using rev_ind; [intros h []|].
  rewrite phase1_snoc. apply step_keeps_hub_scores_bounded. exact IH.
Qed.

Lemma in_bounds (score : Q) : unit_score score -> out_of_bounds score = false.
Proof.
  intros [Hlo Hhi]. unfold out_of_bounds. apply negb_false_iff.
  apply andb_true_iff. split; apply Qle_bool_iff; assumption.
Qed.

(** The confidence scores after the three phases: between 0 and 1 for the
    Hubs, 1.0 for the Links, 0.95 for the Satellites. *)
Lemma classified_scores (lemmas : list string) (reads : nat) :
  let l := phase1 self image_source lemmas reads in
  (forall h, In h (hubs_list l) -> unit_score (Hub.confidence_score h))
  /\ (forall link, In link (fst (phase2 image_source l)) ->
                   Link.confidence_score link = 1%Q)
  /\ (forall satellite,
        In satellite (phase3 image_source l (satellites_list l)
                        (snd (phase2 image_source l))) ->
        Satellite.confidence_score satellite = (95 # 100)%Q).
Proof.
  intros l. split; [exact (hub_scores_bounded lemmas reads)|]. split.
  - intros link. unfold phase2.
    destruct (plante_hub l); [destruct (probleme_hub l)|]; cbn [fst];
      intros Hin.
    + destruct Hin as [<- | []]. reflexivity.
    + destruct Hin.
    + destruct Hin.
  - intros satellite Hin. apply phase3_satellite in Hin.
    destruct Hin as (lemma & parent & k & _ & _ & ->). reflexivity.
Qed.


End Confidence.

Section Attachment.
Import PyStr OntologyMatcher.
Context `{Hashlib} `{Formatting} `{Clock} `{Scorer} `{SetOrder}.
Variable self : t.
Variable image_source : string.

Lemma symptom_type (attr_type : string) :
  in_set attr_type DISEASE_SAT_TYPES = true <-> attr_type = "symptome".
Proof.
  rewrite in_set_true. unfold DISEASE_SAT_TYPES.
  rewrite elem_of_list_to_set, list_elem_of_In. cbn [In]. split.
  - intros [<- | []]. reflexivity.
  - intros ->. left. reflexivity.
Qed.

Lemma problem_sub_type_unique (lemma s1 s2 : string) :
  is_problem_of self s1 lemma -> is_problem_of self s2 lemma -> s1 = s2.
Proof. intros [E1 _] [E2 _]. congruence. Qed.

Lemma step_pending (lemmas : list string) (l : locals) (x : string) :
  (forall pair, In pair (satellites_list l) -> pending_origin self lemmas pair) ->
  forall pair,
    In pair (satellites_list (phase1_step self image_source l x)) ->
    pending_origin self (lemmas ++ [x]) pair.
Proof.
  intros Hold.
  assert (Hkeep : forall pair, In pair (satellites_list l) ->
                               pending_origin self (lemmas ++ [x]) pair).
  { intros pair Hin. destruct (Hold pair Hin) as [Hl Hc].
    split; [apply in_or_app; left; exact Hl | exact Hc]. }
  assert (Hsnoc : forall kind,
             _classify_lemma self x = OntologyMatcher.satellite kind
             \/ _classify_lemma self x = unknown ->
             forall pair, In pair (satellites_list l ++ [(x, kind)]) ->
                          pending_origin self (lemmas ++ [x]) pair).
  { intros kind Hkind pair Hin. apply in_app_or in Hin.
    destruct Hin as [Hin | [<- | []]]; [exact (Hkeep pair Hin)|].
    split; [apply in_or_app; right; left; reflexivity | exact Hkind]. }
  unfold phase1_step.
  destruct (_classify_lemma self x) as [s | s | s |] eqn:E.
  - destruct (String.eqb s "plante");
      [|destruct (mem s ["maladie"; "ravageur"])];
      cbn [satellites_list]; exact Hkeep.
  - cbn [satellites_list]. exact Hkeep.
  - cbn [satellites_list]. apply Hsnoc. left. reflexivity.
  - unfold _classify_unknown_lemma.
    destruct (_find_best_match x (hub_vocabulary self) _) as [bh hs].
    destruct (truthy bh).
    + cbn [satellites_list]. exact Hkeep.
    + destruct (_find_best_match x (satellite_vocabulary self) _) as [bs ss].
      destruct (truthy bs); [|destruct (2 <? String.length x)%nat];
        cbn [satellites_list];
        [apply Hsnoc; right; reflexivity
        |apply Hsnoc; right; reflexivity
        |exact Hkeep].
Qed.

Lemma phase1_pending (lemmas : list string) (reads : nat) :
  forall pair,
    In pair (satellites_list (phase1 self image_source lemmas reads)) ->
    pending_origin self lemmas pair.
Proof.
  induction lemmas as [|x lemmas IH] using rev_ind; [intros pair []|].
  rewrite phase1_snoc. apply step_pending. exact IH.
Qed.


End Attachment.

Section CaseAndSpace.
Import PyStr OntologyMatcher.

Lemma isspace_lower (c : ascii) : isspace (lower_char c) = isspace c.
Proof. destruct c as [[] [] [] [] [] [] [] []]; reflexivity. Qed.

Lemma lower_lstrip (s : string) : lstrip (lower s) = lower (lstrip s).
Proof.
  induction s as [|c r IH]; [reflexivity|].
  cbn [lower lstrip]. rewrite isspace_lower.
  destruct (isspace c); [exact IH | reflexivity].
Qed.

Lemma lower_rstrip (s : string) : rstrip (lower s) = lower (rstrip s).
Proof.
  induction s as [|c r IH]; [reflexivity|].
  cbn [lower rstrip]. rewrite IH, isspace_lower.
  destruct (rstrip r); cbn [lower]; [destruct (isspace c)|]; reflexivity.
Qed.

Lemma lower_idempotent (s : string) : lower (lower s) = lower s.
Proof.
  induction s as [|c r IH]; [reflexivity|].
  cbn [lower]. rewrite IH, lower_char_idempotent. reflexivity.
Qed.

Lemma rstrip_idempotent (s : string) : rstrip (rstrip s) = rstrip s.
Proof.
  induction s as [|c r IH]; [reflexivity|].
  cbn [rstrip]. destruct (rstrip r) as [|d r'] eqn:E.
  - destruct (isspace c) eqn:Ec; [reflexivity|].
    cbn [rstrip]. rewrite Ec. reflexivity.
  - cbn [rstrip]. cbn [rstrip] in IH. rewrite IH. reflexivity.
Qed.

(** A string that does not start with white space. *)
Lemma lstrip_fixed (s : string) :
  match s with EmptyString => True | String c _ => isspace c = false end ->
  lstrip s = s.
Proof. destruct s as [|c r]; [reflexivity|]. cbn [lstrip]. intros ->. reflexivity. Qed.

Lemma lstrip_starts (s : string) :
  match lstrip s with
  | EmptyString => True
  | String c _ => isspace c = false
  end.
Proof.
  induction s as [|c r IH]; [exact I|]. cbn [lstrip].
  destruct (isspace c) eqn:E; [exact IH | exact E].
Qed.

Lemma rstrip_starts (s : string) :
  match s with EmptyString => True | String c _ => isspace c = false end ->
  match rstrip s with
  | EmptyString => True
  | String c _ => isspace c = false
  end.
Proof.
  destruct s as [|c r]; [intros _; exact I|]. intros Hc. cbn [rstrip].
  destruct (rstrip r); [rewrite Hc|]; exact Hc.
Qed.

Lemma strip_idempotent (s : string) : strip (strip s) = strip s.
Proof.
  unfold strip.
  rewrite (lstrip_fixed (rstrip (lstrip s)))
    by (apply rstrip_starts, lstrip_starts).
  apply rstrip_idempotent.
Qed.

Lemma lower_strip (s : string) : strip (lower s) = lower (strip s).
Proof. unfold strip. rewrite lower_lstrip, lower_rstrip. reflexivity. Qed.

(** X13. The direct lookup ignores letter case and surrounding white
    space: a lemma, its lower-case form, its stripped form and its
    normalised form are all classified in the same way. *)
Theorem classification_ignores_case_and_margins (self : t) (lemma : string) :
  _classify_lemma self (lower lemma) = _classify_lemma self lemma
  /\ _classify_lemma self (strip lemma) = _classify_lemma self lemma
  /\ _classify_lemma self (strip (lower lemma)) = _classify_lemma self lemma.
Proof.
  assert (E1 : strip (lower (lower lemma)) = strip (lower lemma))
    by (rewrite lower_idempotent; reflexivity).
  assert (E2 : strip (lower (strip lemma)) = strip (lower lemma))
    by (rewrite !lower_strip, strip_idempotent; reflexivity).
  assert (E3 : strip (lower (strip (lower lemma))) = strip (lower lemma)).
  { rewrite (lower_strip (strip (lower lemma))), strip_idempotent.
    rewrite (lower_strip lemma), lower_idempotent. reflexivity. }
  unfold _classify_lemma. rewrite E1, E2, E3. repeat split.
Qed.

End CaseAndSpace.

(** ** Data Vault generator: what validation accepts *)

Section WellFormed.
Import PyStr DataVaultGenerator.
Context `{Formatting}.

Lemma size_list_to_set_cons (x : string) (l : list string) :
  size (list_to_set (x :: l) : gset string)
  = if bool_decide (x ∈ l) then size (list_to_set l : gset string)
    else S (size (list_to_set l : gset string)).
Proof.
  cbn [list_to_set]. case_bool_decide as Hx.
  - assert (E : ({[x]} ∪ list_to_set l : gset string) = list_to_set l).
    { apply subseteq_union_1_L, singleton_subseteq_l, elem_of_list_to_set.
      exact Hx. }
    rewrite E. reflexivity.
  - rewrite size_union.
    + rewrite size_singleton. reflexivity.
    + intros y Hy1 Hy2. apply elem_of_singleton in Hy1. subst y.
      apply elem_of_list_to_set in Hy2. exact (Hx Hy2).
Qed.

Lemma size_list_to_set_le (l : list string) :
  (size (list_to_set l : gset string) <= List.length l)%nat.
Proof.
  induction l as [|x l IH]; [rewrite list_to_set_nil, size_empty; lia|].
  rewrite size_list_to_set_cons. cbn [List.length].
  destruct (bool_decide _); lia.
Qed.

(** [len(keys) != len(set(keys))] fails exactly on the lists without
    repetition. *)
Lemma has_duplicates_false (keys : list string) :
  has_duplicates keys = false <-> NoDup keys.
Proof.
  unfold has_duplicates. rewrite negb_false_iff, Nat.eqb_eq.
  induction keys as [|x l IH].
  - split; [intros _; constructor | reflexivity].
  - rewrite size_list_to_set_cons. cbn [List.length].
    pose proof (size_list_to_set_le l) as Hle.
    case_bool_decide as Hx; split.
    + intros E. lia.
    + intros Hnd. apply NoDup_cons in Hnd. destruct Hnd as [Hnot _].
      destruct (Hnot Hx).
    + intros E. apply NoDup_cons. split; [exact Hx | apply IH; lia].
    + intros Hnd. apply NoDup_cons in Hnd. destruct Hnd as [_ Hnd].
      apply IH in Hnd. lia.
Qed.

Lemma key_uniqueness_accepts (w : world) :
  fst (_check_key_uniqueness w) = []
  <-> NoDup (map Hub.hub_key (hubs (the_schema w)))
      /\ NoDup (map Link.link_key (links (the_schema w)))
      /\ NoDup (map Satellite.satellite_key (satellites (the_schema w))).
Proof.
  rewrite <- !has_duplicates_false.
  unfold _check_key_uniqueness, bind, attr, ret. cbn [fst].
  destruct (has_duplicates (map Hub.hub_key _));
    destruct (has_duplicates (map Link.link_key _));
    destruct (has_duplicates (map Satellite.satellite_key _));
    cbn [app]; split; try discriminate; try tauto;
    intros (? & ? & ?); discriminate.
Qed.

Lemma concat_map_nil {A B} (f : A -> list B) (xs : list A) :
  List.concat (map f xs) = [] <-> forall x, In x xs -> f x = [].
Proof.
  induction xs as [|x xs IH]; cbn [map List.concat].
  - split; [intros _ x [] | reflexivity].
  - split.
    + intros E. apply app_eq_nil in E. destruct E as [E1 E2].
      intros y [<- | Hy]; [exact E1 | exact (proj1 IH E2 y Hy)].
    + intros Hall. rewrite (Hall x (or_introl eq_refl)). cbn [app].
      apply IH. intros y Hy. apply Hall. right. exact Hy.
Qed.

Lemma known_key (s : DataVaultSchema) (k : string) :
  k ∈ (list_to_set (map Hub.hub_key (hubs s)) : gset string)
  <-> In k (map Hub.hub_key (hubs s)).
Proof. rewrite elem_of_list_to_set. apply list_elem_of_In. Qed.

Lemma referential_integrity_accepts (s : DataVaultSchema) :
  referential_diagnostics s = []
  <-> (forall link, In link (links s) ->
         In (Link.hub_source_key link) (map Hub.hub_key (hubs s))
         /\ In (Link.hub_target_key link) (map Hub.hub_key (hubs s)))
      /\ (forall satellite, In satellite (satellites s) ->
            In (Satellite.hub_key satellite) (map Hub.hub_key (hubs s))).
Proof.
  unfold referential_diagnostics. split.
  - intros E. apply app_eq_nil in E. destruct E as [E1 E2].
    rewrite concat_map_nil in E1. rewrite concat_map_nil in E2. split.
    + intros link Hin. specialize (E1 link Hin). unfold link_integrity in E1.
      apply app_eq_nil in E1. destruct E1 as [Es Et].
      split; apply known_key.
      * destruct (bool_decide _) eqn:D in Es; [|discriminate Es].
        apply bool_decide_eq_true in D. exact D.
      * destruct (bool_decide _) eqn:D in Et; [|discriminate Et].
        apply bool_decide_eq_true in D. exact D.
    + intros satellite Hin. specialize (E2 satellite Hin).
      unfold satellite_integrity in E2. apply known_key.
      destruct (bool_decide _) eqn:D in E2; [|discriminate E2].
      apply bool_decide_eq_true in D. exact D.
  - intros [Hlinks Hsats].
    assert (E1 : List.concat
                   (map (link_integrity (list_to_set (map Hub.hub_key (hubs s))))
                      (links s)) = []).
    { apply concat_map_nil. intros link Hin.
      destruct (Hlinks link Hin) as [Hs Ht]. unfold link_integrity.
      rewrite !bool_decide_eq_true_2 by (apply known_key; assumption).
      reflexivity. }
    assert (E2 : List.concat
                   (map (satellite_integrity
                           (list_to_set (map Hub.hub_key (hubs s))))
                      (satellites s)) = []).
    { apply concat_map_nil. intros satellite Hin.
      unfold satellite_integrity.
      rewrite bool_decide_eq_true_2
        by (apply known_key, Hsats; assumption).
      reflexivity. }
    rewrite E1, E2. reflexivity.
Qed.

Lemma out_of_bounds_false (score : Q) :
  out_of_bounds score = false <-> valid_score score.
Proof.
  unfold out_of_bounds, valid_score.
  rewrite negb_false_iff, andb_true_iff, !Qle_bool_iff. reflexivity.
Qed.

Lemma flagged_nil (score : Q) (text : string) :
  (if out_of_bounds score then [text] else []) = [] <-> valid_score score.
Proof.
  rewrite <- out_of_bounds_false.
  destruct (out_of_bounds score); split; try discriminate; reflexivity.
Qed.

Lemma confidence_scores_accept (w : world) :
  fst (_check_confidence_scores w) = []
  <-> (forall hub, In hub (hubs (the_schema w)) ->
         valid_score (Hub.confidence_score hub))
      /\ (forall link, In link (links (the_schema w)) ->
            valid_score (Link.confidence_score link))
      /\ (forall satellite, In satellite (satellites (the_schema w)) ->
            valid_score (Satellite.confidence_score satellite)).
Proof.
  unfold _check_confidence_scores, bind, attr, ret. cbn [fst].
  split.
  - intros E. apply app_eq_nil in E. destruct E as [E E3].
    apply app_eq_nil in E. destruct E as [E1 E2].
    rewrite concat_map_nil in E1. rewrite concat_map_nil in E2.
    rewrite concat_map_nil in E3.
    split; [|split]; intros x Hin.
    + exact (proj1 (flagged_nil _ _) (E1 x Hin)).
    + exact (proj1 (flagged_nil _ _) (E2 x Hin)).
    + exact (proj1 (flagged_nil _ _) (E3 x Hin)).
  - intros (H1 & H2 & H3).
    match goal with
    | |- (?a ++ ?b) ++ ?c = [] =>
        assert (E1 : a = []); [|assert (E2 : b = []); [|assert (E3 : c = [])]]
    end.
    + apply concat_map_nil. intros x Hin.
      apply flagged_nil. exact (H1 x Hin).
    + apply concat_map_nil. intros x Hin.
      apply flagged_nil. exact (H2 x Hin).
    + apply concat_map_nil. intros x Hin.
      apply flagged_nil. exact (H3 x Hin).
    + rewrite E1, E2, E3. reflexivity.
Qed.

(** The loop over the pairs finds nothing exactly when the pairs are
    distinct and none was seen before. *)
Lemma duplicate_pair_false (ls : list Link.t)
    (link_pairs : gset (string * string)) :
  duplicate_pair ls link_pairs = false
  <-> NoDup (map link_pair ls)
      /\ forall link, In link ls -> link_pair link ∉ link_pairs.
Proof.
  revert link_pairs. induction ls as [|link rest IH]; intros seen.
  - split; [intros _; split; [constructor | intros x []] | reflexivity].
  - cbn [duplicate_pair map]. fold (link_pair link).
    case_bool_decide as Hseen.
    + split; [discriminate|]. intros [_ Hall].
      destruct (Hall link (or_introl eq_refl) Hseen).
    + rewrite IH. split.
      * intros [Hnd Hall]. split.
        -- apply NoDup_cons. split; [|exact Hnd].
           intros Hin. apply list_elem_of_In, in_map_iff in Hin.
           destruct Hin as (other & Heq & Hother).
           apply (Hall other Hother). rewrite Heq.
           apply elem_of_union_r, elem_of_singleton. reflexivity.
        -- intros x [<- | Hx]; [exact Hseen|].
           intros Hin. apply (Hall x Hx), elem_of_union_l. exact Hin.
      * intros [Hnd Hall]. apply NoDup_cons in Hnd.
        destruct Hnd as [Hnot Hnd]. split; [exact Hnd|].
        intros x Hx Hin. apply elem_of_union in Hin.
        destruct Hin as [Hin | Hin].
        -- exact (Hall x (or_intror Hx) Hin).
        -- apply elem_of_singleton in Hin. apply Hnot.
           rewrite <- Hin. apply list_elem_of_In, in_map. exact Hx.
Qed.

Lemma single_nil (b : bool) (x : string) :
  (if b then [x] else []) = [] <-> b = false.
Proof. destruct b; split; try discriminate; reflexivity. Qed.

(** The three constraints, one after the other. *)
Lemma structural_constraints_result (w : world) :
  fst (_check_structural_constraints w)
  = let num_hubs := List.length (hubs (the_schema w)) in
    let num_links := List.length (links (the_schema w)) in
    (if (num_hubs =? 0)%nat
     then [u8 "WARNING: Aucun Hub détecté. Au moins une plante devrait être identifiée."]
     else [])
    ++ (if (0 <? num_links)%nat && (num_hubs <? 2)%nat
        then ["WARNING: " +:+ pretty num_links
              +:+ u8 " Link(s) détecté(s) mais seulement "
              +:+ pretty num_hubs
              +:+ u8 " Hub(s). Un Link nécessite 2 Hubs."]
        else [])
    ++ (if (1 <? num_links)%nat && duplicate_pair (links (the_schema w)) ∅
        then [u8 "WARNING: Links en double détectés entre les mêmes Hubs."]
        else []).
Proof.
  unfold _check_structural_constraints, bind, attr, ret. cbv zeta.
  destruct (List.length (hubs (the_schema w)) =? 0)%nat;
    destruct ((0 <? List.length (links (the_schema w)))%nat
              && (List.length (hubs (the_schema w)) <? 2)%nat);
    destruct (1 <? List.length (links (the_schema w)))%nat;
    cbv beta iota; try destruct (duplicate_pair _ _); reflexivity.
Qed.

Lemma structural_constraints_accept (w : world) :
  fst (_check_structural_constraints w) = []
  <-> hubs (the_schema w) <> []
      /\ (links (the_schema w) <> [] ->
          (2 <= List.length (hubs (the_schema w)))%nat)
      /\ NoDup (map link_pair (links (the_schema w))).
Proof.
  rewrite structural_constraints_result. cbv zeta.
  set (hs := hubs (the_schema w)). set (ls := links (the_schema w)).
  assert (Hpairs : (List.length ls <= 1)%nat -> NoDup (map link_pair ls)).
  { destruct ls as [|l1 [|l2 r]]; cbn [List.length map]; intros Hle.
    - constructor.
    - apply NoDup_cons. split; [apply not_elem_of_nil | constructor].
    - lia. }
  assert (Hscan : duplicate_pair ls ∅ = false <-> NoDup (map link_pair ls)).
  { rewrite duplicate_pair_false. split; [intros [Hnd _]; exact Hnd|].
    intros Hnd. split; [exact Hnd|]. intros x _. apply not_elem_of_empty. }
  assert (H0 : (List.length hs =? 0)%nat = false <-> hs <> []).
  { rewrite Nat.eqb_neq. destruct hs; cbn [List.length]; split;
      try congruence; try lia; intros _; discriminate. }
  assert (H1 : (0 <? List.length ls)%nat && (List.length hs <? 2)%nat = false
               <-> (ls <> [] -> (2 <= List.length hs)%nat)).
  { rewrite andb_false_iff, !Nat.ltb_ge.
    destruct ls as [|l1 r]; cbn [List.length]; split.
    - intros _ Hne. congruence.
    - intros _. left. lia.
    - intros [Hle | Htwo] _; [lia | exact Htwo].
    - intros Htwo. right. apply Htwo. discriminate. }
  assert (H2 : (1 <? List.length ls)%nat && duplicate_pair ls ∅ = false
               <-> NoDup (map link_pair ls)).
  { rewrite andb_false_iff, Nat.ltb_ge, Hscan. split.
    - intros [Hle | Hnd]; [exact (Hpairs Hle) | exact Hnd].
    - intros Hnd. right. exact Hnd. }
  rewrite <- H0, <- H1, <- H2. split.
  - intros E. apply app_eq_nil in E. destruct E as [E0 E].
    apply app_eq_nil in E. destruct E as [E1 E2].
    apply single_nil in E0, E1, E2. auto.
  - intros (E0 & E1 & E2). rewrite E0, E1, E2. reflexivity.
Qed.

(** X14. [validate_schema] returns the empty list exactly for the schemas
    in which the Hub keys, the Link keys and the Satellite keys are
    distinct, every Link and every Satellite refers to the key of a Hub,
    every confidence score lies between 0 and 1, there is at least one
    Hub, there are at least two Hubs when there is a Link, and no two
    Links join the same ordered pair of Hubs. *)
Theorem validate_schema_accepts_the_well_formed (w : world) :
  fst (validate_schema w) = [] <-> well_formed (the_schema w).
Proof.
  rewrite validate_schema_diagnostics.
  pose proof (key_uniqueness_accepts w) as K.
  pose proof (referential_integrity_accepts (the_schema w)) as R.
  pose proof (confidence_scores_accept w) as C.
  pose proof (structural_constraints_accept w) as S.
  split.
  - intros E. apply app_eq_nil in E. destruct E as [E1 E].
    apply app_eq_nil in E. destruct E as [E2 E].
    apply app_eq_nil in E. destruct E as [E3 E4].
    destruct (proj1 K E1) as (K1 & K2 & K3).
    destruct (proj1 R E2) as (R1 & R2).
    destruct (proj1 C E3) as (C1 & C2 & C3).
    destruct (proj1 S E4) as (S1 & S2 & S3).
    constructor; try assumption; intros link Hin; apply (R1 link Hin).
  - intros [K1 K2 K3 R1 R1' R2 C1 C2 C3 S1 S2 S3].
    rewrite (proj2 K), (proj2 R), (proj2 C), (proj2 S); auto.
Qed.

Lemma key_uniqueness_classes (w : world) (d : string) :
  In d (fst (_check_key_uniqueness w)) ->
  is_error d = true /\ is_warning d = false.
Proof.
  unfold _check_key_uniqueness, bind, attr, ret. cbn [fst].
  destruct (has_duplicates (map Hub.hub_key _));
    destruct (has_duplicates (map Link.link_key _));
    destruct (has_duplicates (map Satellite.satellite_key _));
    cbn [app In]; intros Hin;
    repeat (destruct Hin as [<- | Hin]; [split; reflexivity|]);
    destruct Hin.
Qed.

Lemma referential_integrity_classes (s : DataVaultSchema) (d : string) :
  In d (referential_diagnostics s) ->
  is_error d = false /\ is_warning d = true.
Proof.
  unfold referential_diagnostics. intros Hin. apply in_app_or in Hin.
  destruct Hin as [Hin | Hin]; apply in_concat in Hin;
    destruct Hin as (ds & Hds & Hd); apply in_map_iff in Hds;
    destruct Hds as (x & <- & _).
  - unfold link_integrity in Hd. apply in_app_or in Hd.
    destruct Hd as [Hd | Hd]; revert Hd; destruct (bool_decide _);
      intros Hd; try (destruct Hd; fail);
      destruct Hd as [<- | Hd]; try (destruct Hd; fail); split; reflexivity.
  - unfold satellite_integrity in Hd. revert Hd. destruct (bool_decide _);
      intros Hd; try (destruct Hd; fail);
      destruct Hd as [<- | Hd]; try (destruct Hd; fail); split; reflexivity.
Qed.

Lemma flagged_classes (b : bool) (text d : string) :
  is_error text = false -> is_warning text = true ->
  In d (if b then [text] else []) ->
  is_error d = false /\ is_warning d = true.
Proof.
  intros He Hw. destruct b; [|intros []].
  intros [<- | []]. split; assumption.
Qed.

Lemma confidence_scores_classes (w : world) (d : string) :
  In d (fst (_check_confidence_scores w)) ->
  is_error d = false /\ is_warning d = true.
Proof.
  unfold _check_confidence_scores, bind, attr, ret. cbn [fst].
  intros Hin. apply in_app_or in Hin.
  destruct Hin as [Hin | Hin]; [apply in_app_or in Hin; destruct Hin as [Hin | Hin]|];
    apply in_concat in Hin; destruct Hin as (ds & Hds & Hd);
    apply in_map_iff in Hds; destruct Hds as (x & <- & _);
    revert Hd; apply flagged_classes; reflexivity.
Qed.

Lemma structural_constraints_classes (w : world) (d : string) :
  In d (fst (_check_structural_constraints w)) ->
  is_error d = false /\ is_warning d = true.
Proof.
  rewrite structural_constraints_result. cbv zeta. intros Hin.
  apply in_app_or in Hin.
  destruct Hin as [Hin | Hin];
    [|apply in_app_or in Hin; destruct Hin as [Hin | Hin]];
    revert Hin; apply flagged_classes; reflexivity.
Qed.

(** X15. Every diagnostic of [validate_schema] starts with [ERREUR] or
    with [WARNING], never with both. The ones that start with [ERREUR]
    come from the key uniqueness check: none is returned when the Hub
    keys, the Link keys and the Satellite keys are distinct. Dangling
    references, scores out of bounds and structural anomalies are
    warnings. *)
Theorem diagnostics_are_errors_or_warnings (w : world) (d : string) :
  In d (fst (validate_schema w)) ->
  if is_error d
  then is_warning d = false
       /\ In d (fst (_check_key_uniqueness w))
       /\ ~ (NoDup (map Hub.hub_key (hubs (the_schema w)))
             /\ NoDup (map Link.link_key (links (the_schema w)))
             /\ NoDup (map Satellite.satellite_key
                         (satellites (the_schema w))))
  else is_warning d = true.
Proof.
  rewrite validate_schema_diagnostics. intros Hin.
  apply in_app_or in Hin. destruct Hin as [Hin | Hin].
  - destruct (key_uniqueness_classes w d Hin) as [-> Hw].
    split; [exact Hw|]. split; [exact Hin|].
    intros Hdistinct. apply key_uniqueness_accepts in Hdistinct.
    rewrite Hdistinct in Hin. destruct Hin.
  - apply in_app_or in Hin. destruct Hin as [Hin | Hin].
    + destruct (referential_integrity_classes _ d Hin) as [-> Hw]. exact Hw.
    + apply in_app_or in Hin. destruct Hin as [Hin | Hin].
      * destruct (confidence_scores_classes w d Hin) as [-> Hw]. exact Hw.
      * destruct (structural_constraints_classes w d Hin) as [-> Hw].
        exact Hw.
Qed.

Lemma for_each_print (errors : list string) (w : world) :
  for_each errors (fun error => print (Problem_line error)) w
  = (tt, {| the_schema := the_schema w;
            stdout := stdout w ++ map Problem_line errors |}).
Proof.
  revert w. induction errors as [|e errors IH]; intros w.
  - cbn [for_each map]. rewrite app_nil_r. destruct w. reflexivity.
  - cbn [for_each map]. unfold bind, print at 1. rewrite IH.
    cbn [the_schema stdout]. rewrite <- app_assoc. reflexivity.
Qed.

Lemma report_printed (errors : list string) (w : world) :
  snd (match errors with
       | [] => print Schema_valid
       | _ => run print (Validation_problems (List.length errors)) in
              for_each errors (fun error => print (Problem_line error))
       end w)
  = {| the_schema := the_schema w; stdout := stdout w ++ report errors |}.
Proof.
  destruct errors as [|e errors]; [reflexivity|].
  unfold bind.
  change (print ?line w)
    with (tt, {| the_schema := the_schema w; stdout := stdout w ++ [line] |}).
  cbv beta iota. rewrite for_each_print. cbn [snd the_schema stdout].
  rewrite <- app_assoc. reflexivity.
Qed.

(** The world after a validation: the schema object as it was, and the
    report after what had been printed. *)
Lemma validate_schema_world (w : world) :
  snd (validate_schema w)
  = {| the_schema := the_schema w;
       stdout := stdout w ++ report (fst (validate_schema w)) |}.
Proof.
  rewrite validate_schema_diagnostics. unfold validate_schema, bind.
  pose proof (key_uniqueness_silent w) as S1.
  destruct (_check_key_uniqueness w) as [e1 w1]. cbn [snd] in S1. subst w1.
  rewrite referential_integrity_result.
  pose proof (confidence_scores_silent w) as S3.
  destruct (_check_confidence_scores w) as [e3 w3]. cbn [snd] in S3. subst w3.
  pose proof (structural_constraints_silent w) as S4.
  destruct (_check_structural_constraints w) as [e4 w4].
  cbn [snd] in S4. subst w4. cbn [fst].
  set (errors := e1 ++ referential_diagnostics (the_schema w) ++ e3 ++ e4).
  match goal with
  | |- snd (let '(_, _) := ?m in _) = _ =>
      pose proof (report_printed errors w : snd m = _) as P; destruct m
  end.
  cbn [snd] in P. subst. reflexivity.
Qed.

Lemma diagnostics_depend_on_the_schema (w w' : world) :
  the_schema w = the_schema w' ->
  fst (validate_schema w) = fst (validate_schema w').
Proof.
  intros Hs. rewrite !validate_schema_diagnostics.
  rewrite !structural_constraints_result.
  unfold _check_key_uniqueness, _check_confidence_scores, bind, attr, ret.
  cbn [fst]. rewrite Hs. reflexivity.
Qed.

(** X16. [validate_schema] prints what it returns and nothing else: the
    single line for a valid schema when it returns no diagnostic, else a
    header with the number of diagnostics followed by one line per
    diagnostic, in order. What was on standard output does not matter: a
    second validation returns the same diagnostics and prints the same
    report again. *)
Theorem validate_schema_reports_its_diagnostics (w : world) :
  let '(errors, w1) := validate_schema w in
  let '(errors', w2) := validate_schema w1 in
  stdout w1 = stdout w ++ report errors
  /\ errors' = errors
  /\ stdout w2 = stdout w1 ++ report errors
  /\ (errors = [] -> report errors = [Schema_valid])
  /\ (errors <> [] ->
      report errors
      = Validation_problems (List.length errors) :: map Problem_line errors).
Proof.
  pose proof (validate_schema_world w) as Hw1.
  destruct (validate_schema w) as [errors w1] eqn:E1.
  cbn [fst snd] in Hw1.
  pose proof (validate_schema_world w1) as Hw2.
  assert (Hsame : fst (validate_schema w1) = errors).
  { change errors with (fst (errors, w1)). rewrite <- E1.
    apply diagnostics_depend_on_the_schema. rewrite Hw1. reflexivity. }
  destruct (validate_schema w1) as [errors' w2].
  cbn [fst snd] in Hw2, Hsame. subst errors'.
  split; [rewrite Hw1; reflexivity|]. split; [reflexivity|].
  split; [rewrite Hw2; reflexivity|].
  split.
  - intros ->. reflexivity.
  - destruct errors; [congruence | reflexivity].
Qed.

End WellFormed.

(** ** Data Vault generator: merged schemas *)

Section FirstByKey.
Import PyStr DataVaultGenerator.
Context {A : Type}.
Variable key : A -> string.

Lemma filter_other_keys (x : A) (xs : list A) :
  ~ In (key x) (map key xs) ->
  List.filter (fun y => negb (String.eqb (key y) (key x))) xs = xs.
Proof.
  induction xs as [|y ys IH]; [reflexivity|]. cbn [map In List.filter].
  intros Hnot. destruct (String.eqb (key y) (key x)) eqn:E.
  - apply String.eqb_eq in E. destruct Hnot. left. exact E.
  - cbn [negb]. rewrite IH; [reflexivity|]. intros Hin. apply Hnot.
    right. exact Hin.
Qed.

(** Deduplication leaves a list without repeated keys as it is. *)
Lemma first_by_key_fixed (xs : list A) :
  NoDup (map key xs) -> first_by_key key xs = xs.
Proof.
  induction xs as [|x xs IH]; [reflexivity|]. cbn [map first_by_key].
  intros Hnd. apply NoDup_cons in Hnd. destruct Hnd as [Hnot Hnd].
  rewrite (IH Hnd), filter_other_keys; [reflexivity|].
  intros Hin. apply Hnot, list_elem_of_In. exact Hin.
Qed.

Lemma keys_after_filter (p : A -> bool) (xs : list A) :
  NoDup (map key xs) -> NoDup (map key (List.filter p xs)).
Proof.
  induction xs as [|x xs IH]; [intros _; constructor|].
  cbn [map List.filter]. intros Hnd. apply NoDup_cons in Hnd.
  destruct Hnd as [Hnot Hnd]. destruct (p x); [|exact (IH Hnd)].
  cbn [map]. apply NoDup_cons. split; [|exact (IH Hnd)].
  intros Hin. apply Hnot. apply list_elem_of_In in Hin.
  apply list_elem_of_In. apply in_map_iff in Hin.
  destruct Hin as (y & Hy & Hin). apply filter_In in Hin.
  apply in_map_iff. exists y. split; [exact Hy | apply Hin].
Qed.

(** After deduplication no key is repeated. *)
Lemma first_by_key_distinct (xs : list A) :
  NoDup (map key (first_by_key key xs)).
Proof.
  induction xs as [|x xs IH]; [constructor|]. cbn [first_by_key map].
  apply NoDup_cons. split; [|apply keys_after_filter; exact IH].
  intros Hin. apply list_elem_of_In, in_map_iff in Hin.
  destruct Hin as (y & Hy & Hin). apply filter_In in Hin.
  destruct Hin as [_ Hp]. rewrite Hy, String.eqb_refl in Hp. discriminate.
Qed.

(** Deduplication keeps every key. *)
Lemma first_by_key_keys (xs : list A) (k : string) :
  In k (map key (first_by_key key xs)) <-> In k (map key xs).
Proof.
  split.
  - intros Hin. apply in_map_iff in Hin. destruct Hin as (y & <- & Hy).
    apply in_map. apply (first_by_key_incl key). exact Hy.
  - induction xs as [|x xs IH]; [intros []|]. cbn [map first_by_key In].
    destruct (String.eqb (key x) k) eqn:E.
    + apply String.eqb_eq in E. intros _. left. exact E.
    + intros [Hx | Hin]; [rewrite Hx, String.eqb_refl in E; discriminate|].
      right. apply IH, in_map_iff in Hin. destruct Hin as (y & Hy & Hin).
      apply in_map_iff. exists y. split; [exact Hy|].
      apply filter_In. split; [exact Hin|].
      rewrite Hy, String.eqb_sym, E. reflexivity.
Qed.

End FirstByKey.

Section MergedSchemas.
Import PyStr DataVaultGenerator.
Context `{Formatting}.

Lemma merge_schemas_lists (schemas : list DataVaultSchema) (now : Z) :
  hubs (merge_schemas schemas now)
  = first_by_key Hub.hub_key (List.concat (map hubs schemas))
  /\ links (merge_schemas schemas now)
     = first_by_key Link.link_key (List.concat (map links schemas))
  /\ satellites (merge_schemas schemas now)
     = List.concat (map satellites schemas).
Proof. exact (merge_all_lists schemas). Qed.

Lemma in_concat_map {A B} (f : A -> list B) (xs : list A) (y : B) :
  In y (List.concat (map f xs)) <-> exists x, In x xs /\ In y (f x).
Proof.
  rewrite in_concat. split.
  - intros (l & Hl & Hy). apply in_map_iff in Hl.
    destruct Hl as (x & <- & Hx). exists x. split; assumption.
  - intros (x & Hx & Hy). exists (f x). split; [apply in_map|]; assumption.
Qed.

(** The keys of the merged Hubs are the Hub keys of the merged schemas. *)
Lemma merged_hub_keys (schemas : list DataVaultSchema) (now : Z)
    (k : string) :
  In k (map Hub.hub_key (hubs (merge_schemas schemas now)))
  <-> exists s, In s schemas /\ In k (map Hub.hub_key (hubs s)).
Proof.
  destruct (merge_schemas_lists schemas now) as (-> & _ & _).
  rewrite first_by_key_keys. rewrite in_map_iff. split.
  - intros (h & <- & Hh). apply in_concat_map in Hh.
    destruct Hh as (s & Hs & Hh). exists s. split; [exact Hs|].
    apply in_map. exact Hh.
  - intros (s & Hs & Hk). apply in_map_iff in Hk.
    destruct Hk as (h & <- & Hh). exists h. split; [reflexivity|].
    apply in_concat_map. exists s. split; assumption.
Qed.

(** X17. In a merged schema no Hub key and no Link key is repeated, so the
    key uniqueness check has nothing to say about Hubs and Links: it
    accepts the merged schema exactly when the Satellite keys of all the
    merged schemas together are distinct. *)
Theorem merged_keys_are_distinct
    (schemas : list DataVaultSchema) (now : Z) (out : list printed) :
  let merged := merge_schemas schemas now in
  NoDup (map Hub.hub_key (hubs merged))
  /\ NoDup (map Link.link_key (links merged))
  /\ (fst (_check_key_uniqueness {| the_schema := merged; stdout := out |})
      = []
      <-> NoDup (map Satellite.satellite_key
                   (List.concat (map satellites schemas)))).
Proof.
  intros merged.
  destruct (merge_schemas_lists schemas now) as (Eh & El & Es).
  fold merged in Eh, El, Es.
  assert (Hh : NoDup (map Hub.hub_key (hubs merged)))
    by (rewrite Eh; apply first_by_key_distinct).
  assert (Hl : NoDup (map Link.link_key (links merged)))
    by (rewrite El; apply first_by_key_distinct).
  split; [exact Hh|]. split; [exact Hl|].
  rewrite key_uniqueness_accepts. cbn [the_schema]. rewrite Es. tauto.
Qed.

(** X18. Merging creates no dangling reference: every diagnostic of the
    referential integrity check on the merged schema is already a
    diagnostic of that check on one of the merged schemas. A merge of
    schemas that pass the check passes it. *)
Theorem merge_creates_no_dangling_reference
    (schemas : list DataVaultSchema) (now : Z) (d : string) :
  In d (referential_diagnostics (merge_schemas schemas now)) ->
  exists s, In s schemas /\ In d (referential_diagnostics s).
Proof.
  pose proof (merged_hub_keys schemas now) as Hkeys.
  destruct (merge_schemas_lists schemas now) as (_ & El & Es).
  set (merged := merge_schemas schemas now) in *.
  assert (Hknown : forall s k,
             In s schemas ->
             k ∈ (list_to_set (map Hub.hub_key (hubs s)) : gset string) ->
             k ∈ (list_to_set (map Hub.hub_key (hubs merged)) : gset string)).
  { intros s k Hs Hk. apply known_key. apply Hkeys. exists s.
    split; [exact Hs | apply known_key; exact Hk]. }
  unfold referential_diagnostics at 1. intros Hd. apply in_app_or in Hd.
  destruct Hd as [Hd | Hd]; apply in_concat_map in Hd.
  - destruct Hd as (link & Hlink & Hd). rewrite El in Hlink.
    apply first_by_key_incl, in_concat_map in Hlink.
    destruct Hlink as (s & Hs & Hlink). exists s. split; [exact Hs|].
    unfold referential_diagnostics. apply in_or_app. left.
    apply in_concat_map. exists link. split; [exact Hlink|].
    unfold link_integrity in *. apply in_app_or in Hd. apply in_or_app.
    destruct Hd as [Hd | Hd]; [left | right]; revert Hd;
      case_bool_decide as Hm; try (intros []; fail); intros Hd;
      (rewrite bool_decide_eq_false_2; [exact Hd|]);
      intros Hk; exact (Hm (Hknown s _ Hs Hk)).
  - destruct Hd as (satellite & Hsat & Hd). rewrite Es in Hsat.
    apply in_concat_map in Hsat.
    destruct Hsat as (s & Hs & Hsat). exists s. split; [exact Hs|].
    unfold referential_diagnostics. apply in_or_app. right.
    apply in_concat_map. exists satellite. split; [exact Hsat|].
    unfold satellite_integrity in *. revert Hd.
    case_bool_decide as Hm; try (intros []; fail); intros Hd.
    rewrite bool_decide_eq_false_2; [exact Hd|].
    intros Hk. exact (Hm (Hknown s _ Hs Hk)).
Qed.

(** X19. Merging is idempotent on the records: the merge of a merged
    schema alone has the Hubs, the Links and the Satellites of that
    schema. *)
Theorem merging_a_merged_schema_changes_no_record
    (schemas : list DataVaultSchema) (now again : Z) :
  let merged := merge_schemas schemas now in
  let twice := merge_schemas [merged] again in
  hubs twice = hubs merged
  /\ links twice = links merged
  /\ satellites twice = satellites merged.
Proof.
  intros merged twice.
  destruct (merge_schemas_lists [merged] again) as (Eh & El & Es).
  fold twice in Eh, El, Es. cbn [map List.concat] in Eh, El, Es.
  rewrite app_nil_r in Eh, El, Es.
  destruct (merge_schemas_lists schemas now) as (Mh & Ml & _).
  fold merged in Mh, Ml.
  split; [|split; [|exact Es]].
  - rewrite Eh. apply first_by_key_fixed. rewrite Mh.
    apply first_by_key_distinct.
  - rewrite El. apply first_by_key_fixed. rewrite Ml.
    apply first_by_key_distinct.
Qed.

(** X20. The metadata of a merged schema count the merged schemas and list
    one source image per schema, in order. For schemas made by
    [generate_schema] the list is the list of the images they were
    generated from. A merged schema has no [source_image] entry of its
    own, so a merge of merged schemas records ["unknown"] for each of
    them. *)
Theorem merge_metadata_record_the_source_images
    (build : string -> DataVaultSchema) (images : list string) (now : Z) :
  (forall image, exists hs ls ss lemmas at_time,
      build image = generate_schema hs ls ss image lemmas at_time) ->
  let merged := merge_schemas (map build images) now in
  dict_lookup (metadata merged) "merged_from"
  = Some (PyInt (Z.of_nat (List.length images)))
  /\ dict_lookup (metadata merged) "source_images"
     = Some (PyList (map PyStr images))
  /\ forall (groups : list (list DataVaultSchema)) (again : Z),
       dict_lookup
         (metadata
            (merge_schemas (map (fun g => merge_schemas g now) groups) again))
         "source_images"
       = Some (PyList (map (fun _ => PyStr "unknown") groups)).
Proof.
  intros Hbuild merged. split; [|split].
  - cbn. rewrite length_map. reflexivity.
  - cbn. rewrite map_map. do 2 f_equal. apply map_ext. intros image.
    destruct (Hbuild image) as (hs & ls & ss & lemmas & t & ->).
    reflexivity.
  - intros groups again. cbn. rewrite map_map. reflexivity.
Qed.

End MergedSchemas.

(** ** Data Vault schema: statistics and rounding *)

Section Statistics.
Import PyStr DataVaultGenerator.

Lemma dict_lookup_set {V} (d : list (string * V)) (key k : string) (v : V) :
  dict_lookup (dict_set d key v) k
  = if String.eqb k key then Some v else dict_lookup d k.
Proof.
  induction d as [|[k0 v0] r IH]; cbn [dict_set dict_lookup].
  - destruct (String.eqb k key); reflexivity.
  - destruct (String.eqb key k0) eqn:E0; cbn [dict_lookup].
    + apply String.eqb_eq in E0. subst k0.
      destruct (String.eqb k key); reflexivity.
    + rewrite IH. destruct (String.eqb k k0) eqn:E1; [|reflexivity].
      apply String.eqb_eq in E1. subst k0.
      rewrite String.eqb_sym, E0. reflexivity.
Qed.

Lemma total_count_one (d : list (string * nat)) (key : string) :
  total_count (count_one d key) = S (total_count d).
Proof.
  unfold count_one. induction d as [|[k0 v0] r IH];
    cbn [dict_set dict_lookup total_count foldr default snd].
  - cbn. reflexivity.
  - destruct (String.eqb key k0); cbn [total_count foldr snd default].
    + cbn. lia.
    + fold (total_count r).
      fold (total_count (dict_set r key (default 0%nat (dict_lookup r key) + 1)%nat)).
      rewrite IH. cbn. lia.
Qed.

Lemma keys_of_dict_set {V} (d : list (string * V)) (key : string) (v : V) :
  map fst (dict_set d key v)
  = if mem key (map fst d) then map fst d else map fst d ++ [key].
Proof.
  induction d as [|[k0 v0] r IH]; [reflexivity|].
  cbn [dict_set map mem existsb fst]. fold (mem key (map fst r)).
  destruct (String.eqb key k0); cbn [orb map fst]; [reflexivity|].
  rewrite IH. destruct (mem key (map fst r)); reflexivity.
Qed.

Lemma count_by_snoc {A} (name : A -> string) (xs : list A) (x : A) :
  count_by name (xs ++ [x]) = count_one (count_by name xs) (name x).
Proof. unfold count_by. rewrite foldl_app. reflexivity. Qed.

Lemma occurrences_snoc {A} (name : A -> string) (k : string)
    (xs : list A) (x : A) :
  occurrences name k (xs ++ [x])
  = (occurrences name k xs + if String.eqb (name x) k then 1 else 0)%nat.
Proof.
  unfold occurrences. rewrite List.filter_app, length_app.
  cbn [List.filter]. destruct (String.eqb (name x) k); reflexivity.
Qed.

(** What a counting loop builds: an entry for every name that occurs,
    with the number of its occurrences; no name twice; the counts add up
    to the number of elements. *)
Lemma count_by_spec {A} (name : A -> string) (xs : list A) :
  (forall k, dict_lookup (count_by name xs) k
             = if (occurrences name k xs =? 0)%nat then None
               else Some (occurrences name k xs))
  /\ NoDup (map fst (count_by name xs))
  /\ total_count (count_by name xs) = List.length xs.
Proof.
  induction xs as [|x xs (Hlookup & Hkeys & Htotal)] using rev_ind.
  - split; [intros k; reflexivity|]. split; [constructor | reflexivity].
  - rewrite count_by_snoc. split; [|split].
    + intros k. unfold count_one. rewrite dict_lookup_set.
      rewrite occurrences_snoc, String.eqb_sym.
      destruct (String.eqb (name x) k) eqn:E.
      * apply String.eqb_eq in E. subst k. rewrite Hlookup.
        destruct (occurrences name (name x) xs) as [|n] eqn:En;
          cbn [Nat.eqb default]; [reflexivity|].
        replace (S n + 1 =? 0)%nat with false
          by (symmetry; apply Nat.eqb_neq; lia).
        reflexivity.
      * rewrite Nat.add_0_r. apply Hlookup.
    + unfold count_one. rewrite keys_of_dict_set.
      destruct (mem (name x) (map fst (count_by name xs))) eqn:E;
        [exact Hkeys|].
      apply NoDup_app. split; [exact Hkeys|]. split.
      * intros k Hk Hin. apply list_elem_of_singleton in Hin. subst k.
        apply list_elem_of_In, mem_In in Hk. congruence.
      * apply NoDup_singleton.
    + rewrite total_count_one, Htotal, length_app. cbn. lia.
Qed.

(** X21. [get_statistics] counts the records: for Hubs by entity type,
    for Links by relation type and for Satellites by attribute name, a
    name has an entry exactly when a record bears it, the entry is the
    number of such records, no name has two entries, and the entries add
    up to the total that is reported beside them. *)
Theorem statistics_count_the_records (s : DataVaultSchema) :
  let stats := get_statistics s in
  let counted {A} (name : A -> string) (xs : list A)
        (d : list (string * nat)) (total : nat) :=
    (forall k, dict_lookup d k
               = if (occurrences name k xs =? 0)%nat then None
                 else Some (occurrences name k xs))
    /\ NoDup (map fst d)
    /\ total_count d = total
    /\ total = List.length xs in
  counted Hub.entity_type (hubs s) (entity_types stats) (total_hubs stats)
  /\ counted Link.relation_type (links s)
       (relation_types stats) (total_links stats)
  /\ counted Satellite.attribute_name (satellites s)
       (attribute_names stats) (total_satellites stats).
Proof.
  intros stats counted. subst counted stats. cbn [get_statistics
    entity_types relation_types attribute_names total_hubs total_links
    total_satellites].
  split; [|split].
  - destruct (count_by_spec Hub.entity_type (hubs s)) as (L & K & T).
    auto.
  - destruct (count_by_spec Link.relation_type (links s)) as (L & K & T).
    auto.
  - destruct (count_by_spec Satellite.attribute_name (satellites s))
      as (L & K & T).
    auto.
Qed.

End Statistics.

Section Rounding.
Import PyStr DataVaultGenerator.

Lemma scale_positive (ndigits : nat) : (0 < 10 ^ Z.of_nat ndigits)%Z.
Proof. apply Z.pow_pos_nonneg; lia. Qed.

(** The integer picked by [round] is within one half of the scaled
    value. *)
Lemma nearest_unit (scaled : Q) :
  let below := Qfloor scaled in
  let rest := (scaled - inject_Z below)%Q in
  let units :=
    if Qgt_bool rest (1 # 2) then (below + 1)%Z
    else if Qeq_bool rest (1 # 2)
         then (if Z.even below then below else (below + 1)%Z)
         else below in
  (scaled - (1 # 2) <= inject_Z units)%Q
  /\ (inject_Z units <= scaled + (1 # 2))%Q
  /\ (below <= units <= below + 1)%Z
  /\ (units = (below + 1)%Z -> (1 # 2 <= rest)%Q).
Proof.
  intros below rest units.
  pose proof (Qfloor_le scaled) as Hlo.
  pose proof (Qlt_floor scaled) as Hhi.
  fold below in Hlo, Hhi. rewrite inject_Z_plus in Hhi.
  change (inject_Z 1) with 1%Q in Hhi.
  subst units. unfold Qgt_bool.
  destruct (Qle_bool rest (1 # 2)) eqn:Ele; cbn [negb].
  - apply Qle_bool_iff in Ele.
    destruct (Qeq_bool rest (1 # 2)) eqn:Eeq.
    + apply Qeq_bool_iff in Eeq.
      destruct (Z.even below); rewrite ?inject_Z_plus;
        change (inject_Z 1) with 1%Q; subst rest;
        repeat split; try lia; try lra.
    + subst rest. repeat split; try lia; try lra.
  - assert (Hgt : (1 # 2 < rest)%Q).
    { apply Qnot_le_lt. intros Hle. apply Qle_bool_iff in Hle. congruence. }
    rewrite inject_Z_plus. change (inject_Z 1) with 1%Q. subst rest.
    repeat split; try lia; try lra.
Qed.

(** Rounding to the multiples of [1 / scale]. *)
Lemma round_to_scale (x : Q) (scale : positive) :
  let scaled := (x * inject_Z (Zpos scale))%Q in
  let below := Qfloor scaled in
  let rest := (scaled - inject_Z below)%Q in
  let units :=
    if Qgt_bool rest (1 # 2) then (below + 1)%Z
    else if Qeq_bool rest (1 # 2)
         then (if Z.even below then below else (below + 1)%Z)
         else below in
  let unit := (1 # scale)%Q in
  (units # scale == inject_Z units * unit)%Q
  /\ (x - (1 # 2) * unit <= units # scale)%Q
  /\ (units # scale <= x + (1 # 2) * unit)%Q
  /\ (valid_score x -> valid_score (units # scale)).
Proof.
  intros scaled below rest units unit.
  assert (Hpos : (0 < inject_Z (Zpos scale))%Q).
  { change 0%Q with (inject_Z 0). rewrite <- Zlt_Qlt. lia. }
  assert (Hunit : (unit * inject_Z (Zpos scale) == 1)%Q).
  { unfold unit, Qeq, Qmult, inject_Z. cbn [Qnum Qden]. lia. }
  destruct (nearest_unit scaled) as (Hlo & Hhi & Hz & Hup).
  fold below rest units in Hlo, Hhi, Hz, Hup.
  assert (Hr : (units # scale == inject_Z units * unit)%Q).
  { unfold unit, Qeq, Qmult, inject_Z. cbn [Qnum Qden]. lia. }
  split; [exact Hr|]. set (r := (units # scale)%Q) in *.
  assert (Hshift : forall a b : Q,
             (a * inject_Z (Zpos scale) <= b * inject_Z (Zpos scale))%Q ->
             (a <= b)%Q).
  { intros a b Hab. apply (Qmult_le_r _ _ (inject_Z (Zpos scale)));
      assumption. }
  assert (HrS : (r * inject_Z (Zpos scale) == inject_Z units)%Q).
  { rewrite Hr, <- Qmult_assoc, Hunit. ring. }
  clearbody r units. subst rest below. unfold scaled in *.
  split; [|split].
  - apply Hshift. nra.
  - apply Hshift. nra.
  - intros [Hx0 Hx1].
    assert (H0 : (0 <= x * inject_Z (Zpos scale))%Q) by nra.
    assert (H1 : (x * inject_Z (Zpos scale) <= inject_Z (Zpos scale))%Q)
      by nra.
    assert (Hb0 : (0 <= Qfloor (x * inject_Z (Zpos scale)))%Z).
    { rewrite <- (Qfloor_Z 0). apply Qfloor_resp_le. exact H0. }
    assert (Hb1 : (Qfloor (x * inject_Z (Zpos scale)) <= Zpos scale)%Z).
    { rewrite <- (Qfloor_Z (Zpos scale)) at 2. apply Qfloor_resp_le.
      exact H1. }
    assert (Hu : (0 <= units <= Zpos scale)%Z).
    { split; [lia|].
      destruct (Z.eq_dec units (Qfloor (x * inject_Z (Zpos scale)) + 1))
        as [E | E]; [|lia].
      specialize (Hup E).
      destruct (Z.eq_dec (Qfloor (x * inject_Z (Zpos scale))) (Zpos scale))
        as [E' | E']; [|lia].
      rewrite E' in Hup. lra. }
    destruct Hu as [Hu0 Hu1].
    rewrite Zle_Qle in Hu0, Hu1. change (inject_Z 0) with 0%Q in Hu0.
    unfold valid_score. split; apply Hshift; nra.
Qed.

(** [round(x, ndigits)] is a multiple of [10 ** -ndigits] at most half a
    unit of the last digit away from [x], and a score between 0 and 1 is
    rounded to a score between 0 and 1. *)
Lemma py_round_is_close (x : Q) (ndigits : nat) :
  let unit := (1 # Z.to_pos (10 ^ Z.of_nat ndigits))%Q in
  (exists units : Z, py_round x ndigits == inject_Z units * unit)%Q
  /\ (x - (1 # 2) * unit <= py_round x ndigits)%Q
  /\ (py_round x ndigits <= x + (1 # 2) * unit)%Q
  /\ (valid_score x -> valid_score (py_round x ndigits)).
Proof.
  intros unit. subst unit. unfold py_round.
  pose proof (Z2Pos.id _ (scale_positive ndigits)) as Hscale.
  remember (Z.to_pos (10 ^ Z.of_nat ndigits)) as scale eqn:Escale.
  rewrite <- Hscale. clear Escale Hscale.
  destruct (round_to_scale x scale) as (Hr & Hlo & Hhi & Hvalid).
  split; [eexists; exact Hr|]. split; [exact Hlo|].
  split; [exact Hhi | exact Hvalid].
Qed.

Lemma round4_py_round (x : Q) : round4 x = py_round x 4.
Proof. reflexivity. Qed.

Lemma py_sum_bounds (scores : list Q) :
  Forall valid_score scores ->
  forall start : Q,
    (start <= foldl Qplus start scores)%Q
    /\ (foldl Qplus start scores
        <= start + inject_Z (Z.of_nat (List.length scores)))%Q.
Proof.
  induction 1 as [|x l [Hx0 Hx1] _ IH]; intros start.
  - cbn [foldl List.length]. change (inject_Z (Z.of_nat 0)) with 0%Q.
    split; lra.
  - cbn [foldl List.length]. destruct (IH (start + x)%Q) as [Hlo Hhi].
    rewrite Nat2Z.inj_succ, <- Z.add_1_r, inject_Z_plus.
    change (inject_Z 1) with 1%Q. split; lra.
Qed.

Lemma average_valid (scores : list Q) :
  Forall valid_score scores -> valid_score (average scores).
Proof.
  intros Hall. destruct scores as [|x l] eqn:E.
  - split; discriminate.
  - rewrite <- E in *. unfold average.
    destruct (py_sum_bounds scores Hall 0) as [Hlo Hhi].
    assert (Hn : (0 < inject_Z (Z.of_nat (List.length scores)))%Q).
    { change 0%Q with (inject_Z 0). rewrite <- Zlt_Qlt.
      rewrite E. cbn [List.length]. lia. }
    rewrite E at 1. fold (py_sum scores) in Hlo, Hhi. split.
    + apply Qle_shift_div_l; [exact Hn | lra].
    + apply Qle_shift_div_r; [exact Hn | lra].
Qed.

(** A confidence score as it is written out: a multiple of [unit] within
    half a [unit] of the score, between 0 and 1 when the score is. *)
Local Abbreviation rounded score unit r :=
  ((exists units : Z, r == inject_Z units * unit)
   /\ score - (1 # 2) * unit <= r
   /\ r <= score + (1 # 2) * unit
   /\ (valid_score score -> valid_score r))%Q.

(** X22. Scores leave the schema rounded, never cut: the confidence score
    that [to_dict] writes for a Hub, a Link or a Satellite is a multiple
    of 0.0001 within 0.00005 of the stored score, and the three averages
    of [get_statistics] are multiples of 0.001 within 0.0005 of the means
    of the stored scores (0 for an empty list). Rounding takes a score
    between 0 and 1 to a score between 0 and 1. *)
Theorem written_scores_are_rounded `{Formatting} (s : DataVaultSchema) :
  let stats := get_statistics s in
  let written (score : Q) (record : py_value) :=
    exists r items,
      record = PyDict items
      /\ dict_lookup items "confidence_score" = Some (PyFloat r)
      /\ rounded score (1 # 10000) r in
  (forall hub, written (Hub.confidence_score hub) (Hub.to_dict hub))
  /\ (forall link, written (Link.confidence_score link) (Link.to_dict link))
  /\ (forall satellite,
        written (Satellite.confidence_score satellite)
          (Satellite.to_dict satellite))
  /\ rounded (average (map Hub.confidence_score (hubs s))) (1 # 1000)
       (average_confidence_hubs stats)
  /\ rounded (average (map Link.confidence_score (links s))) (1 # 1000)
       (average_confidence_links stats)
  /\ rounded (average (map Satellite.confidence_score (satellites s)))
       (1 # 1000) (average_confidence_satellites stats)
  /\ average [] = 0%Q.
Proof.
  intros stats written.
  assert (H4 : forall score, rounded score (1 # 10000) (round4 score)).
  { intros score. rewrite round4_py_round.
    exact (py_round_is_close score 4). }
  assert (H3 : forall score, rounded score (1 # 1000) (py_round score 3)).
  { intros score. exact (py_round_is_close score 3). }
  split; [|split; [|split]].
  - intros hub. eexists _, _. split; [reflexivity|].
    split; [reflexivity | apply H4].
  - intros link. eexists _, _. split; [reflexivity|].
    split; [reflexivity | apply H4].
  - intros satellite. eexists _, _. split; [reflexivity|].
    split; [reflexivity | apply H4].
  - split; [apply H3|]. split; [apply H3|]. split; [apply H3 | reflexivity].
Qed.

(** X23. When the confidence scores of a schema lie between 0 and 1 (what
    the confidence check of [validate_schema] asks for), so do the three
    averages that [get_statistics] reports. *)
Theorem reported_averages_stay_valid (s : DataVaultSchema) :
  (forall hub, In hub (hubs s) -> valid_score (Hub.confidence_score hub)) ->
  (forall link, In link (links s) ->
     valid_score (Link.confidence_score link)) ->
  (forall satellite, In satellite (satellites s) ->
     valid_score (Satellite.confidence_score satellite)) ->
  let stats := get_statistics s in
  valid_score (average_confidence_hubs stats)
  /\ valid_score (average_confidence_links stats)
  /\ valid_score (average_confidence_satellites stats).
Proof.
  intros Hh Hl Hs stats.
  assert (Havg : forall {A} (score : A -> Q) (xs : list A),
             (forall x, In x xs -> valid_score (score x)) ->
             valid_score (py_round (average (map score xs)) 3)).
  { intros A score xs Hall. apply py_round_is_close, average_valid.
    apply Forall_forall. intros q Hq.
    apply list_elem_of_In, in_map_iff in Hq.
    destruct Hq as (x & <- & Hx). exact (Hall x Hx). }
  split; [exact (Havg _ _ _ Hh)|]. split; [exact (Havg _ _ _ Hl)|].
  exact (Havg _ _ _ Hs).
Qed.

End Rounding.

(** ** Instances of the properties that rest on an assumption *)

(** X3, witness: [corn] against [cork] with the prefix ratio. *)
Lemma lexical_similarity_bounds_witness :
  SimilarityStrategies.in_unit_interval
    (@SimilarityStrategies.jaro_winkler_similarity Sample.prefix_jaro
       "corn" "cork")
  /\ SimilarityStrategies.in_unit_interval
       (@SimilarityStrategies._lexical_similarity Sample.prefix_jaro
          "corn" "cork").
Proof.
  assert (Hjw : SimilarityStrategies.in_unit_interval
                  (@SimilarityStrategies.jaro_winkler_similarity
                     Sample.prefix_jaro "corn" "cork")).
  { split; vm_compute; discriminate. }
  split; [exact Hjw|].
  exact (proj1 (@lexical_similarity_bounds Sample.prefix_jaro
                  "corn" "cork" Hjw)).
Defined.

(** X4, witness: the bigram strategy on [corn] and [cork]. *)
Lemma lexical_strategies_are_offline_witness :
  let self :=
    {| SimilarityCalculator._embedding_cache := ∅;
       SimilarityCalculator.requests := 0 |} in
  In "cosine" SimilarityStrategies.lexical_strategies
  /\ exists score,
       @SimilarityStrategies.calculate_similarity Sample.unidecode_latin1
         Sample.prefix_jaro Sample.sqrt_6_digits Sample.endpoint_down_for_a
         Sample.elements_order "cosine" "corn" "cork" self
       = (Some score, self).
Proof.
  intros self.
  assert (Hin : In "cosine" SimilarityStrategies.lexical_strategies).
  { right. right. left. reflexivity. }
  split; [exact Hin|].
  exact (@lexical_strategies_are_offline Sample.unidecode_latin1
           Sample.prefix_jaro Sample.sqrt_6_digits Sample.endpoint_down_for_a
           Sample.elements_order "cosine" "corn" "cork" self Hin).
Defined.

(** X5, witness: [vert-fonce] against [vert_fonce] under the semantic
    strategy. *)
Lemma case_and_separators_do_not_matter_witness :
  let self :=
    {| SimilarityCalculator._embedding_cache := ∅;
       SimilarityCalculator.requests := 0 |} in
  In "_"%char ["_"; "-"; " "]%char
  /\ In "-"%char ["_"; "-"; " "]%char
  /\ @SimilarityStrategies.calculate_similarity Sample.unidecode_latin1
       Sample.prefix_jaro Sample.sqrt_6_digits Sample.endpoint_down_for_a
       Sample.elements_order "semantic"
       (PyStr.replace "_" "-" "vert_fonce") "vert_fonce" self
     = (Some 1%Q, self).
Proof.
  intros self.
  assert (Hold : In "_"%char ["_"; "-"; " "]%char) by (left; reflexivity).
  assert (Hnew : In "-"%char ["_"; "-"; " "]%char)
    by (right; left; reflexivity).
  split; [exact Hold|]. split; [exact Hnew|].
  exact (proj1 (proj2 (proj2
           (@case_and_separators_do_not_matter Sample.unidecode_latin1
              Sample.prefix_jaro Sample.sqrt_6_digits
              Sample.endpoint_down_for_a Sample.elements_order
              "semantic" "vert_fonce" "_"%char "-"%char self Hold Hnew)))).
Defined.

(** X6, witness: the lexical strategy on [corn] and [cork]. *)
Lemma lexical_scores_in_unit_interval_witness :
  let self :=
    {| SimilarityCalculator._embedding_cache := ∅;
       SimilarityCalculator.requests := 0 |} in
  SimilarityStrategies.in_unit_interval
    (@SimilarityStrategies.jaro_winkler_similarity Sample.prefix_jaro
       (@SimilarityStrategies._normalize_string Sample.unidecode_latin1
          "corn")
       (@SimilarityStrategies._normalize_string Sample.unidecode_latin1
          "cork"))
  /\ exists score,
       fst (@SimilarityStrategies.calculate_similarity
              Sample.unidecode_latin1 Sample.prefix_jaro Sample.sqrt_6_digits
              Sample.endpoint_down_for_a Sample.elements_order
              "lexical" "corn" "cork" self) = Some score
       /\ SimilarityStrategies.in_unit_interval score.
Proof.
  intros self.
  assert (Hjw : SimilarityStrategies.in_unit_interval
                  (@SimilarityStrategies.jaro_winkler_similarity
                     Sample.prefix_jaro
                     (@SimilarityStrategies._normalize_string
                        Sample.unidecode_latin1 "corn")
                     (@SimilarityStrategies._normalize_string
                        Sample.unidecode_latin1 "cork"))).
  { split; vm_compute; discriminate. }
  split; [exact Hjw|].
  exact (@lexical_scores_in_unit_interval Sample.unidecode_latin1
           Sample.prefix_jaro Sample.sqrt_6_digits Sample.endpoint_down_for_a
           Sample.elements_order "lexical" "corn" "cork" self
           (or_introl eq_refl) Hjw).
Defined.


(** X15, witness: the first diagnostic for a schema with a dangling Link
    is a warning. *)
Lemma diagnostics_are_errors_or_warnings_witness :
  let w :=
    {| DataVaultGenerator.the_schema := Sample.dangling_schema;
       DataVaultGenerator.stdout := [] |} in
  let d :=
    "WARNING: Link corn_pla... " +:+ PyStr.u8 "référence un Hub source invalide" in
  In d (fst (@DataVaultGenerator.validate_schema Sample.plain_formatting w))
  /\ DataVaultGenerator.is_warning d = true.
Proof.
  intros w d.
  assert (Hin : In d (fst (@DataVaultGenerator.validate_schema
                             Sample.plain_formatting w))).
  { vm_compute. left. reflexivity. }
  split; [exact Hin|].
  exact (@diagnostics_are_errors_or_warnings Sample.plain_formatting w d Hin).
Defined.

(** X18, witness: a Link whose target is missing is still reported after
    a merge with a schema that holds its source. *)
Lemma merge_creates_no_dangling_reference_witness :
  let d :=
    "WARNING: Link corn_pla... " +:+ PyStr.u8 "référence un Hub target invalide" in
  let merged :=
    @DataVaultGenerator.merge_schemas Sample.plain_formatting
      [Sample.corn_schema 0 "vert_fonce"; Sample.dangling_schema] 9 in
  In d (DataVaultGenerator.referential_diagnostics merged)
  /\ exists s,
       In s [Sample.corn_schema 0 "vert_fonce"; Sample.dangling_schema]
       /\ In d (DataVaultGenerator.referential_diagnostics s).
Proof.
  intros d merged.
  assert (Hin : In d (DataVaultGenerator.referential_diagnostics merged)).
  { vm_compute. left. reflexivity. }
  split; [exact Hin|].
  exact (@merge_creates_no_dangling_reference Sample.plain_formatting
           [Sample.corn_schema 0 "vert_fonce"; Sample.dangling_schema] 9 d Hin).
Defined.

(** X20, witness: two schemas generated from two images. *)
Lemma merge_metadata_record_the_source_images_witness :
  let build image :=
    @DataVaultGenerator.generate_schema Sample.plain_formatting
      [] [] [] image [] 0 in
  (forall image, exists hs ls ss lemmas at_time,
      build image
      = @DataVaultGenerator.generate_schema Sample.plain_formatting
          hs ls ss image lemmas at_time)
  /\ dict_lookup
       (DataVaultGenerator.metadata
          (@DataVaultGenerator.merge_schemas Sample.plain_formatting
             (map build ["img1.jpg"; "img2.jpg"]) 5))
       "source_images"
     = Some (PyList [PyStr "img1.jpg"; PyStr "img2.jpg"]).
Proof.
  intros build.
  assert (Hbuild : forall image, exists hs ls ss lemmas at_time,
             build image
             = @DataVaultGenerator.generate_schema Sample.plain_formatting
                 hs ls ss image lemmas at_time).
  { intros image. exists [], [], [], [], 0%Z. reflexivity. }
  split; [exact Hbuild|].
  exact (proj1 (proj2
           (@merge_metadata_record_the_source_images Sample.plain_formatting
              build ["img1.jpg"; "img2.jpg"] 5 Hbuild))).
Defined.

(** X23, witness: the schema with one Hub of score 1 and one Satellite of
    score 0.95. *)
Lemma reported_averages_stay_valid_witness :
  let s := Sample.corn_schema 0 "vert_fonce" in
  (forall hub, In hub (DataVaultGenerator.hubs s) ->
     DataVaultGenerator.valid_score (Hub.confidence_score hub))
  /\ DataVaultGenerator.valid_score
       (DataVaultGenerator.average_confidence_satellites
          (DataVaultGenerator.get_statistics s)).
Proof.
  intros s.
  assert (Hh : forall hub, In hub (DataVaultGenerator.hubs s) ->
     DataVaultGenerator.valid_score (Hub.confidence_score hub)).
  { intros hub [<- | []]. split; vm_compute; discriminate. }
  assert (Hl : forall link, In link (DataVaultGenerator.links s) ->
     DataVaultGenerator.valid_score (Link.confidence_score link)).
  { intros link []. }
  assert (Hs : forall satellite,
             In satellite (DataVaultGenerator.satellites s) ->
     DataVaultGenerator.valid_score (Satellite.confidence_score satellite)).
  { intros satellite [<- | []]. split; vm_compute; discriminate. }
  split; [exact Hh|].
  exact (proj2 (proj2 (reported_averages_stay_valid s Hh Hl Hs))).
Defined.

(** ** Ontology validator: links and satellites *)

Section Validator.
Import PyStr OntologyValidator.
Context `{Unidecode} `{Difflib}.

(** The test that difflib applies to one possibility. *)
Variable close : string -> string -> Q -> bool.

(** What is assumed of the ranking of difflib: it proposes possibilities
    only, and it proposes something exactly when a possibility is close. *)
Hypothesis close_matches_are_possibilities :
  forall word possibilities n cutoff m,
    In m (best_matches word possibilities n cutoff) ->
    In m possibilities.

Hypothesis close_matches_are_found :
  forall word possibilities cutoff,
    best_matches word possibilities 1 cutoff = []
    <-> forall term, In term possibilities -> close word term cutoff = false.

Lemma prefix_refl (s : string) : String.prefix s s = true.
Proof.
  induction s as [|c s IH]; [reflexivity|].
  cbn [String.prefix]. destruct (ascii_dec c c); [exact IH | congruence].
Qed.

Lemma contains_refl (s : string) : contains s s = true.
Proof. destruct s; cbn [contains]; rewrite prefix_refl; reflexivity. Qed.

(** The default cutoff is accepted. *)
Lemma default_cutoff_accepted (word : string) (possibilities : list string) :
  get_close_matches word possibilities 1 default_cutoff
  = Returns (best_matches word possibilities 1 default_cutoff).
Proof. reflexivity. Qed.

(** What [validate_term] returns is one of the terms. *)
Lemma validate_term_in (value : string) (terms : list string) (cutoff : Q)
    (x : string) :
  validate_term value terms cutoff = Returns (Some x) -> In x terms.
Proof.
  unfold validate_term. destruct (is_empty value); [discriminate|].
  destruct (mem (normalize value) terms) eqn:Hmem.
  - intros [= <-]. apply mem_In. exact Hmem.
  - destruct (find (partial_match (normalize value)) terms) as [t|] eqn:Hfind.
    + intros [= <-]. apply find_some in Hfind. apply Hfind.
    + unfold get_close_matches.
      destruct (negb (0 <? 1)%nat); [discriminate|].
      destruct (negb (Qle_bool 0 cutoff && Qle_bool cutoff 1));
        [discriminate|].
      destruct (best_matches (normalize value) terms 1 cutoff)
        as [|m ms] eqn:Hclose; [discriminate|].
      intros [= <-].
      apply (close_matches_are_possibilities (normalize value) terms 1
               cutoff).
      rewrite Hclose. left. reflexivity.
Qed.

(** With the default cutoff [validate_term] raises nothing. *)
Lemma validate_term_returns (value : string) (terms : list string) :
  exists answer, validate_term value terms default_cutoff = Returns answer.
Proof.
  unfold validate_term. destruct (is_empty value); [eexists; reflexivity|].
  destruct (mem (normalize value) terms); [eexists; reflexivity|].
  destruct (find (partial_match (normalize value)) terms);
    [eexists; reflexivity|].
  rewrite default_cutoff_accepted.
  destruct (best_matches _ _ _ _); eexists; reflexivity.
Qed.

(** [validate_term] answers [None] to the empty string and to a value
    that no term answers. *)
Lemma validate_term_none (value : string) (terms : list string) :
  validate_term value terms default_cutoff = Returns None
  <-> value = ""
      \/ forall term, In term terms -> answers close value term = false.
Proof.
  unfold validate_term, answers. destruct value as [|c value'].
  { split; [intros _; left; reflexivity | reflexivity]. }
  cbn [is_empty]. set (v := normalize (String c value')).
  destruct (mem v terms) eqn:Hmem.
  { split; [discriminate|]. intros [Hempty | Hall]; [discriminate|].
    apply mem_In in Hmem. specialize (Hall v Hmem).
    unfold partial_match in Hall. rewrite contains_refl in Hall.
    discriminate. }
  destruct (find (partial_match v) terms) as [t|] eqn:Hfind.
  { split; [discriminate|]. intros [Hempty | Hall]; [discriminate|].
    apply find_some in Hfind. destruct Hfind as [Hin Hp].
    specialize (Hall t Hin). rewrite Hp in Hall. discriminate. }
  rewrite default_cutoff_accepted.
  pose proof (close_matches_are_found v terms default_cutoff) as Hfound.
  destruct (best_matches v terms 1 default_cutoff) as [|m ms].
  - split; [|reflexivity]. intros _. right. intros term Hin.
    rewrite (find_none _ _ Hfind term Hin).
    exact (proj1 Hfound eq_refl term Hin).
  - split; [discriminate|]. intros [Hempty | Hall]; [discriminate|].
    assert (Hnone : forall term, In term terms ->
                                 close v term default_cutoff = false).
    { intros term Hin. specialize (Hall term Hin).
      apply orb_false_iff in Hall. apply Hall. }
    apply Hfound in Hnone. discriminate.
Qed.

(** The guard of [validate_term] on the empty string makes every category
    answer [None]. *)
Lemma classify_among_empty (categories : list (string * list string)) :
  classify_among categories "" = Returns (None, None).
Proof.
  induction categories as [|[category terms] rest IH]; [reflexivity|].
  cbn [classify_among validate_term is_empty]. exact IH.
Qed.

(** The loop over the categories returns the first category one of whose
    terms answers the lemma, with a term of that category. *)
Lemma classify_among_spec (categories : list (string * list string))
    (lemme : string) :
  (forall category terms, In (category, terms) categories ->
                          ~ In "" terms) ->
  (classify_among categories lemme = Returns (None, None)
   /\ (lemme = ""
       \/ forall category terms term,
            In (category, terms) categories -> In term terms ->
            answers close lemme term = false))
  \/ (exists before category terms after validated,
         categories = before ++ (category, terms) :: after
         /\ classify_among categories lemme
            = Returns (Some validated, Some category)
         /\ lemme <> ""
         /\ In validated terms
         /\ (exists term, In term terms /\ answers close lemme term = true)
         /\ forall category' terms' term,
              In (category', terms') before -> In term terms' ->
              answers close lemme term = false).
Proof.
  intros Hfull.
  destruct (string_dec lemme "") as [-> | Hlemme].
  { left. split; [apply classify_among_empty | left; reflexivity]. }
  induction categories as [|[category terms] rest IH].
  - left. split; [reflexivity|]. right. intros c ts t [].
  - cbn [classify_among].
    assert (Hrest : forall category terms,
               In (category, terms) rest -> ~ In "" terms).
    { intros c ts Hin. apply (Hfull c ts). right. exact Hin. }
    specialize (IH Hrest).
    destruct (validate_term_returns lemme terms) as [[validated|] Hv];
      rewrite Hv.
    + pose proof (validate_term_in _ _ _ _ Hv) as Hin.
      assert (Hne : is_empty validated = false).
      { destruct validated; [|reflexivity].
        destruct (Hfull category terms (or_introl eq_refl) Hin). }
      rewrite Hne. right.
      exists [], category, terms, rest, validated.
      split; [reflexivity|]. split; [reflexivity|]. split; [exact Hlemme|].
      split; [exact Hin|]. split; [|intros c ts t []].
      destruct (existsb (answers close lemme) terms) eqn:Hex.
      * apply existsb_exists in Hex. exact Hex.
      * assert (Hnone : validate_term lemme terms default_cutoff
                        = Returns None).
        { apply validate_term_none. right. intros term Ht.
          destruct (answers close lemme term) eqn:Ha; [|reflexivity].
          assert (Htrue : existsb (answers close lemme) terms = true)
            by (apply existsb_exists; exists term; split; assumption).
          congruence. }
        congruence.
    + apply validate_term_none in Hv.
      destruct IH as [[Hr Hnone]
                     | (before & c & ts & after & v & -> & Hr & _ & Hin & Hex
                        & Hbefore)].
      * left. split; [exact Hr|].
        destruct Hv as [Hempty | Hv]; [left; exact Hempty|].
        destruct Hnone as [Hempty | Hnone]; [left; exact Hempty|].
        right. intros c ts t [[= <- <-] | Hin] Ht;
          [exact (Hv t Ht) | exact (Hnone c ts t Hin Ht)].
      * right. exists ((category, terms) :: before), c, ts, after, v.
        split; [reflexivity|]. split; [exact Hr|]. split; [exact Hlemme|].
        split; [exact Hin|]. split; [exact Hex|].
        intros c' ts' t [[= <- <-] | Hc] Ht; [|exact (Hbefore c' ts' t Hc Ht)].
        destruct Hv as [Hempty | Hv]; [contradiction | exact (Hv t Ht)].
Qed.

Lemma split_unique {A} (l b b' a a' : list (string * A)) (c : string)
    (x x' : A) :
  NoDup (map fst l) ->
  l = b ++ (c, x) :: a -> l = b' ++ (c, x') :: a' ->
  b = b' /\ x = x' /\ a = a'.
Proof.
  intros Hnd -> . revert b' Hnd.
  induction b as [|[k y] b IH]; intros b' Hnd Heq.
  - destruct b' as [|[k' y'] b'].
    + injection Heq as -> ->. auto.
    + cbn in Heq. injection Heq as <- _ ->. cbn in Hnd.
      apply NoDup_cons in Hnd. destruct Hnd as [Hnot _]. destruct Hnot.
      apply list_elem_of_In. rewrite map_app. apply in_or_app. right.
      left. reflexivity.
  - destruct b' as [|[k' y'] b'].
    + cbn in Heq. injection Heq as -> _ _. cbn in Hnd.
      apply NoDup_cons in Hnd. destruct Hnd as [Hnot _]. destruct Hnot.
      apply list_elem_of_In. rewrite map_app. apply in_or_app. right.
      left. reflexivity.
    + cbn in Heq. injection Heq as -> -> Heq. cbn in Hnd.
      apply NoDup_cons in Hnd. destruct Hnd as [_ Hnd].
      destruct (IH b' Hnd Heq) as (-> & -> & ->). auto.
Qed.

Lemma categories_are_named_once : NoDup (map fst SATELLITES).
Proof.
  apply (bool_decide_eq_true_1 (NoDup (map fst SATELLITES))).
  vm_compute. reflexivity.
Qed.

Lemma categories_hold_no_empty_term (category : string)
    (terms : list string) :
  In (category, terms) SATELLITES -> ~ In "" terms.
Proof.
  assert (Hall : forallb (fun entry => negb (mem "" (snd entry))) SATELLITES
                 = true) by (vm_compute; reflexivity).
  intros Hin Hempty. rewrite forallb_forall in Hall.
  specialize (Hall _ Hin). cbn [snd] in Hall.
  apply mem_In in Hempty. rewrite Hempty in Hall. discriminate.
Qed.

(** A category that comes after categories that hold all its terms is
    never the answer. *)
Lemma covered_category_is_skipped (lemme category validated : string)
    (before after : list (string * list string)) (terms : list string) :
  SATELLITES = before ++ (category, terms) :: after ->
  forallb (fun term =>
             existsb (fun entry => mem term (snd entry)) before) terms
  = true ->
  classify_among SATELLITES lemme <> Returns (Some validated, Some category).
Proof.
  intros Hsplit Hcovered Hanswer.
  destruct (classify_among_spec SATELLITES lemme
              categories_hold_no_empty_term)
    as [[Hr _] | (b & c & ts & a & v & Hs & Hr & _ & _ & Hex & Hbefore)];
    [congruence|].
  rewrite Hanswer in Hr. injection Hr as <- <-.
  destruct (split_unique _ _ _ _ _ _ _ _ categories_are_named_once
              Hsplit Hs) as (<- & <- & _).
  destruct Hex as (term & Hterm & Ha).
  rewrite forallb_forall in Hcovered. specialize (Hcovered term Hterm).
  apply existsb_exists in Hcovered.
  destruct Hcovered as ([c' ts'] & Hentry & Hmem). cbn [snd] in Hmem.
  apply mem_In in Hmem.
  rewrite (Hbefore c' ts' term Hentry Hmem) in Ha. discriminate.
Qed.

(** X24. [classify_satellite] raises nothing. It answers [(None, None)]
    to the empty string, whatever the table holds, and to a lemma that no
    term answers (as a substring, as a superstring or as a close match).
    To any other lemma it answers with the first category, in the order
    of the table, one of whose terms answers the lemma, and with a term of
    that category. The categories [etats_feuille] and [couleurs_feuille]
    are never the answer: each of their terms belongs to a category that
    is tried before. *)
Theorem classify_satellite_answers_the_first_category
    (lemme : string) (plant_type : option string) :
  classify_satellite "" plant_type = Returns (None, None)
  /\ exists validated category,
       classify_satellite lemme plant_type = Returns (validated, category)
       /\ match validated, category with
          | Some validated, Some category =>
              lemme <> ""
              /\ (exists before terms after,
                     SATELLITES = before ++ (category, terms) :: after
                     /\ In validated terms
                     /\ (exists term,
                            In term terms
                            /\ answers close lemme term = true)
                     /\ forall category' terms' term,
                          In (category', terms') before -> In term terms' ->
                          answers close lemme term = false)
              /\ In validated get_all_valid_terms
              /\ category <> "etats_feuille"
              /\ category <> "couleurs_feuille"
          | None, None =>
              lemme = ""
              \/ (lemme <> ""
                  /\ forall category terms term,
                       In (category, terms) SATELLITES -> In term terms ->
                       answers close lemme term = false)
          | _, _ => False
          end.
Proof.
  split; [apply classify_among_empty|].
  unfold classify_satellite.
  destruct (classify_among_spec SATELLITES lemme
              categories_hold_no_empty_term)
    as [[Hr Hnone]
       | (b & c & ts & a & v & Hs & Hr & Hne & Hin & Hex & Hbefore)].
  - exists None, None. split; [exact Hr|].
    destruct (string_dec lemme "") as [-> | Hne]; [left; reflexivity|].
    right. split; [exact Hne|].
    destruct Hnone as [Hempty | Hnone]; [contradiction | exact Hnone].
  - exists (Some v), (Some c). split; [exact Hr|]. split; [exact Hne|].
    split; [exists b, ts, a; auto|]. split; [|split].
    + unfold get_all_valid_terms. apply in_or_app. right.
      apply in_or_app. right. apply in_concat. exists ts.
      split; [|exact Hin]. rewrite Hs, map_app. apply in_or_app. right.
      left. reflexivity.
    + intros ->.
      refine (covered_category_is_skipped lemme "etats_feuille" v
                (firstn 10 SATELLITES) (skipn 11 SATELLITES) _ eq_refl _ Hr).
      vm_compute. reflexivity.
    + intros ->.
      refine (covered_category_is_skipped lemme "couleurs_feuille" v
                (firstn 13 SATELLITES) (skipn 14 SATELLITES) _ eq_refl _ Hr).
      vm_compute. reflexivity.
Qed.

(** X25. What the validator answers is a term of the ontology: a term of
    the list it was given for [validate_term], one of the plants for
    [identify_plant] (also through the alias table), one of the relations
    for [identify_link]; all of them are among [get_all_valid_terms].
    [identify_plant] and [identify_link] raise nothing. *)
Theorem validator_answers_with_ontology_terms (lemme : string) :
  (forall terms cutoff term,
      validate_term lemme terms cutoff = Returns (Some term) ->
      In term terms)
  /\ (exists answer, identify_plant lemme = Returns answer)
  /\ (forall plant,
        identify_plant lemme = Returns (Some plant) ->
        In plant HUBS_plantes /\ In plant get_all_valid_terms)
  /\ (exists answer, identify_link lemme = Returns answer)
  /\ (forall relation,
        identify_link lemme = Returns (Some relation) ->
        In relation LINKS_relations /\ In relation get_all_valid_terms).
Proof.
  split; [intros terms cutoff term; apply validate_term_in|].
  split; [|split; [|split]].
  - unfold identify_plant.
    destruct (dict_lookup PLANT_ALIASES _); [eexists; reflexivity|].
    apply validate_term_returns.
  - intros plant Hplant.
    assert (Hin : In plant HUBS_plantes).
    { unfold identify_plant in Hplant.
      destruct (dict_lookup PLANT_ALIASES (Unidec.unidecode (lower lemme)))
        as [alias|] eqn:Halias.
      - injection Hplant as <-. unfold PLANT_ALIASES in Halias.
        cbn [dict_lookup] in Halias.
        repeat match type of Halias with
               | (if ?c then _ else _) = _ =>
                   destruct c; [injection Halias as <-; vm_compute; tauto|]
               end.
        discriminate.
      - exact (validate_term_in _ _ _ _ Hplant). }
    split; [exact Hin|]. unfold get_all_valid_terms. apply in_or_app.
    left. exact Hin.
  - apply validate_term_returns.
  - intros relation Hrelation.
    assert (Hin : In relation LINKS_relations)
      by exact (validate_term_in _ _ _ _ Hrelation).
    split; [exact Hin|]. unfold get_all_valid_terms. apply in_or_app.
    right. apply in_or_app. left. exact Hin.
Qed.

End Validator.

(** The stand-in for difflib proposes possibilities only, and something
    exactly when a possibility has the length of the word. *)
Lemma same_length_matches_are_possibilities
    (word : string) (possibilities : list string) (n : nat) (cutoff : Q)
    (m : string) :
  In m (@best_matches Sample.same_length_matches
          word possibilities n cutoff) ->
  In m possibilities.
Proof.
  cbn [best_matches Sample.same_length_matches].
  set (found := List.filter _ possibilities).
  assert (Hfound : forall x, In x found -> In x possibilities).
  { intros x Hx. apply filter_In in Hx. apply Hx. }
  clearbody found. revert found Hfound.
  induction n as [|n IH]; intros found Hfound; [intros []|].
  destruct found as [|x found]; [intros []|]. cbn [firstn].
  intros [<- | Hin]; [apply Hfound; left; reflexivity|].
  apply (IH found); [|exact Hin].
  intros y Hy. apply Hfound. right. exact Hy.
Qed.

Lemma same_length_matches_are_found
    (word : string) (possibilities : list string) (cutoff : Q) :
  @best_matches Sample.same_length_matches word possibilities 1 cutoff
  = []
  <-> forall term, In term possibilities ->
                   Sample.same_length word term cutoff = false.
Proof.
  cbn [best_matches Sample.same_length_matches].
  induction possibilities as [|p ps IH]; cbn [List.filter].
  - split; [intros _ term [] | reflexivity].
  - destruct (Sample.same_length word p cutoff) eqn:E.
    + split; [discriminate|]. intros Hall.
      rewrite (Hall p (or_introl eq_refl)) in E. discriminate.
    + rewrite IH. split.
      * intros Hall term [<- | Hin]; [exact E | exact (Hall term Hin)].
      * intros Hall term Hin. apply Hall. right. exact Hin.
Qed.

(** X24, witness: [fletrie] with the stand-ins. *)
Lemma classify_satellite_answers_the_first_category_witness :
  (forall word possibilities n cutoff m,
      In m (@best_matches Sample.same_length_matches
              word possibilities n cutoff) ->
      In m possibilities)
  /\ (forall word possibilities cutoff,
        @best_matches Sample.same_length_matches
          word possibilities 1 cutoff = []
        <-> forall term, In term possibilities ->
                         Sample.same_length word term cutoff = false)
  /\ @OntologyValidator.classify_satellite Sample.unidecode_latin1
       Sample.same_length_matches "" None
     = Returns (None, None)
  /\ exists validated category,
       @OntologyValidator.classify_satellite Sample.unidecode_latin1
         Sample.same_length_matches "fletrie" None
       = Returns (Some validated, Some category)
       /\ category <> "etats_feuille".
Proof.
  split; [exact same_length_matches_are_possibilities|].
  split; [exact same_length_matches_are_found|].
  destruct (@classify_satellite_answers_the_first_category
              Sample.unidecode_latin1 Sample.same_length_matches
              Sample.same_length same_length_matches_are_possibilities
              same_length_matches_are_found "fletrie" None)
    as (Hempty & validated & category & Hanswer & Hcase).
  split; [exact Hempty|].
  destruct validated as [validated|]; destruct category as [category|];
    try contradiction.
  - exists validated, category. split; [exact Hanswer|].
    destruct Hcase as (_ & _ & _ & Hcategory & _). exact Hcategory.
  - exfalso. destruct Hcase as [Hnil | [_ Hnone]]; [discriminate|].
    specialize (Hnone "etats_feuille_malade" _ "fletrie"
                  ltac:(vm_compute; tauto) ltac:(vm_compute; tauto)).
    vm_compute in Hnone. discriminate.
Defined.

(** X25, witness: [has-disease] with the stand-ins. *)
Lemma validator_answers_with_ontology_terms_witness :
  (forall word possibilities n cutoff m,
      In m (@best_matches Sample.same_length_matches
              word possibilities n cutoff) ->
      In m possibilities)
  /\ forall relation,
       @OntologyValidator.identify_link Sample.unidecode_latin1
         Sample.same_length_matches "has-disease"
       = Returns (Some relation) ->
       In relation OntologyValidator.LINKS_relations.
Proof.
  split; [exact same_length_matches_are_possibilities|].
  intros relation Hrelation.
  exact (proj1 (proj2 (proj2 (proj2 (proj2
           (@validator_answers_with_ontology_terms Sample.unidecode_latin1
              Sample.same_length_matches
              same_length_matches_are_possibilities "has-disease"))))
           relation Hrelation)).
Defined.

(** ** Ontology matcher: vocabularies *)

Section Vocabularies.
Import PyStr OntologyMatcher.

(** The name under which a relation of the ontology is looked up. *)
Local Abbreviation name_of relation :=
  (if is_empty (OntologyLoader.lemma relation)
   then OntologyLoader.label_normalized relation
   else lower (OntologyLoader.lemma relation)).

(** Where a member of the enriched vocabulary comes from. *)
Lemma enrich_origin (R : list OntologyLoader.OntologyRelation) :
  forall (V : gset string) (x : string),
    x ∈ _enrich_from_ontology R V
    <-> x ∈ V
        \/ exists relation,
             In relation R /\ name_of relation = x
             /\ is_empty x = false /\ contains "has_" x = true.
Proof.
  unfold _enrich_from_ontology.
  induction R as [|r R IH]; intros V x; cbn [foldl].
  - split; [intros Hx; left; exact Hx|].
    intros [Hx | (r & [] & _)]. exact Hx.
  - rewrite IH. clear IH.
    destruct (negb (is_empty (name_of r)) && contains "has_" (name_of r))
      eqn:E.
    + apply andb_true_iff in E. destruct E as [E1 E2].
      apply negb_true_iff in E1. rewrite elem_of_union, elem_of_singleton.
      split.
      * intros [[Hx | ->] | (r' & Hin & Hr')].
        -- left. exact Hx.
        -- right. exists r. split; [left; reflexivity|]. auto.
        -- right. exists r'. split; [right; exact Hin | exact Hr'].
      * intros [Hx | (r' & [<- | Hin] & Hname & Hr')].
        -- left. left. exact Hx.
        -- left. right. symmetry. exact Hname.
        -- right. exists r'. split; [exact Hin|]. split; assumption.
    + split.
      * intros [Hx | (r' & Hin & Hr')]; [left; exact Hx|].
        right. exists r'. split; [right; exact Hin | exact Hr'].
      * intros [Hx | (r' & [<- | Hin] & Hname & He & Hc)].
        -- left. exact Hx.
        -- rewrite Hname, He, Hc in E. discriminate.
        -- right. exists r'. split; [exact Hin|]. auto.
Qed.

(** X26. The ontology can only add relations. The link vocabulary of a
    matcher holds the three built-in relations and the names of the
    relations of the ontology that contain [has_], nothing else; the
    vocabularies of Hubs and Satellites do not depend on the ontology. So
    a lemma is classified with the ontology as it is without, unless it
    is the name of such a relation and was a Satellite or unknown without
    the ontology: then it becomes a relation. A Hub is never
    reclassified. *)
Theorem the_ontology_only_adds_relations
    (R : list OntologyLoader.OntologyRelation) (th : gmap string Q)
    (lemma : string) :
  let named x :=
    exists relation,
      In relation R /\ name_of relation = x
      /\ is_empty x = false /\ contains "has_" x = true in
  let with_ontology := _classify_lemma (__init__ R th) lemma in
  let without := _classify_lemma (__init__ [] th) lemma in
  (forall x, x ∈ link_vocabulary (__init__ R th) <-> x ∈ RELATIONS \/ named x)
  /\ hub_vocabulary (__init__ R th) = hub_vocabulary (__init__ [] th)
  /\ satellite_vocabulary (__init__ R th)
     = satellite_vocabulary (__init__ [] th)
  /\ satellite_type_map (__init__ R th)
     = satellite_type_map (__init__ [] th)
  /\ (with_ontology = without
      \/ (with_ontology = link "relation"
          /\ named (strip (lower lemma))
          /\ (without = unknown \/ exists s, without = satellite s))).
Proof.
  intros named with_ontology without.
  assert (Hvoc : forall x, x ∈ link_vocabulary (__init__ R th)
                           <-> x ∈ RELATIONS \/ named x).
  { intros x. cbn [link_vocabulary __init__]. apply enrich_origin. }
  split; [exact Hvoc|]. split; [reflexivity|]. split; [reflexivity|].
  split; [reflexivity|].
  subst with_ontology without. unfold _classify_lemma.
  set (x := strip (lower lemma)) in *.
  destruct (in_set x PLANTES); [left; reflexivity|].
  destruct (in_set x MALADIES); [left; reflexivity|].
  destruct (in_set x RAVAGEURS); [left; reflexivity|].
  destruct (in_set x RELATIONS) eqn:Erel; [left; reflexivity|].
  cbn [orb].
  assert (Hbase : in_set x (link_vocabulary (__init__ [] th)) = false).
  { apply in_set_false. intros Hin. apply in_set_false in Erel.
    apply Erel. exact Hin. }
  rewrite Hbase.
  destruct (in_set x (link_vocabulary (__init__ R th))) eqn:Elink;
    [|left; reflexivity].
  right. split; [reflexivity|]. split.
  - apply in_set_true, Hvoc in Elink. destruct Elink as [Hrel | Hnamed];
      [|exact Hnamed].
    apply in_set_false in Erel. contradiction.
  - destruct (in_set x SYMPTOMES); [right; eexists; reflexivity|].
    destruct (in_set x ETAT_FOLIAIRE); [right; eexists; reflexivity|].
    destruct (in_set x MORPHOLOGIE_COULEUR); [right; eexists; reflexivity|].
    destruct (in_set x MORPHOLOGIE_FORME); [right; eexists; reflexivity|].
    destruct (in_set x MORPHOLOGIE_TEXTURE); [right; eexists; reflexivity|].
    destruct (in_set x MORPHOLOGIE_NERVATION);
      [right; eexists; reflexivity | left; reflexivity].
Qed.

(** [assign_all] gives the label to the terms and keeps the rest. *)
Lemma assign_all_lookup (terms : gset string) (label : string)
    (mapping : gmap string string) (x : string) :
  assign_all terms label mapping !! x
  = if in_set x terms then Some label else mapping !! x.
Proof.
  unfold assign_all, in_set.
  pose (P := fun (acc : gmap string string) (X : gset string) =>
               acc !! x = if bool_decide (x ∈ X) then Some label
                          else mapping !! x).
  change (P (set_fold (fun lemma acc => <[lemma := label]> acc) mapping terms)
            terms).
  apply set_fold_ind_L; unfold P; clear P.
  - rewrite bool_decide_eq_false_2 by apply not_elem_of_empty. reflexivity.
  - intros y X acc Hy IH. destruct (decide (x = y)) as [-> | Hne].
    + rewrite lookup_insert_eq.
      rewrite bool_decide_eq_true_2; [reflexivity|].
      apply elem_of_union_l, elem_of_singleton. reflexivity.
    + rewrite lookup_insert_ne by congruence. rewrite IH.
      destruct (bool_decide (x ∈ X)) eqn:E.
      * apply bool_decide_eq_true in E.
        rewrite bool_decide_eq_true_2; [reflexivity|].
        apply elem_of_union_r. exact E.
      * apply bool_decide_eq_false in E.
        rewrite bool_decide_eq_false_2; [reflexivity|].
        intros Hin. apply elem_of_union in Hin. destruct Hin as [Hin | Hin].
        -- apply elem_of_singleton in Hin. contradiction.
        -- contradiction.
Qed.

(** The kinds of attribute. *)
Local Abbreviation attribute_kinds :=
  ["symptome"; "etat_foliaire"; "couleur"; "forme"; "texture"; "nervation";
   "description"].

(** The type map knows every term of the satellite vocabulary. *)
Lemma satellite_type_known
    (R : list OntologyLoader.OntologyRelation) (th : gmap string Q)
    (x : string) :
  x ∈ satellite_vocabulary (__init__ R th) ->
  exists kind,
    satellite_type_map (__init__ R th) !! x = Some kind
    /\ In kind attribute_kinds.
Proof.
  cbn [satellite_vocabulary satellite_type_map __init__].
  rewrite !assign_all_lookup. rewrite !elem_of_union.
  intros Hx.
  destruct (in_set x MORPHOLOGIE_NERVATION) eqn:E6;
    [eexists; split; [reflexivity | cbn; tauto]|].
  destruct (in_set x MORPHOLOGIE_TEXTURE) eqn:E5;
    [eexists; split; [reflexivity | cbn; tauto]|].
  destruct (in_set x MORPHOLOGIE_FORME) eqn:E4;
    [eexists; split; [reflexivity | cbn; tauto]|].
  destruct (in_set x MORPHOLOGIE_COULEUR) eqn:E3;
    [eexists; split; [reflexivity | cbn; tauto]|].
  destruct (in_set x ETAT_FOLIAIRE) eqn:E2;
    [eexists; split; [reflexivity | cbn; tauto]|].
  destruct (in_set x SYMPTOMES) eqn:E1;
    [eexists; split; [reflexivity | cbn; tauto]|].
  apply in_set_false in E1, E2, E3, E4, E5, E6. tauto.
Qed.

End Vocabularies.

Section Kinds.
Import PyStr SimilarityCalculator OntologyMatcher.
Context `{Hashlib} `{Formatting} `{Clock} `{Scorer} `{SetOrder}.
Variable R : list OntologyLoader.OntologyRelation.
Variable th : gmap string Q.
Variable image_source : string.

Local Abbreviation self := (__init__ R th).
Local Abbreviation attribute_kinds :=
  ["symptome"; "etat_foliaire"; "couleur"; "forme"; "texture"; "nervation";
   "description"].
Local Abbreviation entity_kinds := ["plante"; "maladie"; "ravageur"].

(** [list(s)] enumerates members of [s] only. *)
Hypothesis list_of_set_members :
  forall (s : gset string) (x : string), In x (list_of_set s) -> x ∈ s.

Lemma direct_satellite_kind (x kind : string) :
  _classify_lemma self x = satellite kind -> In kind attribute_kinds.
Proof.
  unfold _classify_lemma.
  repeat match goal with
         | |- (if ?c then _ else _) = _ -> _ => destruct c
         end;
    intros [= <-] || discriminate; cbn; tauto.
Qed.

Lemma step_keeps_kinds (l : locals) (x : string) :
  (forall h, In h (hubs_list l) -> In (Hub.entity_type h) entity_kinds) ->
  (forall lemma kind, In (lemma, kind) (satellites_list l) ->
                      In kind attribute_kinds) ->
  (forall h, In h (hubs_list (phase1_step self image_source l x)) ->
             In (Hub.entity_type h) entity_kinds)
  /\ (forall lemma kind,
        In (lemma, kind) (satellites_list (phase1_step self image_source l x)) ->
        In kind attribute_kinds).
Proof.
  intros Hhubs Hsats.
  assert (Hh : forall new,
             In (Hub.entity_type new) entity_kinds ->
             forall h, In h (hubs_list l ++ [new]) ->
                       In (Hub.entity_type h) entity_kinds).
  { intros new Hnew h Hin. apply in_app_or in Hin.
    destruct Hin as [Hin | [<- | []]]; [exact (Hhubs h Hin) | exact Hnew]. }
  assert (Hs : forall new_lemma new_kind,
             In new_kind attribute_kinds ->
             forall lemma kind,
               In (lemma, kind) (satellites_list l ++ [(new_lemma, new_kind)]) ->
               In kind attribute_kinds).
  { intros nl nk Hnew lemma kind Hin. apply in_app_or in Hin.
    destruct Hin as [Hin | [[= <- <-] | []]];
      [exact (Hsats lemma kind Hin) | exact Hnew]. }
  unfold phase1_step.
  destruct (_classify_lemma self x) as [s | s | s |] eqn:E.
  - destruct (String.eqb s "plante") eqn:Ep.
    + cbn [hubs_list satellites_list]. split; [|exact Hsats].
      apply Hh. cbn. tauto.
    + destruct (mem s ["maladie"; "ravageur"]) eqn:Em;
        cbn [hubs_list satellites_list]; [|split; assumption].
      split; [|exact Hsats]. apply Hh. cbn [Hub.entity_type Hub.new].
      apply mem_In in Em. cbn in Em. cbn. tauto.
  - cbn [hubs_list satellites_list]. split; assumption.
  - cbn [hubs_list satellites_list]. split; [exact Hhubs|].
    apply Hs. exact (direct_satellite_kind x s E).
  - unfold _classify_unknown_lemma.
    destruct (_find_best_match x (hub_vocabulary self) _) as [bh hs].
    destruct (truthy bh) as [b|].
    + cbn [hubs_list satellites_list]. split; [|exact Hsats].
      apply Hh. cbn [Hub.entity_type Hub.new].
      destruct (in_set b PLANTES); [cbn; tauto|].
      destruct (in_set b MALADIES); cbn; tauto.
    + destruct (_find_best_match x (satellite_vocabulary self) _)
        as [bs ss] eqn:Ebs.
      destruct (truthy bs) as [b|] eqn:Eb.
      * cbn [hubs_list satellites_list]. split; [exact Hhubs|].
        apply Hs. apply truthy_some in Eb. subst bs.
        unfold _find_best_match in Ebs.
        destruct (bool_decide (satellite_vocabulary self = ∅));
          [discriminate|].
        apply find_best_match_some in Ebs. destruct Ebs as [Hin _].
        apply list_of_set_members in Hin.
        destruct (satellite_type_known R th b Hin) as (kind & -> & Hkind).
        exact Hkind.
      * destruct (2 <? String.length x)%nat;
          cbn [hubs_list satellites_list]; [|split; assumption].
        split; [exact Hhubs|]. apply Hs. cbn. tauto.
Qed.

Lemma phase1_kinds (lemmas : list string) (reads : nat) :
  (forall h, In h (hubs_list (phase1 self image_source lemmas reads)) ->
             In (Hub.entity_type h) entity_kinds)
  /\ (forall lemma kind,
        In (lemma, kind)
           (satellites_list (phase1 self image_source lemmas reads)) ->
        In kind attribute_kinds).
Proof.
  induction lemmas as [|x lemmas [IHh IHs]] using rev_ind.
  - split; [intros h [] | intros lemma kind []].
  - rewrite phase1_snoc. apply step_keeps_kinds; assumption.
Qed.


End Kinds.


(** ** SQL exporter: escaped values *)

Section Escaping.
Import PyStr SQLExporter.

Lemma append_cons (c : ascii) (a b : string) :
  String c a +:+ b = String c (a +:+ b).
Proof. reflexivity. Qed.

Lemma quote_test (c : ascii) :
  Ascii.eqb c "'" = true <-> c = "'"%char.
Proof. apply Ascii.eqb_eq. Qed.

(** Reading consumes the value, one more character for each of its quotes,
    and the closing quote. *)
Lemma read_constant_length (n : nat) :
  forall s value rest,
    (String.length s <= n)%nat ->
    read_constant s = Some (value, rest) ->
    String.length s
    = (String.length value + quotes value + 1 + String.length rest)%nat.
Proof.
  induction n as [|n IH]; intros s value rest Hn.
  - destruct s; [discriminate | cbn [String.length] in Hn; lia].
  - destruct s as [|c r]; [discriminate|]. cbn [read_constant].
    cbn [String.length] in Hn.
    destruct (Ascii.eqb c "'") eqn:Ec.
    + destruct r as [|c' r'].
      * intros [= <- <-]. reflexivity.
      * destruct (Ascii.eqb c' "'") eqn:Ec'.
        -- destruct (read_constant r') as [[v rest']|] eqn:Er;
             [|discriminate].
           intros [= <- <-]. cbn [String.length] in Hn.
           pose proof (IH r' v rest' ltac:(lia) Er) as E.
           cbn [String.length quotes Ascii.eqb Bool.eqb]. lia.
        -- intros [= <- <-]. reflexivity.
    + destruct (read_constant r) as [[v rest']|] eqn:Er; [|discriminate].
      intros [= <- <-]. pose proof (IH r v rest' ltac:(lia) Er) as E.
      cbn [String.length quotes]. rewrite Ec. lia.
Qed.

Lemma append_length' (a b : string) :
  String.length (a +:+ b) = (String.length a + String.length b)%nat.
Proof.
  induction a as [|c a IH]; [reflexivity|].
  rewrite append_cons. cbn [String.length]. rewrite IH. reflexivity.
Qed.

(** X28. A value written between quotes after [_escape_sql] is read back
    as the value, whatever quotes it holds, and reading stops at the
    closing quote. Escaping adds one character per quote and changes
    nothing else; written as it is, a value is read back as itself only
    if it holds no quote. *)
Theorem escaped_values_are_read_back (value rest : string) :
  String.prefix "'" rest = false ->
  read_constant (_escape_sql value +:+ "'" +:+ rest) = Some (value, rest)
  /\ String.length (_escape_sql value)
     = (String.length value + quotes value)%nat
  /\ (quotes value = 0%nat -> _escape_sql value = value)
  /\ (read_constant (value +:+ "'" +:+ rest) = Some (value, rest)
      <-> quotes value = 0%nat).
Proof.
  intros Hrest. unfold _escape_sql.
  assert (Hclose : read_constant ("'" +:+ rest) = Some ("", rest)).
  { rewrite append_cons. change ("" +:+ rest) with rest.
    cbn [read_constant Ascii.eqb Bool.eqb].
    destruct rest as [|c r]; [reflexivity|].
    destruct (Ascii.eqb c "'") eqn:Ec; [|reflexivity].
    apply quote_test in Ec. subst c. cbn in Hrest.
    destruct r; discriminate. }
  assert (Hread : forall value,
             read_constant (replace_by "'" "''" value +:+ "'" +:+ rest)
             = Some (value, rest)).
  { set (tail := "'" +:+ rest) in *. clear value.
    intros value. induction value as [|c v IH]; [exact Hclose|].
    cbn [replace_by]. destruct (Ascii.eqb c "'") eqn:Ec.
    - apply quote_test in Ec. subst c.
      rewrite !append_cons.
      change ("" +:+ replace_by "'" "''" v) with (replace_by "'" "''" v).
      cbn [read_constant Ascii.eqb Bool.eqb]. rewrite IH. reflexivity.
    - rewrite append_cons. cbn [read_constant]. rewrite Ec, IH.
      reflexivity. }
  assert (Hlen : forall value,
             String.length (replace_by "'" "''" value)
             = (String.length value + quotes value)%nat).
  { clear. intros value. induction value as [|c v IH]; [reflexivity|].
    cbn [replace_by quotes String.length].
    destruct (Ascii.eqb c "'").
    - rewrite !append_cons.
      change ("" +:+ replace_by "'" "''" v) with (replace_by "'" "''" v).
      cbn [String.length]. rewrite IH. lia.
    - cbn [String.length]. rewrite IH. lia. }
  assert (Hsame : forall value,
             quotes value = 0%nat -> replace_by "'" "''" value = value).
  { clear. intros value. induction value as [|c v IH]; [reflexivity|].
    cbn [replace_by quotes]. destruct (Ascii.eqb c "'"); [discriminate|].
    cbn [Nat.add]. intros Hq. rewrite (IH Hq). reflexivity. }
  split; [apply Hread|]. split; [apply Hlen|]. split; [apply Hsame|].
  split.
  - intros Hraw.
    apply (read_constant_length _ _ _ _ (le_n _)) in Hraw.
    rewrite !append_length' in Hraw. cbn [String.length] in Hraw. lia.
  - intros Hq. rewrite <- (Hsame value Hq) at 1. apply Hread.
Qed.

End Escaping.

(** X28, witness: a value with a quote, followed by the next field. *)
Lemma escaped_values_are_read_back_witness :
  String.prefix "'" ", 'img1.jpg');" = false
  /\ SQLExporter.read_constant
       (SQLExporter._escape_sql "feuille d'oignon" +:+ "'"
        +:+ ", 'img1.jpg');")
     = Some ("feuille d'oignon", ", 'img1.jpg');").
Proof.
  split; [reflexivity|].
  exact (proj1 (escaped_values_are_read_back "feuille d'oignon"
                  ", 'img1.jpg');" eq_refl)).
Defined.

(** ** Similarity calculator: batches *)

Section Batch.
Import PyStr SimilarityCalculator.
Context `{Scorer}.
Variable lemma : string.

Local Abbreviation score := (calculate_similarity lemma).

Lemma batch_fold (terms : list string) (start : list (string * Q)) :
  NoDup (map fst start) ->
  let batch :=
    foldl (fun similarities term => dict_set similarities term (score term))
      start terms in
  (forall term,
      dict_lookup batch term
      = if mem term terms then Some (score term)
        else dict_lookup start term)
  /\ NoDup (map fst batch).
Proof.
  intros Hstart. cbv zeta.
  induction terms as [|x terms [IHl IHk]] using rev_ind.
  - split; [intros term; reflexivity | exact Hstart].
  - rewrite foldl_app. cbn [foldl]. split.
    + intros term. rewrite dict_lookup_set, IHl. unfold mem.
      rewrite existsb_app. cbn [existsb]. rewrite orb_false_r.
      fold (mem term terms).
      destruct (String.eqb term x) eqn:E.
      * apply String.eqb_eq in E. subst x. rewrite orb_true_r. reflexivity.
      * rewrite orb_false_r. reflexivity.
    + rewrite keys_of_dict_set.
      match goal with |- NoDup (if ?c then _ else _) => destruct c eqn:E end;
        [exact IHk|].
      apply NoDup_app. split; [exact IHk|]. split.
      * intros k Hk Hin. apply list_elem_of_singleton in Hin. subst k.
        apply list_elem_of_In, mem_In in Hk. congruence.
      * apply NoDup_singleton.
Qed.


End Batch.

(** ** From the lemmas to the validated schema *)

Section EndToEnd.
Import PyStr SimilarityCalculator OntologyMatcher DataVaultGenerator.
Context `{Hashlib} `{Formatting} `{Clock} `{Scorer} `{SetOrder}.
Variable self : t.
Variable image_source : string.

(** The calculator returns scores between 0 and 1. *)
Hypothesis scores_are_bounded :
  forall a b, SimilarityStrategies.in_unit_interval (calculate_similarity a b).

Lemma two_distinct_members {A} (x y : A) (l : list A) :
  In x l -> In y l -> x <> y -> (2 <= List.length l)%nat.
Proof.
  intros Hx Hy Hne. destruct l as [|a [|b r]]; cbn [List.length]; [| |lia].
  - destruct Hx.
  - destruct Hx as [<- | []]. destruct Hy as [<- | []]. congruence.
Qed.

(** A Link joins two Hubs of the list, and there is at most one Link. *)
Lemma classified_link_has_two_hubs (lemmas : list string) (reads : nat) :
  let l := phase1 self image_source lemmas reads in
  (List.length (fst (phase2 image_source l)) <= 1)%nat
  /\ (fst (phase2 image_source l) <> [] ->
      (2 <= List.length (hubs_list l))%nat).
Proof.
  intros l.
  destruct (phase1_invariant_holds self image_source lemmas reads)
    as [Hplant Hproblem _ Hslots _].
  fold l in Hplant, Hproblem, Hslots. unfold phase2.
  destruct (plante_hub l) as [p|] eqn:Ep;
    [destruct (probleme_hub l) as [q|] eqn:Eq|]; cbn [fst List.length];
    try (split; [lia | congruence]).
  split; [lia|]. intros _.
  apply (two_distinct_members p q);
    [apply Hslots; left; reflexivity | apply Hslots; right; reflexivity|].
  cbn [slot_ok] in Hplant, Hproblem.
  destruct Hplant as (xp & _ & kp & ->).
  destruct Hproblem as (xq & _ & sub & kq & [_ Hsub] & ->).
  intros Heq. apply (f_equal Hub.entity_type) in Heq.
  cbn [Hub.entity_type direct_hub Hub.new] in Heq.
  destruct Hsub as [-> | ->]; discriminate.
Qed.


End EndToEnd.

